(** * The DDNS client: the retry/timeout executor and the program around it

    A shallow embedding of package [executor] (the attempt loop [Execute],
    its convenience wrappers, and the retry and timeout strategies), and of
    the code that uses it: the configuration loader, the provider factory,
    the mock and DuckDNS providers, the detection of the public address and
    the update service.  The properties the specification states about the
    executor come first; properties of the rest of the code follow them.

    Conventions of the embedding:
    - Go's [int] and [time.Duration] are 64-bit signed integers: they are
      modelled as [Z] with the wrap-around of every arithmetic operation
      written out ([I64.add], [I64.sub], [I64.mul]);
    - Go's [float64] is Rocq's primitive binary64 [float];
    - Go's [error] interface is [option error], [None] being [nil];
    - a pointer to a strategy is a location in a heap ([Ref]), so that the
      aliasing a pointer receiver creates is visible;
    - effects (the task, the callbacks, the race between [ctx.Done()] and
      [time.After]) thread a caller-chosen world through a small state monad
      that also records the sequence of observable events;
    - what comes from outside the repository (files, JSON, the HTTP client,
      the clock) is a class of operations on that world. *)

From Stdlib Require Import ZArith List Bool String Lia QArith Qminmax.
From Stdlib Require Import Floats.
From Stdlib Require Uint63.
From Stdlib Require Import DecimalString.
From stdpp Require Import base gmap strings.
Import ListNotations.
Open Scope Z_scope.

(** ** Machine integers *)

Module I64.

Definition min_int : Z := - 2 ^ 63.
Definition max_int : Z := 2 ^ 63 - 1.

(** Two's-complement reduction of a mathematical integer to 64 bits. *)
Definition wrap (z : Z) : Z := (z + 2 ^ 63) mod 2 ^ 64 - 2 ^ 63.

Definition add (a b : Z) : Z := wrap (a + b).
Definition sub (a b : Z) : Z := wrap (a - b).
Definition mul (a b : Z) : Z := wrap (a * b).

Definition in_range (z : Z) : bool := (min_int <=? z) && (z <=? max_int).

End I64.

(** Go [int] (64-bit platforms) and [time.Duration] (nanoseconds, int64). *)
Definition GoInt := Z.
Definition Duration := Z.

Definition Millisecond : Duration := 1000000.
Definition Second : Duration := 1000000000.

(** ** float64

    The conversions and [math.Pow] belong to the Go runtime and library, not
    to the repository; they are modelled here on Rocq's binary64 floats. *)

(** The result of converting a float64 that no int64 can represent (NaN,
    infinities, magnitudes of 2^63 and more) is implementation-dependent in
    Go; it is a parameter of the model. *)
Class Arch := { cvt_indefinite : float -> Z }.

Module F64.

(** [float64(x)] for an int64 [x]: round to nearest, ties to even. *)
Definition of_int (x : Z) : float :=
  if x =? I64.min_int then (- Z.ldexp one 63)%float
  else if x <? 0 then (- of_uint63 (Uint63.of_Z (- x)))%float
  else of_uint63 (Uint63.of_Z x).

(** The integer part of a finite float, rounded toward zero. *)
Definition trunc (f : float) : option Z :=
  match Prim2SF f with
  | S754_zero _ => Some 0
  | S754_finite s m e =>
      let mag := if 0 <=? e then Z.pos m * 2 ^ e else Z.pos m / 2 ^ (- e) in
      Some (if s then - mag else mag)
  | S754_infinity _ | S754_nan => None
  end.

(** [int64(f)] and [time.Duration(f)]: truncation toward zero when the
    result fits. *)
Definition to_int `{Arch} (f : float) : Z :=
  match trunc f with
  | Some z => if I64.in_range z then z else cvt_indefinite f
  | None => cvt_indefinite f
  end.

(** The exact rational value of a finite float. *)
Definition value (f : float) : option Q :=
  match Prim2SF f with
  | S754_zero _ => Some 0%Q
  | S754_finite s m e =>
      let q := if 0 <=? e then inject_Z (Z.pos m * 2 ^ e)
               else Qmake (Z.pos m) (Z.to_pos (2 ^ (- e))) in
      Some (if s then Qopp q else q)
  | S754_infinity _ | S754_nan => None
  end.

(** [math.Frexp]. *)
Definition Frexp (f : float) : float * Z :=
  if is_zero f || is_infinity f || is_nan f then (f, 0) else Z.frexp f.

(** [math.Ldexp]: [frac * 2^exp], correctly rounded. *)
Definition Ldexp (frac : float) (exp : Z) : float := Z.ldexp frac exp.

(** [isOddInt] of pow.go, for an integer-valued argument. *)
Definition isOddInt (y : float) : bool :=
  if (0x1p53 <=? abs y)%float then false
  else match trunc y with Some z => Z.odd z | None => false end.

(** The case [x == 0] of [math.Pow], [y] being neither zero nor NaN. *)
Definition pow_zero (x y : float) : float :=
  if (y <? 0)%float then
    if get_sign x && isOddInt y then neg_infinity else infinity
  else
    if get_sign x && isOddInt y then x else zero.

(** The square-and-multiply loop of [math.Pow],
    [for i := int64(yi); i != 0; i >>= 1], on the binary digits of [i].
    [ae] and [xe] are small exponents (the loop leaves as soon as [xe]
    exceeds 2^12 in magnitude), so their arithmetic cannot wrap. *)
Fixpoint pow_loop (i : positive) (a1 : float) (ae : Z) (x1 : float) (xe : Z)
  : float * Z :=
  if (xe <? - 2 ^ 12) || (2 ^ 12 <? xe) then (a1, ae + xe)
  else
    let '(a1, ae) :=
      match i with
      | xO _ => (a1, ae)
      | _ => ((a1 * x1)%float, ae + xe)
      end in
    let x1 := (x1 * x1)%float in
    let xe := 2 * xe in
    let '(x1, xe) :=
      if (x1 <? 0.5)%float then ((x1 + x1)%float, xe - 1) else (x1, xe) in
    match i with
    | xH => (a1, ae)
    | xO i' | xI i' => pow_loop i' a1 ae x1 xe
    end.

(** [Pow x n] is the Go expression [math.Pow(x, float64(n))] for an int
    [n], following the portable implementation (pow.go).  The exponent is a
    float64 obtained from an integer, hence integer-valued: [Modf] returns
    it whole with a zero fractional part, and the cases of [math.Pow] for a
    fractional or NaN exponent ([y == ±0.5], [Exp(yf*Log(x))]) are not
    reachable. *)
Definition Pow (x : float) (n : Z) : float :=
  let y := of_int n in
  if (y =? 0)%float || (x =? 1)%float then one
  else if (y =? 1)%float then x
  else if is_nan x then nan
  else if (x =? 0)%float then pow_zero x y
  else if is_infinity y then
    if (x =? -1)%float then one
    else if Bool.eqb (abs x <? 1)%float (y =? infinity)%float then zero
    else infinity
  else if is_infinity x then
    if (x =? neg_infinity)%float then pow_zero (1 / x)%float (- y)%float
    else if (y <? 0)%float then zero else infinity
  else
    let yi := abs y in
    if (0x1p63 <=? yi)%float then
      if (x =? -1)%float then one
      else if Bool.eqb (abs x <? 1)%float (0 <? y)%float then zero
      else infinity
    else
      let '(x1, xe) := Frexp x in
      let '(a1, ae) :=
        match trunc yi with
        | Some (Z.pos i) => pow_loop i one 0 x1 xe
        | _ => (one, 0)
        end in
      let '(a1, ae) := if (y <? 0)%float then ((1 / a1)%float, - ae) else (a1, ae) in
      Ldexp a1 ae.

End F64.

(** On amd64 the conversion instruction (CVTTSD2SQ) yields the "integer
    indefinite" value 0x8000000000000000 for every unrepresentable input. *)
Definition amd64 : Arch := {| cvt_indefinite := fun _ => I64.min_int |}.

(** ** Errors *)

(** The error values that occur around the executor.  Go's [error] is an
    interface whose zero value is [nil]: it is [option error] here. *)
Inductive error : Type :=
| errors_New (text : string)   (* errors.New(text) *)
| Canceled                     (* context.Canceled *)
| DeadlineExceeded.            (* context.DeadlineExceeded *)

Definition notNil {A : Type} (x : option A) : bool :=
  match x with Some _ => true | None => false end.

(** ** Strategy interfaces

    Package [executor] declares them with [Task], [Result] and [Executor]
    (in src/config/config.go, after package [config]).  An interface value
    is the method set bound to its receiver. *)

Record RetryStrategy : Type := {
  ShouldRetry : GoInt -> option error -> bool;
  GetDelay : GoInt -> Duration;
  GetMaxAttempts : GoInt
}.

Record TimeoutStrategy : Type := {
  GetTimeout : GoInt -> Duration
}.

(** ** Timeout strategies (src/executor/timeout_strategies.go) *)

Module FixedTimeoutStrategy.
Record t : Type := mk { timeout : Duration }.

Definition GetTimeout (f : t) (attempt : GoInt) : Duration := f.(timeout).

Definition iface (f : t) : TimeoutStrategy := Build_TimeoutStrategy (GetTimeout f).
End FixedTimeoutStrategy.

Definition NewFixedTimeoutStrategy (timeout : Duration) : FixedTimeoutStrategy.t :=
  {| FixedTimeoutStrategy.timeout := timeout |}.

Module ProgressiveTimeoutStrategy.
Record t : Type := mk { baseTimeout : Duration; multiplier : float; maxTimeout : Duration }.

Definition GetTimeout `{Arch} (p : t) (attempt : GoInt) : Duration :=
  let timeout :=
    F64.to_int (F64.of_int p.(baseTimeout) * F64.Pow p.(multiplier) (I64.sub attempt 1))%float in
  if timeout >? p.(maxTimeout) then p.(maxTimeout) else timeout.

Definition iface `{Arch} (p : t) : TimeoutStrategy := Build_TimeoutStrategy (GetTimeout p).
End ProgressiveTimeoutStrategy.

Definition NewProgressiveTimeoutStrategy (baseTimeout : Duration) (multiplier : float)
    (maxTimeout : Duration) : ProgressiveTimeoutStrategy.t :=
  {| ProgressiveTimeoutStrategy.baseTimeout := baseTimeout;
     ProgressiveTimeoutStrategy.multiplier := multiplier;
     ProgressiveTimeoutStrategy.maxTimeout := maxTimeout |}.

Module LinearTimeoutStrategy.
Record t : Type := mk { baseTimeout : Duration; increment : Duration; maxTimeout : Duration }.

Definition GetTimeout (l : t) (attempt : GoInt) : Duration :=
  let timeout := I64.add l.(baseTimeout) (I64.mul (I64.sub attempt 1) l.(increment)) in
  if timeout >? l.(maxTimeout) then l.(maxTimeout) else timeout.

Definition iface (l : t) : TimeoutStrategy := Build_TimeoutStrategy (GetTimeout l).
End LinearTimeoutStrategy.

Definition NewLinearTimeoutStrategy (baseTimeout increment maxTimeout : Duration)
    : LinearTimeoutStrategy.t :=
  {| LinearTimeoutStrategy.baseTimeout := baseTimeout;
     LinearTimeoutStrategy.increment := increment;
     LinearTimeoutStrategy.maxTimeout := maxTimeout |}.

Module ConditionalTimeoutStrategy.
Record t : Type := mk { getTimeoutFn : GoInt -> Duration }.

Definition GetTimeout (c : t) (attempt : GoInt) : Duration := c.(getTimeoutFn) attempt.

Definition iface (c : t) : TimeoutStrategy := Build_TimeoutStrategy (GetTimeout c).
End ConditionalTimeoutStrategy.

Definition NewConditionalTimeoutStrategy (getTimeoutFn : GoInt -> Duration)
    : ConditionalTimeoutStrategy.t :=
  {| ConditionalTimeoutStrategy.getTimeoutFn := getTimeoutFn |}.

(** ** Retry strategies (src/executor/timeout_strategies.go, second part) *)

Module ExponentialBackoffStrategy.
Record t : Type := mk {
  maxAttempts : GoInt;
  baseDelay : Duration;
  multiplier : float;
  maxDelay : Duration
}.

Definition ShouldRetry (e : t) (attempt : GoInt) (err : option error) : bool :=
  if attempt >=? e.(maxAttempts) then false
  else notNil err.

Definition GetDelay `{Arch} (e : t) (attempt : GoInt) : Duration :=
  let delay :=
    F64.to_int (F64.of_int e.(baseDelay) * F64.Pow e.(multiplier) (I64.sub attempt 1))%float in
  if delay >? e.(maxDelay) then e.(maxDelay) else delay.

Definition GetMaxAttempts (e : t) : GoInt := e.(maxAttempts).

(** The assignment [e.maxDelay = maxDelay] on the struct [e] points to. *)
Definition set_maxDelay (d : Duration) (e : t) : t :=
  {| maxAttempts := e.(maxAttempts); baseDelay := e.(baseDelay);
     multiplier := e.(multiplier); maxDelay := d |}.

Definition iface `{Arch} (e : t) : RetryStrategy :=
  Build_RetryStrategy (ShouldRetry e) (GetDelay e) (GetMaxAttempts e).
End ExponentialBackoffStrategy.

(** The struct that [NewExponentialBackoffStrategy] builds; [30 * time.Second]
    is the default cap. *)
Definition NewExponentialBackoffStrategy (maxAttempts : GoInt) (baseDelay : Duration)
    (multiplier : float) : ExponentialBackoffStrategy.t :=
  {| ExponentialBackoffStrategy.maxAttempts := maxAttempts;
     ExponentialBackoffStrategy.baseDelay := baseDelay;
     ExponentialBackoffStrategy.multiplier := multiplier;
     ExponentialBackoffStrategy.maxDelay := 30 * Second |}.

Module LinearBackoffStrategy.
Record t : Type := mk { maxAttempts : GoInt; baseDelay : Duration; increment : Duration }.

Definition ShouldRetry (l : t) (attempt : GoInt) (err : option error) : bool :=
  if attempt >=? l.(maxAttempts) then false
  else notNil err.

Definition GetDelay (l : t) (attempt : GoInt) : Duration :=
  I64.add l.(baseDelay) (I64.mul (I64.sub attempt 1) l.(increment)).

Definition GetMaxAttempts (l : t) : GoInt := l.(maxAttempts).

Definition iface (l : t) : RetryStrategy :=
  Build_RetryStrategy (ShouldRetry l) (GetDelay l) (GetMaxAttempts l).
End LinearBackoffStrategy.

Definition NewLinearBackoffStrategy (maxAttempts : GoInt) (baseDelay increment : Duration)
    : LinearBackoffStrategy.t :=
  {| LinearBackoffStrategy.maxAttempts := maxAttempts;
     LinearBackoffStrategy.baseDelay := baseDelay;
     LinearBackoffStrategy.increment := increment |}.

Module FixedDelayStrategy.
Record t : Type := mk { maxAttempts : GoInt; delay : Duration }.

Definition ShouldRetry (f : t) (attempt : GoInt) (err : option error) : bool :=
  if attempt >=? f.(maxAttempts) then false
  else notNil err.

Definition GetDelay (f : t) (attempt : GoInt) : Duration := f.(delay).

Definition GetMaxAttempts (f : t) : GoInt := f.(maxAttempts).

Definition iface (f : t) : RetryStrategy :=
  Build_RetryStrategy (ShouldRetry f) (GetDelay f) (GetMaxAttempts f).
End FixedDelayStrategy.

Definition NewFixedDelayStrategy (maxAttempts : GoInt) (delay : Duration)
    : FixedDelayStrategy.t :=
  {| FixedDelayStrategy.maxAttempts := maxAttempts; FixedDelayStrategy.delay := delay |}.

Module NoRetryStrategy.
Record t : Type := mk { }.

Definition ShouldRetry (n : t) (attempt : GoInt) (err : option error) : bool := false.

Definition GetDelay (n : t) (attempt : GoInt) : Duration := 0.

Definition GetMaxAttempts (n : t) : GoInt := 1.

Definition iface (n : t) : RetryStrategy :=
  Build_RetryStrategy (ShouldRetry n) (GetDelay n) (GetMaxAttempts n).
End NoRetryStrategy.

Definition NewNoRetryStrategy : NoRetryStrategy.t := NoRetryStrategy.mk.

Module ConditionalRetryStrategy.
(** The two function fields may be [nil]. *)
Record t : Type := mk {
  maxAttempts : GoInt;
  baseDelay : Duration;
  shouldRetryFn : option (GoInt -> option error -> bool);
  getDelayFn : option (GoInt -> Duration)
}.

Definition ShouldRetry (c : t) (attempt : GoInt) (err : option error) : bool :=
  if attempt >=? c.(maxAttempts) then false
  else match c.(shouldRetryFn) with
       | Some fn => fn attempt err
       | None => notNil err
       end.

Definition GetDelay (c : t) (attempt : GoInt) : Duration :=
  match c.(getDelayFn) with
  | Some fn => fn attempt
  | None => c.(baseDelay)
  end.

Definition GetMaxAttempts (c : t) : GoInt := c.(maxAttempts).

Definition iface (c : t) : RetryStrategy :=
  Build_RetryStrategy (ShouldRetry c) (GetDelay c) (GetMaxAttempts c).
End ConditionalRetryStrategy.

Definition NewConditionalRetryStrategy (maxAttempts : GoInt) (baseDelay : Duration)
    (shouldRetryFn : option (GoInt -> option error -> bool))
    (getDelayFn : option (GoInt -> Duration)) : ConditionalRetryStrategy.t :=
  {| ConditionalRetryStrategy.maxAttempts := maxAttempts;
     ConditionalRetryStrategy.baseDelay := baseDelay;
     ConditionalRetryStrategy.shouldRetryFn := shouldRetryFn;
     ConditionalRetryStrategy.getDelayFn := getDelayFn |}.

(** Every strategy type converts to the interface it implements. *)
Coercion FixedTimeoutStrategy.iface : FixedTimeoutStrategy.t >-> TimeoutStrategy.
#[warnings="-uniform-inheritance"]
Coercion ProgressiveTimeoutStrategy.iface : ProgressiveTimeoutStrategy.t >-> TimeoutStrategy.
Coercion LinearTimeoutStrategy.iface : LinearTimeoutStrategy.t >-> TimeoutStrategy.
Coercion ConditionalTimeoutStrategy.iface : ConditionalTimeoutStrategy.t >-> TimeoutStrategy.
#[warnings="-uniform-inheritance"]
Coercion ExponentialBackoffStrategy.iface : ExponentialBackoffStrategy.t >-> RetryStrategy.
Coercion LinearBackoffStrategy.iface : LinearBackoffStrategy.t >-> RetryStrategy.
Coercion FixedDelayStrategy.iface : FixedDelayStrategy.t >-> RetryStrategy.
Coercion NoRetryStrategy.iface : NoRetryStrategy.t >-> RetryStrategy.
Coercion ConditionalRetryStrategy.iface : ConditionalRetryStrategy.t >-> RetryStrategy.

(** ** Strategies behind pointers

    The constructors return pointers and the methods have pointer receivers.
    [Ref] keeps the exponential-backoff structs in a heap, which is what the
    one method that assigns to its receiver, [WithMaxDelay], needs. *)

Module Ref.

Abbreviation ptr := positive.
Abbreviation heap := (gmap positive ExponentialBackoffStrategy.t).

(** [&ExponentialBackoffStrategy{...}]: a fresh location holding the struct. *)
Definition NewExponentialBackoffStrategy (maxAttempts : GoInt) (baseDelay : Duration)
    (multiplier : float) (h : heap) : ptr * heap :=
  let e := fresh (dom h) in
  (e, <[e := NewExponentialBackoffStrategy maxAttempts baseDelay multiplier]> h).

(** [e.maxDelay = maxDelay; return e].  Dereferencing a pointer that holds
    no struct panics ([None]). *)
Definition WithMaxDelay (e : ptr) (maxDelay : Duration) (h : heap) : option (ptr * heap) :=
  match h !! e with
  | Some s => Some (e, <[e := ExponentialBackoffStrategy.set_maxDelay maxDelay s]> h)
  | None => None
  end.

(** Reading a field through the pointer. *)
Definition maxDelay (e : ptr) (h : heap) : option Duration :=
  ExponentialBackoffStrategy.maxDelay <$> h !! e.

End Ref.

(** ** The executor (src/config/config.go, package [executor]) *)

(** The zero value of a type, as [var zero T] gives it. *)
Class ZeroValue (T : Type) : Type := zero_value : T.
#[export] Instance string_zero : ZeroValue string := EmptyString.
#[export] Instance int_zero : ZeroValue Z := 0.
#[export] Instance bool_zero : ZeroValue bool := false.

Record Result (T : Type) : Type := mkResult {
  Value : T;
  Error : option error;
  Attempt : GoInt
}.
Arguments mkResult {T} _ _ _.
Arguments Value {T} _.
Arguments Error {T} _.
Arguments Attempt {T} _.

(** The assignment [lastResult.Error = e]. *)
Definition set_Error {T : Type} (e : option error) (r : Result T) : Result T :=
  {| Value := r.(Value); Error := e; Attempt := r.(Attempt) |}.

(** What can be observed of one run of [Execute], in the order it happens.
    The attempt recorded with an event is the value of the loop variable. *)
Inductive event (T : Type) : Type :=
| EvOnTimeout (attempt : GoInt) (timeout : Duration)
    (* executor.onTimeout(attempt, timeout) was called *)
| EvTask (attempt : GoInt) (timeout : Duration) (value : T) (err : option error)
    (* task(taskCtx) ran under [timeout] and returned (value, err) *)
| EvShouldRetry (attempt : GoInt) (err : option error) (answer : bool)
    (* retryStrategy.ShouldRetry(attempt, err) was called *)
| EvOnRetry (attempt : GoInt) (err : option error) (delay : Duration)
    (* executor.onRetry(attempt, err, delay) was called *)
| EvWait (attempt : GoInt) (delay : Duration) (done : option error).
    (* the select after [attempt] chose ctx.Done() ([Some (ctx.Err())]) or
       the timer ([None]) *)
Arguments EvOnTimeout {T} _ _.
Arguments EvTask {T} _ _ _ _.
Arguments EvShouldRetry {T} _ _ _.
Arguments EvOnRetry {T} _ _ _.
Arguments EvWait {T} _ _ _.

Section Engine.

(** [T] is the task's value type; [W] is the caller's world: whatever the
    task closure and the callbacks capture, the clock, and the state of the
    parent context. *)
Context {T W : Type}.

(** The parent [context.Context], as far as [Execute] uses it: the select
    between [ctx.Done()] and [time.After(delay)].  The world decides the
    race; [Some e] means that [ctx.Done()] was chosen, [e] being [ctx.Err()]
    (non-nil once [Done] is closed, and the same at every call), and [None]
    that the timer was. *)
Record Ctx : Type := {
  select_Done : Duration -> W -> option error * W
}.

(** [type Task[T any] func(ctx context.Context) (T, error)].  The model
    passes the derived context [context.WithTimeout(ctx, timeout)] as its
    two components. *)
Definition Task : Type := Ctx -> Duration -> W -> (T * option error) * W.

Record Executor : Type := mkExecutor {
  retryStrategy : RetryStrategy;
  timeoutStrategy : TimeoutStrategy;
  onRetry : option (GoInt -> option error -> Duration -> W -> W);
  onTimeout : option (GoInt -> Duration -> W -> W)
}.

Definition ExecutorOption : Type := Executor -> Executor.

Definition WithRetryStrategy (strategy : RetryStrategy) : ExecutorOption :=
  fun e => {| retryStrategy := strategy; timeoutStrategy := e.(timeoutStrategy);
              onRetry := e.(onRetry); onTimeout := e.(onTimeout) |}.

Definition WithTimeoutStrategy (strategy : TimeoutStrategy) : ExecutorOption :=
  fun e => {| retryStrategy := e.(retryStrategy); timeoutStrategy := strategy;
              onRetry := e.(onRetry); onTimeout := e.(onTimeout) |}.

Definition WithRetryCallback (callback : option (GoInt -> option error -> Duration -> W -> W))
    : ExecutorOption :=
  fun e => {| retryStrategy := e.(retryStrategy); timeoutStrategy := e.(timeoutStrategy);
              onRetry := callback; onTimeout := e.(onTimeout) |}.

Definition WithTimeoutCallback (callback : option (GoInt -> Duration -> W -> W))
    : ExecutorOption :=
  fun e => {| retryStrategy := e.(retryStrategy); timeoutStrategy := e.(timeoutStrategy);
              onRetry := e.(onRetry); onTimeout := callback |}.

Definition NewExecutor `{Arch} (options : list ExecutorOption) : Executor :=
  let executor :=
    {| retryStrategy := NewExponentialBackoffStrategy 3 Second 2;
       timeoutStrategy := NewFixedTimeoutStrategy (30 * Second);
       onRetry := None;
       onTimeout := None |} in
  fold_left (fun executor option => option executor) options executor.

(** *** Effects: a state monad over the world that also writes the events *)

Definition M (A : Type) : Type := W -> (A * W) * list (event T).

Definition ret {A : Type} (a : A) : M A := fun w => ((a, w), []).

Definition bind {A B : Type} (m : M A) (k : A -> M B) : M B :=
  fun w =>
    let '((a, w1), tr1) := m w in
    let '((b, w2), tr2) := k a w1 in
    ((b, w2), tr1 ++ tr2).

Local Notation "x <- m ;; k" := (bind m (fun x => k))
  (at level 100, m at next level, right associativity).
Local Notation "m ;;; k" := (bind m (fun _ => k))
  (at level 100, right associativity).

(** [if executor.onTimeout != nil { executor.onTimeout(attempt, timeout) }] *)
Definition notify_timeout (executor : Executor) (attempt : GoInt) (timeout : Duration)
    : M unit :=
  fun w =>
    match executor.(onTimeout) with
    | Some callback => ((tt, callback attempt timeout w), [EvOnTimeout attempt timeout])
    | None => ((tt, w), [])
    end.

(** [value, err := task(taskCtx)] *)
Definition run_task (task : Task) (ctx : Ctx) (attempt : GoInt) (timeout : Duration)
    : M (T * option error) :=
  fun w =>
    let '((value, err), w1) := task ctx timeout w in
    (((value, err), w1), [EvTask attempt timeout value err]).

(** [executor.retryStrategy.ShouldRetry(attempt, err)] *)
Definition should_retry (executor : Executor) (attempt : GoInt) (err : option error)
    : M bool :=
  fun w =>
    let answer := executor.(retryStrategy).(ShouldRetry) attempt err in
    ((answer, w), [EvShouldRetry attempt err answer]).

(** [if executor.onRetry != nil { executor.onRetry(attempt, err, delay) }] *)
Definition notify_retry (executor : Executor) (attempt : GoInt) (err : option error)
    (delay : Duration) : M unit :=
  fun w =>
    match executor.(onRetry) with
    | Some callback => ((tt, callback attempt err delay w), [EvOnRetry attempt err delay])
    | None => ((tt, w), [])
    end.

(** [select { case <-ctx.Done(): ...; case <-time.After(delay): ... }] *)
Definition wait (ctx : Ctx) (attempt : GoInt) (delay : Duration) : M (option error) :=
  fun w =>
    let '(done, w1) := ctx.(select_Done) delay w in
    ((done, w1), [EvWait attempt delay done]).

(** *** Execute

    The loop [for attempt := 1; attempt <= maxAttempts; attempt++].  The
    recursion is on [fuel], a bound on the number of iterations; [None]
    means that the bound was reached before the loop ended.  The increment
    wraps around like the machine's. *)
Fixpoint attempts (executor : Executor) (ctx : Ctx) (task : Task) (maxAttempts : GoInt)
    (fuel : nat) (attempt : GoInt) (lastResult : Result T)
    : M (option (Result T * option error)) :=
  match fuel with
  | O => ret None
  | S fuel =>
      if attempt <=? maxAttempts then
        let timeout := executor.(timeoutStrategy).(GetTimeout) attempt in
        notify_timeout executor attempt timeout ;;;
        r <- run_task task ctx attempt timeout ;;
        let '(value, err) := r in
        let lastResult := {| Value := value; Error := err; Attempt := attempt |} in
        match err with
        | None => ret (Some (lastResult, None))
        | Some _ =>
            retry <- should_retry executor attempt err ;;
            if negb retry then ret (Some (lastResult, lastResult.(Error)))
            else if attempt <? maxAttempts then
              let delay := executor.(retryStrategy).(GetDelay) attempt in
              notify_retry executor attempt err delay ;;;
              done <- wait ctx attempt delay ;;
              match done with
              | Some ctxErr => ret (Some (set_Error (Some ctxErr) lastResult, Some ctxErr))
              | None => attempts executor ctx task maxAttempts fuel (I64.add attempt 1) lastResult
              end
            else attempts executor ctx task maxAttempts fuel (I64.add attempt 1) lastResult
        end
      else ret (Some (lastResult, lastResult.(Error)))
  end.

Definition Execute `{ZeroValue T} (fuel : nat) (executor : Executor) (ctx : Ctx) (task : Task)
    : M (option (Result T * option error)) :=
  let lastResult := {| Value := zero_value; Error := None; Attempt := 0 |} in
  let maxAttempts := executor.(retryStrategy).(GetMaxAttempts) in
  attempts executor ctx task maxAttempts fuel 1 lastResult.

Definition ExecuteSimple `{ZeroValue T} (fuel : nat) (executor : Executor) (ctx : Ctx)
    (task : Task) : M (option (T * option error)) :=
  r <- Execute fuel executor ctx task ;;
  match r with
  | None => ret None
  | Some (result, err) =>
      match err with
      | Some _ => ret (Some (zero_value, err))
      | None => ret (Some (result.(Value), result.(Error)))
      end
  end.

Definition ExecuteWithTimeout `{Arch} `{ZeroValue T} (fuel : nat) (ctx : Ctx)
    (timeout : Duration) (task : Task) : M (option (T * option error)) :=
  let executor :=
    NewExecutor [ WithRetryStrategy NewNoRetryStrategy;
                  WithTimeoutStrategy (NewFixedTimeoutStrategy timeout) ] in
  ExecuteSimple fuel executor ctx task.

Definition ExecuteWithRetries `{Arch} `{ZeroValue T} (fuel : nat) (ctx : Ctx)
    (maxRetries : GoInt) (delay : Duration) (timeout : Duration) (task : Task)
    : M (option (T * option error)) :=
  let executor :=
    NewExecutor [ WithRetryStrategy (NewFixedDelayStrategy (I64.add maxRetries 1) delay);
                  WithTimeoutStrategy (NewFixedTimeoutStrategy timeout) ] in
  ExecuteSimple fuel executor ctx task.

End Engine.

Arguments Ctx : clear implicits.
Arguments Task : clear implicits.
Arguments Executor : clear implicits.
Arguments M : clear implicits.

(** ** Reading a trace *)

Section Traces.

Context {T : Type}.

(** The task runs of a trace: attempt, value and error of each. *)
Definition task_runs (tr : list (event T)) : list (GoInt * T * option error) :=
  flat_map (fun ev => match ev with EvTask a _ v e => [(a, v, e)] | _ => [] end) tr.

Definition last_task_run (tr : list (event T)) : option (GoInt * T * option error) :=
  last (task_runs tr).

(** The attempts for which [onTimeout] was called. *)
Definition onTimeout_calls (tr : list (event T)) : list GoInt :=
  flat_map (fun ev => match ev with EvOnTimeout a _ => [a] | _ => [] end) tr.

(** The arguments [ShouldRetry] was called with. *)
Definition ShouldRetry_calls (tr : list (event T)) : list (GoInt * option error) :=
  flat_map (fun ev => match ev with EvShouldRetry a e _ => [(a, e)] | _ => [] end) tr.

(** The [onTimeout] calls and the task runs alone, in their order. *)
Inductive mark : Type :=
| CallOnTimeout (attempt : GoInt)
| RunTask (attempt : GoInt).

Definition timeline (tr : list (event T)) : list mark :=
  flat_map (fun ev => match ev with
                      | EvOnTimeout a _ => [CallOnTimeout a]
                      | EvTask a _ _ _ => [RunTask a]
                      | _ => []
                      end) tr.

(** [n] consecutive attempt numbers from [from] on. *)
Fixpoint attempt_range (from : GoInt) (n : nat) : list GoInt :=
  match n with
  | O => []
  | S n => from :: attempt_range (from + 1) n
  end.

(** The attempts 1, 2, ..., k. *)
Definition attempts_upto (k : GoInt) : list GoInt := attempt_range 1 (Z.to_nat k).

(** The invariant the specification gives for [Result]: without an error,
    the last task run succeeded, at attempt [Attempt r] and with value
    [Value r]; with an error, the last task run was attempt [Attempt r]. *)
Definition Result_invariant (tr : list (event T)) (r : Result T) : Prop :=
  match Error r with
  | None => last_task_run tr = Some (Attempt r, Value r, None)
  | Some _ => exists v e, last_task_run tr = Some (Attempt r, v, e)
  end.

End Traces.

(** ** The runs of the attempt loop, as a relation on traces

    [run ex maxAttempts n attempt lastResult r err tr]: the loop, entered
    with the loop variable at [attempt] and the working result [lastResult],
    can return [(r, err)] having produced the events [tr]; it evaluates its
    condition [n] times on the way. *)

Section Runs.

Context {T W : Type}.
Variable executor : Executor W.
Variable maxAttempts : GoInt.

Let timeout_of (attempt : GoInt) : Duration :=
  executor.(timeoutStrategy).(GetTimeout) attempt.
Let delay_of (attempt : GoInt) : Duration :=
  executor.(retryStrategy).(GetDelay) attempt.

Definition onTimeout_events (attempt : GoInt) : list (event T) :=
  match executor.(onTimeout) with
  | Some _ => [EvOnTimeout attempt (timeout_of attempt)]
  | None => []
  end.

Definition onRetry_events (attempt : GoInt) (err : option error) : list (event T) :=
  match executor.(onRetry) with
  | Some _ => [EvOnRetry attempt err (delay_of attempt)]
  | None => []
  end.

(** One attempt that failed with [e] and that the strategy wants retried. *)
Definition failed_attempt (attempt : GoInt) (v : T) (e : error) : list (event T) :=
  onTimeout_events attempt ++
  [EvTask attempt (timeout_of attempt) v (Some e); EvShouldRetry attempt (Some e) true].

Inductive run :
  nat -> GoInt -> Result T -> Result T -> option error -> list (event T) -> Prop :=
| run_done attempt lastResult :
    maxAttempts < attempt ->
    run 1 attempt lastResult lastResult (Error lastResult) []
| run_success attempt lastResult v :
    attempt <= maxAttempts ->
    run 1 attempt lastResult (mkResult v None attempt) None
      (onTimeout_events attempt ++ [EvTask attempt (timeout_of attempt) v None])
| run_refused attempt lastResult v e :
    attempt <= maxAttempts ->
    executor.(retryStrategy).(ShouldRetry) attempt (Some e) = false ->
    run 1 attempt lastResult (mkResult v (Some e) attempt) (Some e)
      (onTimeout_events attempt ++
       [EvTask attempt (timeout_of attempt) v (Some e); EvShouldRetry attempt (Some e) false])
| run_cancelled attempt lastResult v e ctxErr :
    attempt < maxAttempts ->
    executor.(retryStrategy).(ShouldRetry) attempt (Some e) = true ->
    run 1 attempt lastResult (mkResult v (Some ctxErr) attempt) (Some ctxErr)
      (failed_attempt attempt v e ++ onRetry_events attempt (Some e) ++
       [EvWait attempt (delay_of attempt) (Some ctxErr)])
| run_waited n attempt lastResult v e r err tr :
    attempt < maxAttempts ->
    executor.(retryStrategy).(ShouldRetry) attempt (Some e) = true ->
    run n (I64.add attempt 1) (mkResult v (Some e) attempt) r err tr ->
    run (S n) attempt lastResult r err
      (failed_attempt attempt v e ++ onRetry_events attempt (Some e) ++
       EvWait attempt (delay_of attempt) None :: tr)
| run_last n attempt lastResult v e r err tr :
    attempt = maxAttempts ->
    executor.(retryStrategy).(ShouldRetry) attempt (Some e) = true ->
    run n (I64.add attempt 1) (mkResult v (Some e) attempt) r err tr ->
    run (S n) attempt lastResult r err (failed_attempt attempt v e ++ tr).

End Runs.

(** ** Further readings of a trace *)

Section Adjacency.

Context {T : Type}.

(** [each_after P prev tr]: every event of [tr] satisfies [P] together with
    the event just before it ([prev] before the first one). *)
Fixpoint each_after (P : option (event T) -> event T -> Prop)
    (prev : option (event T)) (tr : list (event T)) : Prop :=
  match tr with
  | [] => True
  | ev :: tr' => P prev ev /\ each_after P (Some ev) tr'
  end.

(** A call of [ShouldRetry] comes right after the task run of the same
    attempt, which failed with the error passed to the call. *)
Definition after_failed_task (prev : option (event T)) (ev : event T) : Prop :=
  match ev with
  | EvShouldRetry a err _ =>
      exists t v e, prev = Some (EvTask a t v (Some e)) /\ err = Some e
  | _ => True
  end.

(** The error a run ends with, read from its events: the error of the last
    task run, unless a wait was cancelled after it, which puts the
    context's error in its place.  [init] is the error before any event. *)
Fixpoint final_error (init : option error) (tr : list (event T)) : option error :=
  match tr with
  | [] => init
  | EvTask _ _ _ e :: tr' => final_error e tr'
  | EvWait _ _ (Some ctxErr) :: tr' => final_error (Some ctxErr) tr'
  | _ :: tr' => final_error init tr'
  end.

End Adjacency.

(** ** The statements of the specification that are compared with the code *)

(** The delay of exponential backoff as the specification writes it, over the
    rationals: min(baseDelay × multiplier^(attempt−1), maxDelay). *)
Definition spec_GetDelay (baseDelay : Duration) (multiplier : Q) (maxDelay : Duration)
    (attempt : GoInt) : Q :=
  Qmin (inject_Z baseDelay * multiplier ^ (attempt - 1)) (inject_Z maxDelay).

(** [GetDelay] agrees with the specification's formula at [attempt]. *)
Definition GetDelay_exact `{Arch} (e : ExponentialBackoffStrategy.t) (attempt : GoInt) : Prop :=
  exists m : Q,
    F64.value e.(ExponentialBackoffStrategy.multiplier) = Some m /\
    (inject_Z (ExponentialBackoffStrategy.GetDelay e attempt) ==
     spec_GetDelay e.(ExponentialBackoffStrategy.baseDelay) m
       e.(ExponentialBackoffStrategy.maxDelay) attempt)%Q.

(** The executor the specification composes for fixed-retry execution:
    Executor{RetryStrategy = Fixed delay(maxRetries+1, delay),
    TimeoutStrategy = Fixed(timeout)}, without callbacks. *)
Definition fixed_retry_executor {W : Type} (maxRetries : GoInt) (delay timeout : Duration)
    : Executor W :=
  {| retryStrategy := NewFixedDelayStrategy (I64.add maxRetries 1) delay;
     timeoutStrategy := NewFixedTimeoutStrategy timeout;
     onRetry := None;
     onTimeout := None |}.

(** ** Concrete worlds, contexts and tasks

    The world of these examples counts the task runs so far. *)

(** [context.Background()]: never done. *)
Definition Background : Ctx nat := {| select_Done := fun _ runs => (None, runs) |}.

(** A context that is cancelled during the wait that follows run [k]. *)
Definition cancelled_after (k : nat) : Ctx nat :=
  {| select_Done := fun _ runs =>
       if Nat.eqb runs k then (Some Canceled, runs) else (None, runs) |}.

(** A task that fails until its [k]-th run, which returns 42. *)
Definition succeeds_at (k : nat) : Task Z nat :=
  fun _ _ runs =>
    if Nat.ltb (S runs) k then ((0, Some (errors_New "temporary failure")), S runs)
    else ((42, None), S runs).

(** A task that always fails. *)
Definition always_fails : Task string nat :=
  fun _ _ runs => ((EmptyString, Some (errors_New "persistent failure")), S runs).

(** Callbacks that leave the world alone. *)
Definition quiet_onTimeout : GoInt -> Duration -> nat -> nat := fun _ _ runs => runs.
Definition quiet_onRetry : GoInt -> option error -> Duration -> nat -> nat :=
  fun _ _ _ runs => runs.

(** ** Further readings of a run, and the effects behind its events *)

Section MoreReadings.

Context {T W : Type}.

(** The attempt numbers of the task runs. *)
Definition task_attempts (tr : list (event T)) : list GoInt :=
  map (fun run => fst (fst run)) (task_runs tr).

(** The waits of a trace: attempt and delay of each. *)
Definition waits (tr : list (event T)) : list (GoInt * Duration) :=
  flat_map (fun ev => match ev with EvWait a d _ => [(a, d)] | _ => [] end) tr.

(** The calls of [onRetry]: attempt and delay of each. *)
Definition onRetry_calls (tr : list (event T)) : list (GoInt * Duration) :=
  flat_map (fun ev => match ev with EvOnRetry a _ d => [(a, d)] | _ => [] end) tr.

(** An event carries what the executor's strategies give for its attempt:
    the timeout of [GetTimeout], the delay of [GetDelay], the answer of
    [ShouldRetry]; and it lies within the attempts allowed. *)
Definition follows_strategies (ex : Executor W) (ev : event T) : Prop :=
  let maxAttempts := GetMaxAttempts (retryStrategy ex) in
  match ev with
  | EvOnTimeout a t => t = GetTimeout (timeoutStrategy ex) a /\ a <= maxAttempts
  | EvTask a t _ _ => t = GetTimeout (timeoutStrategy ex) a /\ a <= maxAttempts
  | EvShouldRetry a e answer => answer = ShouldRetry (retryStrategy ex) a e
  | EvOnRetry a _ d => d = GetDelay (retryStrategy ex) a /\ a < maxAttempts
  | EvWait a d _ => d = GetDelay (retryStrategy ex) a /\ a < maxAttempts
  end.

(** With [onRetry] set, each wait is announced: the event before it is the
    [onRetry] call for the same attempt and delay. *)
Definition wait_after_onRetry (prev2 : option (event T)) (ev : event T) : Prop :=
  match ev with
  | EvWait a d _ => exists e, prev2 = Some (EvOnRetry a (Some e) d)
  | EvOnRetry a e d => prev2 = Some (EvShouldRetry a e true)
  | _ => True
  end.

(** Every task run of the trace is a call of [task] under the context
    [ctx]. *)
Definition from_task (ctx : Ctx W) (task : Task T W) (ev : event T) : Prop :=
  match ev with
  | EvTask _ t v e => exists w0 w1, task ctx t w0 = ((v, e), w1)
  | _ => True
  end.

(** The rule of the built-in retry strategies: a failure is retried exactly
    when the attempt is below the ceiling. *)
Definition retries_below_ceiling (rs : RetryStrategy) : Prop :=
  forall (attempt : GoInt) (e : error),
    ShouldRetry rs attempt (Some e) = (attempt <? GetMaxAttempts rs).

(** A task that fails whenever it is run, and a context that is never done. *)
Definition fails_always (task : Task T W) : Prop :=
  forall ctx timeout w, snd (fst (task ctx timeout w)) <> None.

Definition never_done (ctx : Ctx W) : Prop :=
  forall delay w, fst (select_Done ctx delay w) = None.

(** An option that leaves the retry strategy of the executor it is applied
    to as it is. *)
Definition keeps_retryStrategy (option : ExecutorOption (W := W)) : Prop :=
  forall e, retryStrategy (option e) = retryStrategy e.

(** The effects behind a trace.  [performs ex ctx task w tr w']: carrying
    out the events of [tr] in their order takes the world from [w] to [w'],
    where an [onTimeout] or [onRetry] event is the call of the executor's
    callback on the arguments recorded, a task event is the call of [task]
    under the timeout recorded, returning the value and error recorded, and
    a wait is the select on the parent context; [ShouldRetry] has no effect
    on the world. *)
Fixpoint performs (ex : Executor W) (ctx : Ctx W) (task : Task T W)
    (w : W) (tr : list (event T)) (w' : W) : Prop :=
  match tr with
  | [] => w' = w
  | EvOnTimeout a t :: tr =>
      exists callback, onTimeout ex = Some callback /\
        performs ex ctx task (callback a t w) tr w'
  | EvTask a t v e :: tr =>
      exists w1, task ctx t w = ((v, e), w1) /\ performs ex ctx task w1 tr w'
  | EvShouldRetry a e answer :: tr => performs ex ctx task w tr w'
  | EvOnRetry a e d :: tr =>
      exists callback, onRetry ex = Some callback /\
        performs ex ctx task (callback a e d w) tr w'
  | EvWait a d done :: tr =>
      exists w1, select_Done ctx d w = (done, w1) /\ performs ex ctx task w1 tr w'
  end.

End MoreReadings.

(** * The program around the executor

    Configuration (package [config]), the provider interface and the update
    service (package [ddns]), the providers and their factory (package
    [providers]) and the start of [main].  What these packages take from
    outside the repository is kept abstract: a class gathers the library
    calls (files, JSON, number and duration parsing; the HTTP client, URL
    encoding, the clock), and every property holds for all its instances. *)

(** ** Text, time and the environment *)

(** [err.Error()]. *)
Definition Error_text (err : error) : string :=
  match err with
  | errors_New text => text
  | Canceled => "context canceled"
  | DeadlineExceeded => "context deadline exceeded"
  end.

(** [fmt.Errorf(prefix + "%w", err)]: an error whose text is the prefix
    followed by the text of [err]. *)
Definition Errorf_w (prefix : string) (err : error) : error :=
  errors_New (prefix +:+ Error_text err).

(** The verb [%d] of package [fmt] on an int. *)
Definition Sprintf_d (n : GoInt) : string := NilZero.string_of_int (Z.to_int n).

(** A [time.Time], as the nanoseconds since the Unix epoch. *)
Definition Time : Type := Z.
Definition Unix (t : Time) : Z := t / 1000000000.

Definition Minute : Duration := 60 * Second.

#[export] Instance option_zero {A : Type} : ZeroValue (option A) := None.
#[export] Instance unit_zero : ZeroValue unit := tt.

Module os.

(** The environment of the process; [os.Getenv] gives the empty string for
    a variable that is not set. *)
Abbreviation Env := (gmap string string).

Definition Getenv (env : Env) (key : string) : string := default EmptyString (env !! key).

End os.

(** ** Package config (src/config/config.go) *)

Module config.

Module ServerConfig.
Record t : Type := mk {
  Port : GoInt;
  Host : string;
  ReadTimeout : Duration;
  WriteTimeout : Duration
}.
End ServerConfig.

Module DDNSConfig.
Record t : Type := mk {
  Provider : string;
  Domain : string;
  APIKey : string;
  UpdateInterval : Duration
}.
End DDNSConfig.

Module HTTPConfig.
Record t : Type := mk {
  Timeout : Duration;
  MaxRetries : GoInt;
  RetryDelay : Duration;
  UserAgent : string
}.
End HTTPConfig.

Module Config.
Record t : Type := mk {
  Server : ServerConfig.t;
  DDNS : DDNSConfig.t;
  HTTP : HTTPConfig.t
}.

(** [&Config{}] *)
Definition zero : t :=
  {| Server := ServerConfig.mk 0 EmptyString 0 0;
     DDNS := DDNSConfig.mk EmptyString EmptyString EmptyString 0;
     HTTP := HTTPConfig.mk 0 0 0 EmptyString |}.
End Config.

(** The library calls of the package.  [Unmarshal data config] is
    [json.Unmarshal(data, config)]: it gives the struct as the call leaves
    it, which a failed call may have filled in part. *)
Class Library : Type := {
  ReadFile : string -> string + error;
  Unmarshal : string -> Config.t -> Config.t * option error;
  Atoi : string -> option GoInt;
  ParseDuration : string -> option Duration
}.

Section Load.

Context `{Library}.

Definition getEnv (env : os.Env) (key fallback : string) : string :=
  let value := os.Getenv env key in
  if negb (String.eqb value EmptyString) then value else fallback.

Definition getEnvAsInt (env : os.Env) (key : string) (fallback : GoInt) : GoInt :=
  let value := os.Getenv env key in
  if negb (String.eqb value EmptyString) then
    match Atoi value with
    | Some intVal => intVal
    | None => fallback
    end
  else fallback.

Definition getEnvAsDuration (env : os.Env) (key : string) (fallback : Duration) : Duration :=
  let value := os.Getenv env key in
  if negb (String.eqb value EmptyString) then
    match ParseDuration value with
    | Some duration => duration
    | None => fallback
    end
  else fallback.

Definition getConfigPath (env : os.Env) : string :=
  let configPath := os.Getenv env "CONFIG_PATH" in
  if negb (String.eqb configPath EmptyString) then configPath else "config.json".

Definition loadFromJSON (env : os.Env) (config : Config.t) : Config.t * option error :=
  let configPath := getConfigPath env in
  match ReadFile configPath with
  | inr err =>
      (config, Some (Errorf_w ("failed to read config file " +:+ configPath +:+ ": ") err))
  | inl data =>
      let '(config, err) := Unmarshal data config in
      match err with
      | Some err =>
          (config, Some (Errorf_w ("failed to parse config file " +:+ configPath +:+ ": ") err))
      | None => (config, None)
      end
  end.

(** The three assignments [config.Server = ...], [config.DDNS = ...],
    [config.HTTP = ...]: no field of [config] keeps its value. *)
Definition loadFromEnvironment (env : os.Env) (config : Config.t) : Config.t :=
  {| Config.Server :=
       {| ServerConfig.Port := getEnvAsInt env "SERVER_PORT" 8080;
          ServerConfig.Host := getEnv env "SERVER_HOST" "localhost";
          ServerConfig.ReadTimeout := getEnvAsDuration env "SERVER_READ_TIMEOUT" (30 * Second);
          ServerConfig.WriteTimeout := getEnvAsDuration env "SERVER_WRITE_TIMEOUT" (30 * Second) |};
     Config.DDNS :=
       {| DDNSConfig.Provider := getEnv env "DDNS_PROVIDER" "duckdns";
          DDNSConfig.Domain := getEnv env "DDNS_DOMAIN" "";
          DDNSConfig.APIKey := getEnv env "DDNS_API_KEY" "";
          DDNSConfig.UpdateInterval := getEnvAsDuration env "DDNS_UPDATE_INTERVAL" (5 * Minute) |};
     Config.HTTP :=
       {| HTTPConfig.Timeout := getEnvAsDuration env "HTTP_TIMEOUT" (30 * Second);
          HTTPConfig.MaxRetries := getEnvAsInt env "HTTP_MAX_RETRIES" 3;
          HTTPConfig.RetryDelay := getEnvAsDuration env "HTTP_RETRY_DELAY" (1 * Second);
          HTTPConfig.UserAgent := getEnv env "HTTP_USER_AGENT" "ddns-client/1.0" |} |}.

Definition Validate (c : Config.t) : option error :=
  if String.eqb c.(Config.DDNS).(DDNSConfig.Domain) EmptyString then
    Some (errors_New "DDNS domain is required")
  else if String.eqb c.(Config.DDNS).(DDNSConfig.APIKey) EmptyString then
    Some (errors_New "DDNS API key is required")
  else if (c.(Config.Server).(ServerConfig.Port) <? 1)
          || (c.(Config.Server).(ServerConfig.Port) >? 65535) then
    Some (errors_New ("server port must be between 1 and 65535, got "
                      +:+ Sprintf_d c.(Config.Server).(ServerConfig.Port)))
  else if c.(Config.HTTP).(HTTPConfig.MaxRetries) <? 0 then
    Some (errors_New ("HTTP max retries cannot be negative, got "
                      +:+ Sprintf_d c.(Config.HTTP).(HTTPConfig.MaxRetries)))
  else None.

(** [Load] returns the configuration, or the error with a nil pointer. *)
Definition Load (env : os.Env) : Config.t + error :=
  let config := Config.zero in
  let '(config, err) := loadFromJSON env config in
  let config :=
    match err with
    | Some _ => loadFromEnvironment env config
    | None => config
    end in
  match Validate config with
  | Some err => inr (Errorf_w "config validation failed: " err)
  | None => inl config
  end.

End Load.

End config.

(** ** Package ddns (src/ddns/service.go, src/ddns/ip.go) *)

Module http.

Definition StatusOK : GoInt := 200.

(** The request as far as the program sets it: method, URL and the
    User-Agent header. *)
Record Request : Type := mkRequest {
  Method : string;
  URL : string;
  UserAgent : string
}.

(** [req.Header.Set("User-Agent", value)] *)
Definition set_UserAgent (value : string) (req : Request) : Request :=
  {| Method := req.(Method); URL := req.(URL); UserAgent := value |}.

Record Response (ReadCloser : Type) : Type := mkResponse {
  StatusCode : GoInt;
  Status : string;
  Body : ReadCloser
}.

Arguments mkResponse {ReadCloser}.
Arguments StatusCode {ReadCloser}.
Arguments Status {ReadCloser}.
Arguments Body {ReadCloser}.

End http.

(** The network and the libraries used with it, over the world [W] of the
    executor.  [Do] is [client.Do] on a request made under the task's
    context, given by the parent context and the attempt's timeout;
    [Encode] is [url.Values.Encode] on the values set. *)
Class Net (W : Type) : Type := {
  ReadCloser : Type;
  NewRequestWithContext : string -> string -> http.Request + error;
  Do : Ctx W -> Duration -> http.Request -> W -> (http.Response ReadCloser + error) * W;
  ReadAll : ReadCloser -> W -> (string + error) * W;
  Close : ReadCloser -> W -> W;
  Encode : gmap string (list string) -> string;
  TrimSpace : string -> string;
  Unmarshal_IPResponse : string -> string * option error
}.

(** [time.Now()] *)
Class Clock (W : Type) : Type := { Now : W -> Time * W }.

Module ddns.

Module UpdateRequest.
Record t : Type := mk {
  Domain : string;
  RecordType : string;
  Value : string;
  TTL : GoInt
}.
End UpdateRequest.

Module UpdateResponse.
Record t : Type := mk {
  Success : bool;
  Message : string;
  RecordID : string;
  UpdatedAt : Time
}.
End UpdateResponse.

Module Config.
Record t : Type := mk {
  Provider : string;
  APIKey : string;
  Domain : string;
  TTL : GoInt;
  RecordType : string;
  UpdateInterval : Duration
}.
End Config.

(** A call on the world: [None] when the call does not return within the
    bound given to the executor under it. *)
Definition Call (W A : Type) : Type := W -> option (A * W).

(** The interfaces, as the method sets bound to their receivers. *)
Record Provider (W : Type) : Type := mkProvider {
  UpdateRecord : Ctx W -> UpdateRequest.t -> Call W (option UpdateResponse.t * option error);
  GetCurrentRecord : Ctx W -> string -> string -> Call W (string * option error);
  ValidateCredentials : Ctx W -> Call W (option error);
  GetProviderName : W -> string
}.

Arguments mkProvider {W}.
Arguments UpdateRecord {W}.
Arguments GetCurrentRecord {W}.
Arguments ValidateCredentials {W}.
Arguments GetProviderName {W}.

Record IPDetector (W : Type) : Type := mkIPDetector {
  GetPublicIP : Ctx W -> Call W (string * option error)
}.

Arguments mkIPDetector {W}.
Arguments GetPublicIP {W}.

Record Service (W : Type) : Type := mkService {
  provider : Provider W;
  config : Config.t;
  ipDetector : IPDetector W
}.

Arguments mkService {W}.
Arguments provider {W}.
Arguments config {W}.
Arguments ipDetector {W}.

Section IP.

Context {W : Type} `{Arch} `{Net W}.

(** The closure [ipTask] of [getIPFromHTTPBin].  The deferred
    [resp.Body.Close()] runs on every return after [client.Do] gave a
    response. *)
Definition ipTask : Task string W :=
  fun taskCtx timeout w =>
    match NewRequestWithContext "GET" "https://httpbin.org/ip" with
    | inr err => ((EmptyString, Some (Errorf_w "failed to create request: " err)), w)
    | inl req =>
        let req := http.set_UserAgent "ddns-client/1.0" req in
        let '(r, w) := Do taskCtx timeout req w in
        match r with
        | inr err => ((EmptyString, Some (Errorf_w "request failed: " err)), w)
        | inl resp =>
            if negb (resp.(http.StatusCode) =? http.StatusOK) then
              ((EmptyString,
                Some (errors_New ("HTTP " +:+ Sprintf_d resp.(http.StatusCode) +:+ ": "
                                  +:+ resp.(http.Status)))),
               Close resp.(http.Body) w)
            else
              let '(r, w) := ReadAll resp.(http.Body) w in
              match r with
              | inr err =>
                  ((EmptyString, Some (Errorf_w "failed to read response: " err)),
                   Close resp.(http.Body) w)
              | inl body =>
                  let '(Origin, err) := Unmarshal_IPResponse body in
                  match err with
                  | Some err =>
                      ((EmptyString, Some (Errorf_w "failed to parse response: " err)),
                       Close resp.(http.Body) w)
                  | None =>
                      if String.eqb Origin EmptyString then
                        ((EmptyString, Some (errors_New "no IP address in response")),
                         Close resp.(http.Body) w)
                      else ((Origin, None), Close resp.(http.Body) w)
                  end
              end
        end
    end.

Definition getIPFromHTTPBin (fuel : nat) (ctx : Ctx W) : M string W (option (string * option error)) :=
  let exec :=
    NewExecutor [ WithRetryStrategy (NewExponentialBackoffStrategy 3 Second 2);
                  WithTimeoutStrategy (NewFixedTimeoutStrategy (10 * Second)) ] in
  ExecuteSimple fuel exec ctx ipTask.

Definition getCurrentPublicIPFromService (fuel : nat) (ctx : Ctx W)
    : M string W (option (string * option error)) :=
  getIPFromHTTPBin fuel ctx.

(** The result of an executor call as a [Call]: the events are dropped. *)
Definition returned {T A : Type} (m : M T W (option A)) : Call W A :=
  fun w =>
    match m w with
    | ((Some a, w), _) => Some (a, w)
    | ((None, _), _) => None
    end.

(** [HTTPIPDetector.GetPublicIP] *)
Definition HTTPIPDetector (fuel : nat) : IPDetector W :=
  {| GetPublicIP := fun ctx => returned (getCurrentPublicIPFromService fuel ctx) |}.

End IP.

Section Service.

Context {W : Type} `{Arch} `{Net W} `{Clock W}.

Definition NewServiceWithIPDetector (provider : Provider W) (config : Config.t)
    (ipDetector : IPDetector W) : Service W :=
  {| provider := provider; config := config; ipDetector := ipDetector |}.

Definition NewService (fuel : nat) (provider : Provider W) (config : Config.t) : Service W :=
  NewServiceWithIPDetector provider config (HTTPIPDetector fuel).

Definition UpdateIP (s : Service W) (ctx : Ctx W)
    : Call W (option UpdateResponse.t * option error) :=
  fun w =>
    match s.(ipDetector).(GetPublicIP) ctx w with
    | None => None
    | Some ((currentIP, Some err), w) => Some ((None, Some err), w)
    | Some ((currentIP, None), w) =>
        match s.(provider).(GetCurrentRecord) ctx s.(config).(Config.Domain)
                s.(config).(Config.RecordType) w with
        | None => None
        | Some ((existingRecord, err), w) =>
            if negb (notNil err) && String.eqb existingRecord currentIP then
              let '(now, w) := Now w in
              Some ((Some {| UpdateResponse.Success := true;
                             UpdateResponse.Message := "Record already up to date";
                             UpdateResponse.RecordID := EmptyString;
                             UpdateResponse.UpdatedAt := now |}, None), w)
            else
              let req :=
                {| UpdateRequest.Domain := s.(config).(Config.Domain);
                   UpdateRequest.RecordType := s.(config).(Config.RecordType);
                   UpdateRequest.Value := currentIP;
                   UpdateRequest.TTL := s.(config).(Config.TTL) |} in
              s.(provider).(UpdateRecord) ctx req w
        end
    end.

Definition Validate (s : Service W) (ctx : Ctx W) : Call W (option error) :=
  s.(provider).(ValidateCredentials) ctx.

Definition GetProvider (s : Service W) : Provider W := s.(provider).

End Service.

End ddns.

(** ** Package providers (src/providers/mock.go, src/providers/factory.go,
    and the DuckDNS provider) *)

(** A pointer to a struct of type [A] that lives in the world. *)
Record Pointer (W A : Type) : Type := mkPointer {
  load : W -> A;
  store : A -> W -> W
}.

Arguments mkPointer {W A}.
Arguments load {W A}.
Arguments store {W A}.

Module providers.

Module MockProvider.

Record t : Type := mk {
  name : string;
  records : gmap string string;
  shouldFail : bool;
  validateResult : option error
}.

Definition set_records (records : gmap string string) (m : t) : t :=
  {| name := m.(name); records := records;
     shouldFail := m.(shouldFail); validateResult := m.(validateResult) |}.

(** [fmt.Sprintf("%s:%s", domain, recordType)] *)
Definition key (domain recordType : string) : string := domain +:+ ":" +:+ recordType.

Definition set_shouldFail (shouldFail : bool) (m : t) : t :=
  {| name := m.(name); records := m.(records);
     shouldFail := shouldFail; validateResult := m.(validateResult) |}.

Definition set_validateResult (err : option error) (m : t) : t :=
  {| name := m.(name); records := m.(records);
     shouldFail := m.(shouldFail); validateResult := err |}.

(** The methods that only read the struct, on the struct the receiver
    points to. *)
Definition GetCurrentRecord (m : t) (domain recordType : string) : string * option error :=
  if m.(shouldFail) then
    (EmptyString, Some (errors_New "mock provider configured to fail"))
  else
    match m.(records) !! key domain recordType with
    | Some value => (value, None)
    | None => (EmptyString, Some (errors_New "record not found"))
    end.

Definition ValidateCredentials (m : t) : option error :=
  match m.(validateResult) with
  | Some err => Some err
  | None =>
      if m.(shouldFail) then Some (errors_New "mock validation failed")
      else None
  end.

Definition GetProviderName (m : t) : string := "mock-" +:+ m.(name).

Definition GetRecords (m : t) : gmap string string := m.(records).

(** The methods that assign to the struct, on the pointer. *)
Definition WithFailure {W : Type} (p : Pointer W t) (shouldFail : bool) (w : W) : W :=
  store p (set_shouldFail shouldFail (load p w)) w.

Definition WithValidationError {W : Type} (p : Pointer W t) (err : option error) (w : W) : W :=
  store p (set_validateResult err (load p w)) w.

Definition SetRecord {W : Type} (p : Pointer W t) (domain recordType value : string) (w : W)
    : W :=
  let key := key domain recordType in
  store p (set_records (<[key := value]> (load p w).(records)) (load p w)) w.

Definition UpdateRecord {W : Type} `{Clock W} (p : Pointer W t) (ctx : Ctx W)
    (req : ddns.UpdateRequest.t)
    : ddns.Call W (option ddns.UpdateResponse.t * option error) :=
  fun w =>
    if (load p w).(shouldFail) then
      Some ((None, Some (errors_New "mock provider configured to fail")), w)
    else
      let key := key req.(ddns.UpdateRequest.Domain) req.(ddns.UpdateRequest.RecordType) in
      let w :=
        store p (set_records (<[key := req.(ddns.UpdateRequest.Value)]> (load p w).(records))
                   (load p w)) w in
      let '(now1, w) := Now w in
      let '(now2, w) := Now w in
      Some ((Some {| ddns.UpdateResponse.Success := true;
                     ddns.UpdateResponse.Message :=
                       "Mock update successful for " +:+ req.(ddns.UpdateRequest.Domain);
                     ddns.UpdateResponse.RecordID := "mock-record-" +:+ Sprintf_d (Unix now1);
                     ddns.UpdateResponse.UpdatedAt := now2 |}, None), w).

(** The pointer [*MockProvider] as a [ddns.Provider]. *)
Definition iface {W : Type} `{Clock W} (p : Pointer W t) : ddns.Provider W :=
  {| ddns.UpdateRecord := UpdateRecord p;
     ddns.GetCurrentRecord := fun ctx domain recordType w =>
       Some (GetCurrentRecord (load p w) domain recordType, w);
     ddns.ValidateCredentials := fun ctx w => Some (ValidateCredentials (load p w), w);
     ddns.GetProviderName := fun w => GetProviderName (load p w) |}.

End MockProvider.

Definition NewMockProvider (name : string) : MockProvider.t :=
  {| MockProvider.name := name; MockProvider.records := ∅;
     MockProvider.shouldFail := false; MockProvider.validateResult := None |}.

Module DuckDNSConfig.
Record t : Type := mk { Token : string }.
End DuckDNSConfig.

Module DuckDNSProvider.

(** The field [httpClient] is [&http.Client{}], the default client, whose
    requests are [Do] of the class [Net]. *)
Record t (W : Type) : Type := mk {
  token : string;
  executor : Executor W
}.

Arguments mk {W}.
Arguments token {W}.
Arguments executor {W}.

Section Methods.

Context {W : Type} `{Net W} `{Clock W}.

(** The closure [task] of [UpdateRecord]. *)
Definition UpdateRecord_task (d : t W) (req : ddns.UpdateRequest.t)
    : Task (option ddns.UpdateResponse.t) W :=
  fun taskCtx timeout w =>
    let baseURL := "https://www.duckdns.org/update" in
    let params : gmap string (list string) := ∅ in
    let params := <["domains" := [req.(ddns.UpdateRequest.Domain)]]> params in
    let params := <["token" := [d.(token)]]> params in
    let params := <["ip" := [req.(ddns.UpdateRequest.Value)]]> params in
    let updateURL := baseURL +:+ "?" +:+ Encode params in
    match NewRequestWithContext "GET" updateURL with
    | inr err => ((None, Some (Errorf_w "failed to create request: " err)), w)
    | inl httpReq =>
        let httpReq := http.set_UserAgent "ddns-client/1.0" httpReq in
        let '(r, w) := Do taskCtx timeout httpReq w in
        match r with
        | inr err => ((None, Some (Errorf_w "request failed: " err)), w)
        | inl resp =>
            let '(r, w) := ReadAll resp.(http.Body) w in
            match r with
            | inr err =>
                ((None, Some (Errorf_w "failed to read response: " err)),
                 Close resp.(http.Body) w)
            | inl body =>
                let responseText := TrimSpace body in
                if String.eqb responseText "OK" then
                  let '(now, w) := Now w in
                  ((Some {| ddns.UpdateResponse.Success := true;
                            ddns.UpdateResponse.Message :=
                              "DuckDNS record updated successfully";
                            ddns.UpdateResponse.RecordID := req.(ddns.UpdateRequest.Domain);
                            ddns.UpdateResponse.UpdatedAt := now |}, None),
                   Close resp.(http.Body) w)
                else if String.eqb responseText "KO" then
                  ((None, Some (errors_New "DuckDNS update failed: invalid token or domain")),
                   Close resp.(http.Body) w)
                else
                  ((None, Some (errors_New ("unexpected DuckDNS response: " +:+ responseText))),
                   Close resp.(http.Body) w)
            end
        end
    end.

Definition UpdateRecord (fuel : nat) (d : t W) (ctx : Ctx W) (req : ddns.UpdateRequest.t)
    : M (option ddns.UpdateResponse.t) W
        (option (option ddns.UpdateResponse.t * option error)) :=
  ExecuteSimple fuel d.(executor) ctx (UpdateRecord_task d req).

Definition GetCurrentRecord (d : t W) (ctx : Ctx W) (domain recordType : string)
    : string * option error :=
  (EmptyString, Some (errors_New "DuckDNS does not support querying current records")).

(** The closure [task] of [ValidateCredentials]; its value, of type
    [interface{}], is always nil. *)
Definition ValidateCredentials_task (d : t W) : Task unit W :=
  fun taskCtx timeout w =>
    let baseURL := "https://www.duckdns.org/update" in
    let params : gmap string (list string) := ∅ in
    let params := <["domains" := ["test"]]> params in
    let params := <["token" := [d.(token)]]> params in
    let params := <["verbose" := ["true"]]> params in
    let validateURL := baseURL +:+ "?" +:+ Encode params in
    match NewRequestWithContext "GET" validateURL with
    | inr err => ((tt, Some err), w)
    | inl req =>
        let req := http.set_UserAgent "ddns-client/1.0" req in
        let '(r, w) := Do taskCtx timeout req w in
        match r with
        | inr err => ((tt, Some (Errorf_w "validation request failed: " err)), w)
        | inl resp =>
            if resp.(http.StatusCode) =? http.StatusOK then
              ((tt, None), Close resp.(http.Body) w)
            else
              ((tt, Some (errors_New ("DuckDNS service returned status: "
                                      +:+ resp.(http.Status)))),
               Close resp.(http.Body) w)
        end
    end.

Definition ValidateCredentials (fuel : nat) (d : t W) (ctx : Ctx W)
    : M unit W (option (option error)) :=
  fun w =>
    let '((r, w), tr) := ExecuteSimple fuel d.(executor) ctx (ValidateCredentials_task d) w in
    ((option_map snd r, w), tr).

Definition GetProviderName (d : t W) : string := "duckdns".

(** The pointer [*DuckDNSProvider] as a [ddns.Provider]; no method assigns
    to the struct. *)
Definition iface (fuel : nat) (d : t W) : ddns.Provider W :=
  {| ddns.UpdateRecord := fun ctx req => ddns.returned (UpdateRecord fuel d ctx req);
     ddns.GetCurrentRecord := fun ctx domain recordType w =>
       Some (GetCurrentRecord d ctx domain recordType, w);
     ddns.ValidateCredentials := fun ctx => ddns.returned (ValidateCredentials fuel d ctx);
     ddns.GetProviderName := fun _ => GetProviderName d |}.

End Methods.

End DuckDNSProvider.

Definition NewDuckDNSProvider {W : Type} `{Arch} (config : DuckDNSConfig.t)
    : DuckDNSProvider.t W :=
  let exec :=
    NewExecutor [ WithRetryStrategy (NewExponentialBackoffStrategy 3 Second 2);
                  WithTimeoutStrategy (NewFixedTimeoutStrategy (30 * Second)) ] in
  {| DuckDNSProvider.token := config.(DuckDNSConfig.Token);
     DuckDNSProvider.executor := exec |}.

(** The value of the interface [ddns.Provider] that the factory returns: one
    of the two implementations. *)
Inductive Implementation (W : Type) : Type :=
| OfDuckDNS (d : DuckDNSProvider.t W)
| OfMock (m : MockProvider.t).

Arguments OfDuckDNS {W}.
Arguments OfMock {W}.

Definition GetProviderName {W : Type} (p : Implementation W) : string :=
  match p with
  | OfDuckDNS d => "duckdns"
  | OfMock m => MockProvider.GetProviderName m
  end.

Definition CreateProvider {W : Type} `{Arch} (config : ddns.Config.t)
    : Implementation W + error :=
  if String.eqb config.(ddns.Config.Provider) "duckdns" then
    if String.eqb config.(ddns.Config.APIKey) EmptyString then
      inr (errors_New "duckdns provider requires API key (token)")
    else
      let duckConfig := {| DuckDNSConfig.Token := config.(ddns.Config.APIKey) |} in
      inl (OfDuckDNS (NewDuckDNSProvider duckConfig))
  else if String.eqb config.(ddns.Config.Provider) "mock" then
    inl (OfMock (NewMockProvider "test"))
  else
    inr (errors_New ("unsupported DDNS provider: " +:+ config.(ddns.Config.Provider))).

Definition GetSupportedProviders : list string := ["duckdns"; "mock"].

Definition ValidateProviderConfig (config : ddns.Config.t) : option error :=
  if String.eqb config.(ddns.Config.Provider) "duckdns" then
    if String.eqb config.(ddns.Config.APIKey) EmptyString then
      Some (errors_New "duckdns provider requires API key (token)")
    else None
  else if String.eqb config.(ddns.Config.Provider) "mock" then None
  else
    Some (errors_New ("unsupported DDNS provider: " +:+ config.(ddns.Config.Provider))).

End providers.

(** ** The start of main (src/main.go) *)

Module main.

(** [log.Fatalf] prints its message and ends the process. *)
Inductive exit (A : Type) : Type :=
| Returns (a : A)
| Fatal (message : string).

Arguments Returns {A}.
Arguments Fatal {A}.

(** The log lines of a successful load are left out. *)
Definition loadAndValidateConfig `{config.Library} (env : os.Env) : exit config.Config.t :=
  match config.Load env with
  | inr err => Fatal ("Failed to load configuration: " +:+ Error_text err)
  | inl cfg =>
      match config.Validate cfg with
      | Some err => Fatal ("Configuration validation failed: " +:+ Error_text err)
      | None => Returns cfg
      end
  end.

(** The struct [ddnsConfig] of [setupDDNSService]. *)
Definition ddnsConfig (cfg : config.Config.t) : ddns.Config.t :=
  {| ddns.Config.Provider := cfg.(config.Config.DDNS).(config.DDNSConfig.Provider);
     ddns.Config.APIKey := cfg.(config.Config.DDNS).(config.DDNSConfig.APIKey);
     ddns.Config.Domain := cfg.(config.Config.DDNS).(config.DDNSConfig.Domain);
     ddns.Config.TTL := 300;
     ddns.Config.RecordType := "A";
     ddns.Config.UpdateInterval := 0 |}.

(** [setupDDNSService] up to the creation of the provider. *)
Definition createProvider {W : Type} `{Arch} (cfg : config.Config.t)
    : exit (providers.Implementation W) :=
  match providers.CreateProvider (ddnsConfig cfg) with
  | inr err => Fatal ("Failed to create provider: " +:+ Error_text err)
  | inl provider => Returns provider
  end.

End main.

(** ** Readings used by the properties of the providers *)

(** A pointer gives back the struct stored through it, and reading the
    clock leaves that struct as it is. *)
Definition sound_pointer {W A : Type} `{Clock W} (p : Pointer W A) : Prop :=
  (forall a w, load p (store p a w) = a) /\
  (forall w, load p (snd (Now w)) = load p w).

(** A detector that finds [ip] in every world and leaves what [p] points to
    as it is. *)
Definition detects {W A : Type} (detector : ddns.IPDetector W) (ctx : Ctx W) (ip : string)
    (p : Pointer W A) : Prop :=
  forall w, exists w1,
    ddns.GetPublicIP detector ctx w = Some ((ip, None), w1) /\ load p w1 = load p w.

(** The DuckDNS server answers over the network [N]: a request can be made
    for every URL, is answered, and the body reads as [body]. *)
Definition server_answers {W : Type} `{Net W} (body : string) : Prop :=
  (forall method url, exists req, NewRequestWithContext method url = inl req) /\
  (forall taskCtx timeout req w, exists resp w1,
      Do taskCtx timeout req w = (inl resp, w1) /\
      forall w2, exists w3, ReadAll resp.(http.Body) w2 = (inl body, w3)).

(** The timeout of every task run of a trace. *)
Definition task_timeouts {T : Type} (tr : list (event T)) : list Duration :=
  flat_map (fun ev => match ev with EvTask _ t _ _ => [t] | _ => [] end) tr.

(** ** Doubles for the examples

    A library without a configuration file, one with a file that parses to
    the struct it is given, a clock that ticks at each reading, a server
    that answers every request alike, and a mock provider beside a clock. *)

Definition decimal (s : string) : option GoInt := option_map Z.of_int (NilZero.int_of_string s).

Definition no_config_file : config.Library :=
  {| config.ReadFile := fun _ => inr (errors_New "no such file or directory");
     config.Unmarshal := fun _ config => (config, None);
     config.Atoi := decimal;
     config.ParseDuration := fun s => option_map (fun n => n * Second) (decimal s) |}.

Definition empty_config_file : config.Library :=
  {| config.ReadFile := fun _ => inl "{}"%string;
     config.Unmarshal := fun _ config => (config, None);
     config.Atoi := decimal;
     config.ParseDuration := fun s => option_map (fun n => n * Second) (decimal s) |}.

#[export] Instance ticking_clock : Clock nat := {| Now := fun w => (Z.of_nat w, S w) |}.

(** A server that answers every request with the status 200 and the body
    [body]; the world counts the requests. *)
Definition answers (body : string) : Net nat :=
  {| ReadCloser := unit;
     NewRequestWithContext := fun method url => inl (http.mkRequest method url EmptyString);
     Do := fun _ _ _ w => (inl (http.mkResponse 200 "200 OK" tt), S w);
     ReadAll := fun _ w => (inl body, w);
     Close := fun _ w => w;
     Encode := fun _ => EmptyString;
     TrimSpace := fun s => s;
     Unmarshal_IPResponse := fun body => (body, None) |}.

(** A world that holds a mock provider and counts the clock readings. *)
Definition mock_pointer : Pointer (providers.MockProvider.t * nat) providers.MockProvider.t :=
  {| load := fst; store := fun m w => (m, snd w) |}.

#[export] Instance mock_clock : Clock (providers.MockProvider.t * nat) :=
  {| Now := fun w => (Z.of_nat (snd w), (fst w, S (snd w))) |}.

(** [context.Background()] in that world. *)
Definition Background_mock : Ctx (providers.MockProvider.t * nat) :=
  {| select_Done := fun _ w => (None, w) |}.

(** A world that is the journal of what was done to it: the callbacks, the
    task and the select on the context each add their entry. *)
Inductive entry : Type :=
| CalledOnTimeout (attempt : GoInt) (timeout : Duration)
| CalledOnRetry (attempt : GoInt) (err : option error) (delay : Duration)
| RanTask (timeout : Duration)
| Waited (delay : Duration).

Definition journal_onTimeout : GoInt -> Duration -> list entry -> list entry :=
  fun attempt timeout journal => journal ++ [CalledOnTimeout attempt timeout].

Definition journal_onRetry : GoInt -> option error -> Duration -> list entry -> list entry :=
  fun attempt err delay journal => journal ++ [CalledOnRetry attempt err delay].

Definition journal_Background : Ctx (list entry) :=
  {| select_Done := fun delay journal => (None, journal ++ [Waited delay]) |}.

Definition is_RanTask (e : entry) : bool :=
  match e with RanTask _ => true | _ => false end.

(** A task that fails until its [k]-th run, which returns 42. *)
Definition journal_task (k : nat) : Task Z (list entry) :=
  fun _ timeout journal =>
    if Nat.ltb (S (length (filter is_RanTask journal))) k then
      ((0, Some (errors_New "temporary failure")), journal ++ [RanTask timeout])
    else ((42, None), journal ++ [RanTask timeout]).

(** An executor with both callbacks writing to the journal, and the run of
    [journal_task 2] under it: the events, and the journal at the end. *)
Definition journal_executor : Executor (list entry) :=
  NewExecutor (H := amd64)
    [WithRetryStrategy (NewFixedDelayStrategy 3 Millisecond);
     WithRetryCallback (Some journal_onRetry);
     WithTimeoutCallback (Some journal_onTimeout)].

Definition journal_events : list (event Z) :=
  [EvOnTimeout 1 (30 * Second);
   EvTask 1 (30 * Second) 0 (Some (errors_New "temporary failure"));
   EvShouldRetry 1 (Some (errors_New "temporary failure")) true;
   EvOnRetry 1 (Some (errors_New "temporary failure")) Millisecond;
   EvWait 1 Millisecond None;
   EvOnTimeout 2 (30 * Second);
   EvTask 2 (30 * Second) 42 None].

Definition journal_end : list entry :=
  [CalledOnTimeout 1 (30 * Second);
   RanTask (30 * Second);
   CalledOnRetry 1 (Some (errors_New "temporary failure")) Millisecond;
   Waited Millisecond;
   CalledOnTimeout 2 (30 * Second);
   RanTask (30 * Second)].

(** What the journal shows of the callbacks: the attempts [onTimeout] was
    called for, and the attempt and delay of each [onRetry] call. *)
Definition journal_onTimeout_seen (journal : list entry) : list GoInt :=
  flat_map (fun e => match e with CalledOnTimeout a _ => [a] | _ => [] end) journal.

Definition journal_onRetry_seen (journal : list entry) : list (GoInt * Duration) :=
  flat_map (fun e => match e with CalledOnRetry a _ d => [(a, d)] | _ => [] end) journal.

(** A network whose world is the journal of its operations, and that
    answers every request with the status 200 and the body [body]. *)
Inductive net_entry : Type :=
| Requested (url : string)
| ReadBody
| ClosedBody.

Definition journal_net (body : string) : Net (list net_entry) :=
  {| ReadCloser := unit;
     NewRequestWithContext := fun method url => inl (http.mkRequest method url EmptyString);
     Do := fun _ _ req journal =>
       (inl (http.mkResponse 200 "200 OK" tt), journal ++ [Requested req.(http.URL)]);
     ReadAll := fun _ journal => (inl body, journal ++ [ReadBody]);
     Close := fun _ journal => journal ++ [ClosedBody];
     Encode := fun _ => EmptyString;
     TrimSpace := fun s => s;
     Unmarshal_IPResponse := fun body => (body, None) |}.

Definition journal_net_Background : Ctx (list net_entry) :=
  {| select_Done := fun _ journal => (None, journal) |}.


(** * Properties *)

(** ** Machine integers *)

Lemma wrap_in_range (z : Z) : I64.min_int <= z <= I64.max_int -> I64.wrap z = z.
Proof.
  unfold I64.wrap, I64.min_int, I64.max_int. intros Hz.
  rewrite Z.mod_small by lia. lia.
Qed.

Lemma wrap_range (z : Z) : I64.min_int <= I64.wrap z <= I64.max_int.
Proof.
  unfold I64.wrap, I64.min_int, I64.max_int.
  pose proof (Z.mod_pos_bound (z + 2 ^ 63) (2 ^ 64)). lia.
Qed.

Lemma add_1_no_wrap (a : GoInt) :
  I64.min_int <= a -> a < I64.max_int -> I64.add a 1 = a + 1.
Proof. intros Hlo Hhi. unfold I64.add. apply wrap_in_range. lia. Qed.

(** ** The loop and its runs *)

Section LoopFacts.

Context {T W : Type}.
Implicit Types (ex : Executor W) (ctx : Ctx W) (task : Task T W).

Lemma notify_timeout_events ex a w u w1 tr1 :
  notify_timeout ex a (GetTimeout (timeoutStrategy ex) a) w = ((u, w1), tr1) ->
  tr1 = @onTimeout_events T W ex a.
Proof.
  unfold notify_timeout, onTimeout_events.
  destruct (onTimeout ex); now intros [= <- <- <-].
Qed.

Lemma notify_retry_events ex a e w u w1 tr1 :
  notify_retry ex a e (GetDelay (retryStrategy ex) a) w = ((u, w1), tr1) ->
  tr1 = @onRetry_events T W ex a e.
Proof.
  unfold notify_retry, onRetry_events.
  destruct (onRetry ex); now intros [= <- <- <-].
Qed.

(** Every result of the loop function is a run of the relation, of no
    more iterations than the fuel. *)
Lemma attempts_run ex ctx task maxA fuel :
  forall a lastR w r err w' tr,
    attempts ex ctx task maxA fuel a lastR w = ((Some (r, err), w'), tr) ->
    exists n, (n <= fuel)%nat /\ run ex maxA n a lastR r err tr.
Proof.
  induction fuel as [|fuel IH]; intros a lastR w r err w' tr; cbn [attempts].
  - discriminate.
  - destruct (Z.leb_spec a maxA) as [Hle|Hgt].
    2:{ unfold ret. intros [= <- <- <- <-]. exists 1%nat. split; [lia|now constructor]. }
    unfold bind.
    destruct (notify_timeout ex a _ w) as [[u w1] tr1] eqn:Hnt.
    apply notify_timeout_events in Hnt as ->.
    unfold run_task.
    destruct (task ctx _ w1) as [[v [e|]] w2].
    2:{ unfold ret. intros [= <- <- <- <-]. rewrite ?app_nil_r.
        exists 1%nat. split; [lia|now apply run_success]. }
    unfold should_retry.
    destruct (ShouldRetry (retryStrategy ex) a (Some e)) eqn:Hsr; cbn [negb].
    2:{ unfold ret. intros [= <- <- <- <-]. cbn.
        exists 1%nat. split; [lia|now apply run_refused]. }
    destruct (Z.ltb_spec a maxA) as [Hlt|Hge].
    + destruct (notify_retry ex a _ _ w2) as [[u' w3] tr3] eqn:Hnr.
      apply notify_retry_events in Hnr as ->.
      unfold wait.
      destruct (select_Done ctx _ w3) as [[ctxErr|] w4].
      * unfold ret. intros [= <- <- <- <-].
        pose proof (run_cancelled ex maxA a lastR v e ctxErr Hlt Hsr) as R.
        unfold failed_attempt in R. rewrite <- app_assoc in R.
        cbn [app set_Error Value Error Attempt] in *. rewrite ?app_nil_r.
        exists 1%nat. split; [lia|exact R].
      * destruct (attempts ex ctx task maxA fuel (I64.add a 1) _ w4)
          as [[[[r' e']|] w5] tr5] eqn:Hrec; [|discriminate].
        apply IH in Hrec as (n & Hn & Hrec). intros [= <- <- <- <-].
        pose proof (run_waited ex maxA n a lastR v e r' e' tr5 Hlt Hsr Hrec) as R.
        unfold failed_attempt in R. rewrite <- app_assoc in R.
        cbn [app] in *. exists (S n). split; [lia|exact R].
    + assert (a = maxA) as Heq by lia.
      destruct (attempts ex ctx task maxA fuel (I64.add a 1) _ w2)
        as [[[[r' e']|] w5] tr5] eqn:Hrec; [|discriminate].
      apply IH in Hrec as (n & Hn & Hrec). intros [= <- <- <- <-].
      pose proof (run_last ex maxA n a lastR v e r' e' tr5 Heq Hsr Hrec) as R.
      unfold failed_attempt in R. rewrite <- app_assoc in R.
      cbn [app] in *. exists (S n). split; [lia|exact R].
Qed.

Lemma Execute_run `{ZeroValue T} fuel ex ctx task w r err w' tr :
  Execute fuel ex ctx task w = ((Some (r, err), w'), tr) ->
  exists n, (n <= fuel)%nat /\
    run ex (GetMaxAttempts (retryStrategy ex)) n 1
      {| Value := zero_value; Error := None; Attempt := 0 |} r err tr.
Proof. unfold Execute. apply attempts_run. Qed.

(** More fuel does not change a result. *)
Lemma attempts_fuel_S ex ctx task maxA fuel :
  forall a lastR w out w' tr,
    attempts ex ctx task maxA fuel a lastR w = ((Some out, w'), tr) ->
    attempts ex ctx task maxA (S fuel) a lastR w = ((Some out, w'), tr).
Proof.
  induction fuel as [|fuel IH]; intros a lastR w out w' tr.
  - discriminate.
  - intros Hrun. cbn [attempts] in Hrun.
    remember (S fuel) as n eqn:Hn. cbn [attempts]. subst n.
    revert Hrun.
    destruct (a <=? maxA); [|trivial].
    unfold bind.
    destruct (notify_timeout ex a _ w) as [[u w1] tr1].
    destruct (run_task task ctx a _ w1) as [[[v [e|]] w2] tr2]; [|trivial].
    destruct (should_retry ex a (Some e) w2) as [[[|] w3] tr3]; cbn [negb]; [|trivial].
    destruct (a <? maxA).
    + destruct (notify_retry ex a _ _ w3) as [[u' w4] tr4].
      destruct (wait ctx a _ w4) as [[[ctxErr|] w5] tr5]; [trivial|].
      destruct (attempts ex ctx task maxA fuel (I64.add a 1) _ w5)
        as [[[out'|] w6] tr6] eqn:Hrec; [|discriminate].
      now rewrite (IH _ _ _ _ _ _ Hrec).
    + destruct (attempts ex ctx task maxA fuel (I64.add a 1) _ w3)
        as [[[out'|] w6] tr6] eqn:Hrec; [|discriminate].
      now rewrite (IH _ _ _ _ _ _ Hrec).
Qed.

Lemma attempts_fuel_mono ex ctx task maxA fuel fuel' a lastR w out w' tr :
  (fuel <= fuel')%nat ->
  attempts ex ctx task maxA fuel a lastR w = ((Some out, w'), tr) ->
  attempts ex ctx task maxA fuel' a lastR w = ((Some out, w'), tr).
Proof.
  induction 1 as [|fuel' _ IH]; [trivial|].
  intros Hrun. now apply attempts_fuel_S, IH.
Qed.

(** The loop ends within [maxAttempts - attempt + 1] iterations when the
    increment of the loop variable cannot wrap. *)
Lemma attempts_total ex ctx task maxA :
  maxA < I64.max_int ->
  forall n a lastR w,
    I64.min_int <= a ->
    maxA - a + 1 <= Z.of_nat n ->
    exists out w' tr, attempts ex ctx task maxA (S n) a lastR w = ((Some out, w'), tr).
Proof.
  intros Hmax. induction n as [|n IH]; intros a lastR w Hlo Hn.
  - cbn [attempts]. destruct (Z.leb_spec a maxA); [lia|].
    unfold ret. eauto.
  - remember (S n) as m eqn:Hm. cbn [attempts]. subst m.
    destruct (Z.leb_spec a maxA) as [Hle|Hgt]; [|unfold ret; eauto].
    unfold bind.
    destruct (notify_timeout ex a _ w) as [[u w1] tr1].
    destruct (run_task task ctx a _ w1) as [[[v [e|]] w2] tr2]; [|unfold ret; eauto].
    destruct (should_retry ex a (Some e) w2) as [[[|] w3] tr3]; cbn [negb];
      [|unfold ret; eauto].
    assert (Hnext : maxA - I64.add a 1 + 1 <= Z.of_nat n)
      by (rewrite add_1_no_wrap; lia).
    assert (Hlo' : I64.min_int <= I64.add a 1) by apply wrap_range.
    destruct (a <? maxA).
    + destruct (notify_retry ex a _ _ w3) as [[u' w4] tr4].
      destruct (wait ctx a _ w4) as [[[ctxErr|] w5] tr5]; [unfold ret; eauto|].
      destruct (IH (I64.add a 1) {| Value := v; Error := Some e; Attempt := a |} w5 Hlo' Hnext)
        as (out & w' & tr & ->). eauto.
    + destruct (IH (I64.add a 1) {| Value := v; Error := Some e; Attempt := a |} w3 Hlo' Hnext)
        as (out & w' & tr & ->). eauto.
Qed.

(** [Execute] returns: with [GetMaxAttempts() + 1] units of fuel (one when
    that is negative) the loop has ended. *)
Lemma Execute_total `{ZeroValue T} ex ctx task w :
  GetMaxAttempts (retryStrategy ex) < I64.max_int ->
  exists r err w' tr,
    Execute (S (Z.to_nat (GetMaxAttempts (retryStrategy ex)))) ex ctx task w
    = ((Some (r, err), w'), tr).
Proof.
  intros Hmax. unfold Execute.
  destruct (attempts_total ex ctx task _ Hmax
              (Z.to_nat (GetMaxAttempts (retryStrategy ex))) 1
              {| Value := zero_value; Error := None; Attempt := 0 |} w)
    as ([r err] & w' & tr & Hrun).
  - unfold I64.min_int. lia.
  - lia.
  - eauto.
Qed.

End LoopFacts.

(** ** The events are the effects

    What the loop records is what it does: the world it returns is the one
    reached by carrying out the recorded events in their order, each
    callback event being a call of the callback on the recorded arguments. *)

Section EffectFacts.

Context {T W : Type}.
Implicit Types (ex : Executor W) (ctx : Ctx W) (task : Task T W).

Lemma performs_app ex ctx task tr1 : forall w w1 tr2 w2,
  performs ex ctx task w tr1 w1 ->
  performs ex ctx task w1 tr2 w2 ->
  performs ex ctx task w (tr1 ++ tr2) w2.
Proof.
  induction tr1 as [|ev tr1 IH]; intros w w1 tr2 w2; cbn [performs app].
  - now intros ->.
  - destruct ev as [a t | a t v e | a e answer | a e d | a d done].
    + intros (callback & Hcb & H1) H2. exists callback. split; [exact Hcb|]. eauto.
    + intros (w0 & Htask & H1) H2. exists w0. split; [exact Htask|]. eauto.
    + intros H1 H2. eauto.
    + intros (callback & Hcb & H1) H2. exists callback. split; [exact Hcb|]. eauto.
    + intros (w0 & Hsel & H1) H2. exists w0. split; [exact Hsel|]. eauto.
Qed.

Lemma notify_timeout_performs ex ctx task a t w u w1 tr1 :
  notify_timeout (T := T) ex a t w = ((u, w1), tr1) ->
  performs ex ctx task w tr1 w1.
Proof.
  unfold notify_timeout. destruct (onTimeout ex) as [callback|] eqn:Hcb.
  - intros [= <- <- <-]. cbn. exists callback. auto.
  - intros [= <- <- <-]. reflexivity.
Qed.

Lemma notify_retry_performs ex ctx task a e d w u w1 tr1 :
  notify_retry (T := T) ex a e d w = ((u, w1), tr1) ->
  performs ex ctx task w tr1 w1.
Proof.
  unfold notify_retry. destruct (onRetry ex) as [callback|] eqn:Hcb.
  - intros [= <- <- <-]. cbn. exists callback. auto.
  - intros [= <- <- <-]. reflexivity.
Qed.

(** Whatever the outcome, the loop has done what it recorded. *)
Lemma attempts_performs ex ctx task maxA fuel :
  forall a lastR w out w' tr,
    attempts ex ctx task maxA fuel a lastR w = ((out, w'), tr) ->
    performs ex ctx task w tr w'.
Proof.
  induction fuel as [|fuel IH]; intros a lastR w out w' tr; cbn [attempts].
  - unfold ret. intros [= <- <- <-]. reflexivity.
  - destruct (a <=? maxA).
    2:{ unfold ret. intros [= <- <- <-]. reflexivity. }
    unfold bind.
    destruct (notify_timeout ex a _ w) as [[u w1] tr1] eqn:Hnt.
    apply (notify_timeout_performs ex ctx task) in Hnt.
    unfold run_task.
    destruct (task ctx _ w1) as [[v e] w2] eqn:Htask.
    destruct e as [e|].
    2:{ unfold ret. intros [= <- <- <-].
        eapply performs_app; [exact Hnt|]. cbn. eauto. }
    unfold should_retry.
    destruct (ShouldRetry (retryStrategy ex) a (Some e)); cbn [negb].
    2:{ unfold ret. intros [= <- <- <-].
        eapply performs_app; [exact Hnt|]. cbn. eauto. }
    destruct (a <? maxA).
    + destruct (notify_retry ex a _ _ w2) as [[u' w3] tr3] eqn:Hnr.
      apply (notify_retry_performs ex ctx task) in Hnr.
      unfold wait.
      destruct (select_Done ctx _ w3) as [[ctxErr|] w4] eqn:Hsel.
      * unfold ret. intros [= <- <- <-].
        eapply performs_app; [exact Hnt|]. cbn [app performs].
        exists w2. split; [exact Htask|].
        eapply performs_app; [exact Hnr|]. cbn. eauto.
      * destruct (attempts ex ctx task maxA fuel (I64.add a 1) _ w4)
          as [[out' w5] tr5] eqn:Hrec.
        apply IH in Hrec. intros [= <- <- <-].
        eapply performs_app; [exact Hnt|]. cbn [app performs].
        exists w2. split; [exact Htask|].
        eapply performs_app; [exact Hnr|]. cbn [app performs]. eauto.
    + destruct (attempts ex ctx task maxA fuel (I64.add a 1) _ w2)
        as [[out' w5] tr5] eqn:Hrec.
      apply IH in Hrec. intros [= <- <- <-].
      eapply performs_app; [exact Hnt|]. cbn [app performs]. eauto.
Qed.

(** What an observer of the [onTimeout] calls has seen: when each call
    adds its attempt to what [seen] reads off the world, and nothing else
    changes that, it is the attempts of the [onTimeout] events. *)
Lemma performs_onTimeout_seen (seen : W -> list GoInt) ex ctx task :
  (forall callback, onTimeout ex = Some callback ->
     forall a t w0, seen (callback a t w0) = seen w0 ++ [a]) ->
  (forall t w0, seen (snd (task ctx t w0)) = seen w0) ->
  (forall d w0, seen (snd (select_Done ctx d w0)) = seen w0) ->
  (forall callback, onRetry ex = Some callback ->
     forall a e d w0, seen (callback a e d w0) = seen w0) ->
  forall tr w w',
    performs ex ctx task w tr w' -> seen w' = seen w ++ onTimeout_calls tr.
Proof.
  intros Hcall Htask Hsel Hretry.
  induction tr as [|ev tr IH]; intros w w'; cbn [performs].
  - intros ->. cbn. now rewrite app_nil_r.
  - destruct ev as [a t | a t v e | a e answer | a e d | a d done].
    + intros (callback & Hcb & Hrest). apply IH in Hrest.
      rewrite Hrest, (Hcall callback Hcb). cbn. now rewrite <- app_assoc.
    + intros (w1 & Hrun & Hrest). apply IH in Hrest.
      rewrite Hrest. specialize (Htask t w). now rewrite Hrun in Htask; cbn in Htask; rewrite Htask.
    + intros Hrest. now apply IH in Hrest.
    + intros (callback & Hcb & Hrest). apply IH in Hrest.
      now rewrite Hrest, (Hretry callback Hcb).
    + intros (w1 & Hwait & Hrest). apply IH in Hrest.
      rewrite Hrest. specialize (Hsel d w). now rewrite Hwait in Hsel; cbn in Hsel; rewrite Hsel.
Qed.

(** The same for an observer of the [onRetry] calls, which sees the attempt
    and the delay of each. *)
Lemma performs_onRetry_seen (seen : W -> list (GoInt * Duration)) ex ctx task :
  (forall callback, onRetry ex = Some callback ->
     forall a e d w0, seen (callback a e d w0) = seen w0 ++ [(a, d)]) ->
  (forall t w0, seen (snd (task ctx t w0)) = seen w0) ->
  (forall d w0, seen (snd (select_Done ctx d w0)) = seen w0) ->
  (forall callback, onTimeout ex = Some callback ->
     forall a t w0, seen (callback a t w0) = seen w0) ->
  forall tr w w',
    performs ex ctx task w tr w' -> seen w' = seen w ++ onRetry_calls tr.
Proof.
  intros Hcall Htask Hsel Htimeout.
  induction tr as [|ev tr IH]; intros w w'; cbn [performs].
  - intros ->. cbn. now rewrite app_nil_r.
  - destruct ev as [a t | a t v e | a e answer | a e d | a d done].
    + intros (callback & Hcb & Hrest). apply IH in Hrest.
      now rewrite Hrest, (Htimeout callback Hcb).
    + intros (w1 & Hrun & Hrest). apply IH in Hrest.
      rewrite Hrest. specialize (Htask t w). now rewrite Hrun in Htask; cbn in Htask; rewrite Htask.
    + intros Hrest. now apply IH in Hrest.
    + intros (callback & Hcb & Hrest). apply IH in Hrest.
      rewrite Hrest, (Hcall callback Hcb). cbn. now rewrite <- app_assoc.
    + intros (w1 & Hwait & Hrest). apply IH in Hrest.
      rewrite Hrest. specialize (Hsel d w). now rewrite Hwait in Hsel; cbn in Hsel; rewrite Hsel.
Qed.

Lemma Execute_performs `{ZeroValue T} fuel ex ctx task w out w' tr :
  Execute fuel ex ctx task w = ((out, w'), tr) ->
  performs ex ctx task w tr w'.
Proof. unfold Execute. apply attempts_performs. Qed.

End EffectFacts.


(** ** Lists of events *)

Section TraceFacts.

Context {T : Type}.
Implicit Types (tr pre post : list (event T)) (ev : event T).

Lemma task_runs_app tr1 tr2 : task_runs (tr1 ++ tr2) = task_runs tr1 ++ task_runs tr2.
Proof. apply flat_map_app. Qed.

Lemma timeline_app tr1 tr2 : timeline (tr1 ++ tr2) = timeline tr1 ++ timeline tr2.
Proof. apply flat_map_app. Qed.

Lemma onTimeout_calls_app tr1 tr2 :
  onTimeout_calls (tr1 ++ tr2) = onTimeout_calls tr1 ++ onTimeout_calls tr2.
Proof. apply flat_map_app. Qed.

Lemma length_attempt_range from n : length (attempt_range from n) = n.
Proof. revert from. induction n as [|n IH]; intros from; cbn; [|rewrite IH]; trivial. Qed.

Lemma in_ShouldRetry_calls tr a e :
  In (a, e) (ShouldRetry_calls tr) ->
  exists pre answer post, tr = pre ++ EvShouldRetry a e answer :: post.
Proof.
  unfold ShouldRetry_calls. rewrite in_flat_map. intros (ev & Hin & Hev).
  destruct ev; cbn in Hev; try contradiction.
  destruct Hev as [[= <- <-]|[]].
  apply in_split in Hin as (pre & post & ->). eauto.
Qed.

(** An event that does not occur in the first part of a trace occurs in
    the second. *)
Lemma split_after_prefix ev tr1 : forall tr2 pre post,
  ~ In ev tr1 ->
  tr1 ++ tr2 = pre ++ ev :: post ->
  exists pre', pre = tr1 ++ pre' /\ tr2 = pre' ++ ev :: post.
Proof.
  induction tr1 as [|x tr1 IH]; intros tr2 pre post Hnotin Heq.
  - exists pre. auto.
  - destruct pre as [|p pre]; cbn in Heq; injection Heq as Hhead Htail.
    + exfalso. apply Hnotin. left. exact Hhead.
    + destruct (IH tr2 pre post) as (pre' & -> & ->); [|exact Htail|].
      * intros Hin. apply Hnotin. now right.
      * exists pre'. now subst.
Qed.

Lemma each_after_at (P : option (event T) -> event T -> Prop) pre : forall prev ev post,
  each_after P prev (pre ++ ev :: post) ->
  P (match last pre with Some x => Some x | None => prev end) ev.
Proof.
  induction pre as [|x pre IH]; intros prev ev post; cbn [app each_after].
  - now intros [Hev _].
  - intros [_ Hrest]. apply IH in Hrest.
    destruct pre as [|y pre']; [exact Hrest|].
    change (last (x :: y :: pre')) with (last (y :: pre')).
    destruct (last (y :: pre')) eqn:Hl; [exact Hrest|].
    apply last_None in Hl. discriminate.
Qed.

End TraceFacts.

(** ** What every run satisfies *)

Section RunFacts.

Context {T W : Type}.
Variable ex : Executor W.
Variable maxA : GoInt.

Ltac callbacks :=
  unfold failed_attempt, onTimeout_events, onRetry_events in *;
  destruct (onTimeout ex); destruct (onRetry ex).

Lemma run_error n a lastR r err tr :
  run (T := T) ex maxA n a lastR r err tr ->
  err = Error r /\ Error r = final_error (Error lastR) tr.
Proof.
  induction 1 as [a lastR _ | a lastR v _ | a lastR v e _ _ | a lastR v e ctxErr _ _
                 | n a lastR v e r err tr _ _ _ [IH1 IH2] | n a lastR v e r err tr _ _ _ [IH1 IH2]].
  1: now split.
  1-3: callbacks; now split.
  all: split; [exact IH1|]; rewrite IH2; callbacks; reflexivity.
Qed.

Lemma run_ShouldRetry n a lastR r err tr :
  run (T := T) ex maxA n a lastR r err tr ->
  forall prev, each_after after_failed_task prev tr.
Proof.
  induction 1 as [a lastR _ | a lastR v _ | a lastR v e _ _ | a lastR v e ctxErr _ _
                 | n a lastR v e r err tr _ _ _ IH | n a lastR v e r err tr _ _ _ IH];
    intros prev.
  1: exact I.
  1-3: callbacks; cbn; repeat split; eauto.
  all: callbacks; cbn; repeat split; eauto.
Qed.

Lemma no_cancelled_wait_in_failed_attempt a v e a' d c :
  ~ In (EvWait a' d (Some c)) (failed_attempt (T := T) ex a v e).
Proof. callbacks; cbn; intuition discriminate. Qed.

Lemma no_cancelled_wait_in_onRetry a e a' d c :
  ~ In (EvWait a' d (Some c)) (onRetry_events (T := T) ex a e).
Proof. callbacks; cbn; intuition discriminate. Qed.

Lemma no_cancelled_wait_in_onTimeout a a' d c :
  ~ In (EvWait a' d (Some c)) (onTimeout_events (T := T) ex a).
Proof. callbacks; cbn; intuition discriminate. Qed.

Lemma run_cancelled_wait n a lastR r err tr :
  run (T := T) ex maxA n a lastR r err tr ->
  forall pre a' d c post,
    tr = pre ++ EvWait a' d (Some c) :: post ->
    post = [] /\ Error r = Some c /\ err = Some c /\ Attempt r = a' /\
    exists pre0 t e,
      pre = pre0 ++ EvTask a' t (Value r) (Some e) :: EvShouldRetry a' (Some e) true
                 :: onRetry_events ex a' (Some e).
Proof.
  induction 1 as [a lastR _ | a lastR v _ | a lastR v e _ _ | a lastR v e ctxErr _ _
                 | n a lastR v e r err tr _ _ _ IH | n a lastR v e r err tr _ _ _ IH];
    intros pre a' d c post Heq.
  - now destruct pre.
  - exfalso.
    apply split_after_prefix in Heq as (pre' & _ & Heq);
      [|apply no_cancelled_wait_in_onTimeout].
    destruct pre' as [|? [|? ?]]; discriminate.
  - exfalso.
    apply split_after_prefix in Heq as (pre' & _ & Heq);
      [|apply no_cancelled_wait_in_onTimeout].
    destruct pre' as [|? [|? [|? ?]]]; discriminate.
  - apply split_after_prefix in Heq as (pre1 & -> & Heq);
      [|apply no_cancelled_wait_in_failed_attempt].
    apply split_after_prefix in Heq as (pre2 & -> & Heq);
      [|apply no_cancelled_wait_in_onRetry].
    destruct pre2 as [|? [|? ?]]; try discriminate.
    injection Heq as <- <- <- <-. cbn [Value Error Attempt].
    repeat split; trivial.
    exists (onTimeout_events ex a), (GetTimeout (timeoutStrategy ex) a), e.
    unfold failed_attempt. now rewrite <- !app_assoc, app_nil_r.
  - apply split_after_prefix in Heq as (pre1 & -> & Heq);
      [|apply no_cancelled_wait_in_failed_attempt].
    apply split_after_prefix in Heq as (pre2 & -> & Heq);
      [|apply no_cancelled_wait_in_onRetry].
    destruct pre2 as [|x pre2]; [discriminate|].
    injection Heq as <- Heq.
    destruct (IH _ _ _ _ _ Heq) as (Hpost & Herr & Herr' & Hatt & pre0 & t & e0 & ->).
    repeat split; trivial.
    exists (failed_attempt ex a v e ++ onRetry_events ex a (Some e) ++
            EvWait a (GetDelay (retryStrategy ex) a) None :: pre0), t, e0.
    now rewrite <- !app_assoc.
  - apply split_after_prefix in Heq as (pre1 & -> & Heq);
      [|apply no_cancelled_wait_in_failed_attempt].
    destruct (IH _ _ _ _ _ Heq) as (Hpost & Herr & Herr' & Hatt & pre0 & t & e0 & ->).
    repeat split; trivial.
    exists (failed_attempt ex a v e ++ pre0), t, e0.
    now rewrite <- !app_assoc.
Qed.

End RunFacts.

Section RunCounts.

Context {T W : Type}.
Variable ex : Executor W.
Variable maxA : GoInt.

Ltac callbacks :=
  unfold failed_attempt, onTimeout_events, onRetry_events in *;
  destruct (onTimeout ex); destruct (onRetry ex).

Lemma task_runs_onTimeout a : task_runs (onTimeout_events (T := T) ex a) = [].
Proof. callbacks; reflexivity. Qed.

Lemma task_runs_onRetry a e : task_runs (onRetry_events (T := T) ex a e) = [].
Proof. callbacks; reflexivity. Qed.

Lemma task_runs_failed_attempt a (v : T) e :
  task_runs (failed_attempt ex a v e) = [(a, v, Some e)].
Proof. callbacks; reflexivity. Qed.

(** The invariant of [Result] goes through the loop: it holds of the
    result returned if it holds of the working result whenever the loop
    is entered with no attempt left. *)
Lemma run_Result_invariant n a lastR r err tr :
  run (T := T) ex maxA n a lastR r err tr ->
  forall tr0,
    (maxA < a -> Result_invariant tr0 lastR) ->
    Result_invariant (tr0 ++ tr) r.
Proof.
  induction 1 as [a lastR Hgt | a lastR v _ | a lastR v e _ _ | a lastR v e ctxErr _ _
                 | n a lastR v e r err tr _ _ _ IH | n a lastR v e r err tr _ _ _ IH];
    intros tr0 Hinit.
  - rewrite app_nil_r. auto.
  - unfold Result_invariant, last_task_run. cbn [Error Value Attempt].
    rewrite !task_runs_app, task_runs_onTimeout. cbn. apply last_snoc.
  - unfold Result_invariant, last_task_run. cbn [Error Value Attempt].
    rewrite !task_runs_app, task_runs_onTimeout. cbn. eexists _, _. apply last_snoc.
  - unfold Result_invariant, last_task_run. cbn [Error Value Attempt].
    rewrite !task_runs_app, task_runs_failed_attempt, task_runs_onRetry. cbn.
    eexists _, _. apply last_snoc.
  - replace (tr0 ++ failed_attempt ex a v e ++ onRetry_events ex a (Some e) ++
             EvWait a (GetDelay (retryStrategy ex) a) None :: tr)
      with ((tr0 ++ failed_attempt ex a v e ++ onRetry_events ex a (Some e) ++
             [EvWait a (GetDelay (retryStrategy ex) a) None]) ++ tr)
      by now rewrite <- !app_assoc.
    apply IH. intros _.
    unfold Result_invariant, last_task_run. cbn [Error Value Attempt].
    rewrite !task_runs_app, task_runs_failed_attempt, task_runs_onRetry. cbn.
    eexists _, _. apply last_snoc.
  - rewrite app_assoc. apply IH. intros _.
    unfold Result_invariant, last_task_run. cbn [Error Value Attempt].
    rewrite !task_runs_app, task_runs_failed_attempt.
    eexists _, _. apply last_snoc.
Qed.

Lemma run_positive n a lastR r err tr :
  run (T := T) ex maxA n a lastR r err tr -> (1 <= n)%nat.
Proof. destruct 1; lia. Qed.

(** With [onTimeout] set, a run that starts at [attempt] calls it for
    [attempt], [attempt + 1], ..., each call right before the task run of
    that attempt, up to the attempt of the result, as long as the run is
    short enough for the loop variable not to wrap. *)
Lemma run_onTimeout callback n a lastR r err tr :
  onTimeout ex = Some callback ->
  run (T := T) ex maxA n a lastR r err tr ->
  I64.min_int <= a ->
  a + Z.of_nat n <= I64.max_int + 1 ->
  Attempt lastR = a - 1 ->
  exists k : nat,
    timeline tr = flat_map (fun i => [CallOnTimeout i; RunTask i]) (attempt_range a k) /\
    onTimeout_calls tr = attempt_range a k /\
    Attempt r = a - 1 + Z.of_nat k.
Proof.
  intros Hcb.
  induction 1 as [a lastR Hgt | a lastR v _ | a lastR v e _ _ | a lastR v e ctxErr _ _
                 | n a lastR v e r err tr Hlt _ Hrec IH | n a lastR v e r err tr Heq _ Hrec IH];
    intros Hlo Hshort Hlast.
  - exists 0%nat. cbn. repeat split; lia.
  - exists 1%nat. unfold onTimeout_events. rewrite Hcb. cbn. repeat split; lia.
  - exists 1%nat. unfold onTimeout_events. rewrite Hcb. cbn. repeat split; lia.
  - exists 1%nat. unfold failed_attempt, onTimeout_events, onRetry_events. rewrite Hcb.
    destruct (onRetry ex); cbn; repeat split; lia.
  - apply run_positive in Hrec.
    rewrite add_1_no_wrap in IH by lia.
    destruct IH as (k & Htl & Hcalls & Hatt); [lia|lia|cbn; lia|].
    exists (S k). unfold failed_attempt, onTimeout_events, onRetry_events. rewrite Hcb.
    change (EvWait a (GetDelay (retryStrategy ex) a) None :: tr)
      with ([EvWait a (GetDelay (retryStrategy ex) a) None] ++ tr).
    rewrite !timeline_app, !onTimeout_calls_app, Htl, Hcalls.
    destruct (onRetry ex); cbn; repeat split; lia.
  - apply run_positive in Hrec.
    rewrite add_1_no_wrap in IH by lia.
    destruct IH as (k & Htl & Hcalls & Hatt); [lia|lia|cbn; lia|].
    exists (S k). unfold failed_attempt, onTimeout_events. rewrite Hcb.
    rewrite !timeline_app, !onTimeout_calls_app, Htl, Hcalls.
    cbn; repeat split; lia.
Qed.

End RunCounts.

(** ** The claims about [Execute] *)

(** C1.  When the retry strategy reports [GetMaxAttempts() <= 0], [Execute]
    runs the task zero times: the loop body is never entered (no event is
    recorded and the world is untouched) and the call returns the
    zero-valued Result (zero value, nil error, attempt 0) together with a
    nil error. *)
Theorem Execute_without_attempts {T W : Type} `{ZeroValue T}
    (fuel : nat) (ex : Executor W) (ctx : Ctx W) (task : Task T W) (w : W) :
  GetMaxAttempts (retryStrategy ex) <= 0 ->
  Execute (S fuel) ex ctx task w
  = ((Some ({| Value := zero_value; Error := None; Attempt := 0 |}, None), w), []).
Proof.
  intros Hmax. unfold Execute. cbn [attempts].
  destruct (Z.leb_spec 1 (GetMaxAttempts (retryStrategy ex))); [lia|reflexivity].
Qed.

Lemma Execute_without_attempts_witness :
  GetMaxAttempts (NewFixedDelayStrategy 0 (10 * Millisecond)) <= 0 /\
  Execute 1 (NewExecutor (H := amd64)
               [WithRetryStrategy (NewFixedDelayStrategy 0 (10 * Millisecond))])
    Background always_fails 0%nat
  = ((Some ({| Value := EmptyString; Error := None; Attempt := 0 |}, None), 0%nat), []).
Proof.
  split.
  - simpl. lia.
  - apply (Execute_without_attempts (T := string) 0
             (NewExecutor (H := amd64)
                [WithRetryStrategy (NewFixedDelayStrategy 0 (10 * Millisecond))])
             Background always_fails 0%nat).
    simpl. lia.
Defined.

(** C2, as the specification states it, fails: under a strategy with
    [GetMaxAttempts() = 0] the Result has no error although no task run
    succeeded. *)
Lemma Result_invariant_fails_without_attempts :
  exists r err w' tr,
    Execute 1 (NewExecutor (H := amd64)
                 [WithRetryStrategy (NewFixedDelayStrategy 0 (10 * Millisecond))])
      Background always_fails 0%nat = ((Some (r, err), w'), tr) /\
    ~ Result_invariant tr r.
Proof.
  eexists _, _, _, _. split; [reflexivity|].
  unfold Result_invariant. cbn. discriminate.
Qed.

(** C2, amended.  For every invocation of [Execute] whose retry strategy
    reports [GetMaxAttempts() >= 1], the returned Result satisfies the
    invariant: if its error is nil, the last task run succeeded, its output
    is the Result's value and its attempt number the Result's attempt; if
    its error is set, the Result's attempt is the number of the last attempt
    that ran. *)
Theorem Execute_Result_invariant {T W : Type} `{ZeroValue T}
    (fuel : nat) (ex : Executor W) (ctx : Ctx W) (task : Task T W) (w : W)
    (r : Result T) (err : option error) (w' : W) (tr : list (event T)) :
  1 <= GetMaxAttempts (retryStrategy ex) ->
  Execute fuel ex ctx task w = ((Some (r, err), w'), tr) ->
  Result_invariant tr r.
Proof.
  intros Hmax Hrun. apply Execute_run in Hrun as (n & _ & Hrun).
  apply (run_Result_invariant _ _ _ _ _ _ _ _ Hrun []). lia.
Qed.

Lemma Execute_Result_invariant_witness :
  1 <= GetMaxAttempts (NewFixedDelayStrategy 3 (10 * Millisecond)) /\
  Execute 3 (NewExecutor (H := amd64)
               [WithRetryStrategy (NewFixedDelayStrategy 3 (10 * Millisecond))])
    Background (succeeds_at 2) 0%nat
  = ((Some ({| Value := 42; Error := None; Attempt := 2 |}, None), 2%nat),
     [EvTask 1 (30 * Second) 0 (Some (errors_New "temporary failure"));
      EvShouldRetry 1 (Some (errors_New "temporary failure")) true;
      EvWait 1 (10 * Millisecond) None;
      EvTask 2 (30 * Second) 42 None]) /\
  Result_invariant
    [EvTask 1 (30 * Second) 0 (Some (errors_New "temporary failure"));
     EvShouldRetry 1 (Some (errors_New "temporary failure")) true;
     EvWait 1 (10 * Millisecond) None;
     EvTask 2 (30 * Second) 42 None]
    {| Value := 42; Error := None; Attempt := 2 |}.
Proof.
  split; [simpl; lia|]. split; [reflexivity|].
  apply (Execute_Result_invariant 3
           (NewExecutor (H := amd64)
              [WithRetryStrategy (NewFixedDelayStrategy 3 (10 * Millisecond))])
           Background (succeeds_at 2) 0%nat _ None 2%nat).
  - simpl. lia.
  - reflexivity.
Defined.

(** C6.  If the parent context is cancelled while [Execute] waits between
    two attempts (the select after attempt [attempt] chooses [ctx.Done()],
    [ctxErr] being [ctx.Err()]), nothing happens afterwards: no further
    attempt starts, and the Result returned carries attempt [attempt], its
    value, and [ctxErr] in place of the error [e] that this attempt had
    failed with; the bare error is [ctxErr] too. *)
Theorem cancellation_during_wait {T W : Type} `{ZeroValue T}
    (fuel : nat) (ex : Executor W) (ctx : Ctx W) (task : Task T W) (w : W)
    (r : Result T) (err : option error) (w' : W) (tr : list (event T))
    (pre post : list (event T)) (attempt : GoInt) (delay : Duration) (ctxErr : error) :
  Execute fuel ex ctx task w = ((Some (r, err), w'), tr) ->
  tr = pre ++ EvWait attempt delay (Some ctxErr) :: post ->
  post = [] /\
  Error r = Some ctxErr /\
  err = Some ctxErr /\
  Attempt r = attempt /\
  exists pre0 t e,
    pre = pre0 ++ EvTask attempt t (Value r) (Some e)
               :: EvShouldRetry attempt (Some e) true
               :: onRetry_events ex attempt (Some e).
Proof.
  intros Hrun Htr. apply Execute_run in Hrun as (n & _ & Hrun).
  exact (run_cancelled_wait _ _ _ _ _ _ _ _ Hrun _ _ _ _ _ Htr).
Qed.

Lemma cancellation_during_wait_witness :
  Execute 4 (NewExecutor (H := amd64)
               [WithRetryStrategy (NewFixedDelayStrategy 3 (10 * Millisecond))])
    (cancelled_after 2) always_fails 0%nat
  = ((Some ({| Value := EmptyString; Error := Some Canceled; Attempt := 2 |}, Some Canceled),
      2%nat),
     [EvTask 1 (30 * Second) EmptyString (Some (errors_New "persistent failure"));
      EvShouldRetry 1 (Some (errors_New "persistent failure")) true;
      EvWait 1 (10 * Millisecond) None;
      EvTask 2 (30 * Second) EmptyString (Some (errors_New "persistent failure"));
      EvShouldRetry 2 (Some (errors_New "persistent failure")) true;
      EvWait 2 (10 * Millisecond) (Some Canceled)]) /\
  @eq (list (event string)) [] [] /\
  Some Canceled = Some Canceled /\
  Some Canceled = Some Canceled /\
  2 = 2 /\
  exists pre0 t e,
    [EvTask 1 (30 * Second) EmptyString (Some (errors_New "persistent failure"));
     EvShouldRetry 1 (Some (errors_New "persistent failure")) true;
     EvWait 1 (10 * Millisecond) None;
     EvTask 2 (30 * Second) EmptyString (Some (errors_New "persistent failure"));
     EvShouldRetry 2 (Some (errors_New "persistent failure")) true]
    = pre0 ++ [EvTask 2 t EmptyString (Some e); EvShouldRetry 2 (Some e) true].
Proof.
  split; [reflexivity|].
  eapply (cancellation_during_wait (T := string) 4
           (NewExecutor (H := amd64)
              [WithRetryStrategy (NewFixedDelayStrategy 3 (10 * Millisecond))])
           (cancelled_after 2) always_fails 0%nat
           {| Value := EmptyString; Error := Some Canceled; Attempt := 2 |}
           (Some Canceled) 2%nat _ _ [] 2 (10 * Millisecond) Canceled).
  - vm_compute. reflexivity.
  - reflexivity.
Defined.

(** C8.  During a run of [Execute], [ShouldRetry] is never called with a
    nil error: every call comes right after the task run of the same
    attempt, and its error argument is the non-nil error that run
    returned. *)
Theorem ShouldRetry_called_after_failure {T W : Type} `{ZeroValue T}
    (fuel : nat) (ex : Executor W) (ctx : Ctx W) (task : Task T W) (w : W)
    (r : Result T) (err : option error) (w' : W) (tr : list (event T)) :
  Execute fuel ex ctx task w = ((Some (r, err), w'), tr) ->
  Forall (fun call => snd call <> None) (ShouldRetry_calls tr) /\
  forall (pre post : list (event T)) (attempt : GoInt) (e : option error) (answer : bool),
    tr = pre ++ EvShouldRetry attempt e answer :: post ->
    e <> None /\ exists pre' t v, pre = pre' ++ [EvTask attempt t v e].
Proof.
  intros Hrun. apply Execute_run in Hrun as (n & _ & Hrun).
  pose proof (run_ShouldRetry _ _ _ _ _ _ _ _ Hrun None) as Hall.
  assert (Hcalls : forall (pre post : list (event T)) attempt e answer,
             tr = pre ++ EvShouldRetry attempt e answer :: post ->
             e <> None /\ exists pre' t v, pre = pre' ++ [EvTask attempt t v e]).
  { intros pre post attempt e answer Htr.
    rewrite Htr in Hall. apply each_after_at in Hall.
    destruct Hall as (t & v & e' & Hprev & ->).
    split; [discriminate|].
    destruct (last pre) as [x|] eqn:Hlast; [|discriminate].
    injection Hprev as ->.
    apply last_Some in Hlast as [pre' ->]. eauto. }
  split; [|exact Hcalls].
  apply List.Forall_forall. intros [attempt e] Hin.
  apply in_ShouldRetry_calls in Hin as (pre & answer & post & Htr).
  exact (proj1 (Hcalls _ _ _ _ _ Htr)).
Qed.

Lemma ShouldRetry_called_after_failure_witness :
  Execute 3 (NewExecutor (H := amd64)
               [WithRetryStrategy (NewFixedDelayStrategy 3 (10 * Millisecond))])
    Background (succeeds_at 2) 0%nat
  = ((Some ({| Value := 42; Error := None; Attempt := 2 |}, None), 2%nat),
     [EvTask 1 (30 * Second) 0 (Some (errors_New "temporary failure"));
      EvShouldRetry 1 (Some (errors_New "temporary failure")) true;
      EvWait 1 (10 * Millisecond) None;
      EvTask 2 (30 * Second) 42 None]) /\
  Forall (fun call => snd call <> None)
    (ShouldRetry_calls
       [EvTask 1 (30 * Second) 0 (Some (errors_New "temporary failure"));
        EvShouldRetry 1 (Some (errors_New "temporary failure")) true;
        EvWait 1 (10 * Millisecond) None;
        EvTask 2 (30 * Second) 42 None]) /\
  forall (pre post : list (event Z)) (attempt : GoInt) (e : option error) (answer : bool),
    [EvTask 1 (30 * Second) 0 (Some (errors_New "temporary failure"));
     EvShouldRetry 1 (Some (errors_New "temporary failure")) true;
     EvWait 1 (10 * Millisecond) None;
     EvTask 2 (30 * Second) 42 None]
    = pre ++ EvShouldRetry attempt e answer :: post ->
    e <> None /\ exists pre' t v, pre = pre' ++ [EvTask attempt t v e].
Proof.
  split; [reflexivity|].
  apply (ShouldRetry_called_after_failure 3
           (NewExecutor (H := amd64)
              [WithRetryStrategy (NewFixedDelayStrategy 3 (10 * Millisecond))])
           Background (succeeds_at 2) 0%nat
           {| Value := 42; Error := None; Attempt := 2 |} None 2%nat).
  reflexivity.
Defined.

(** C9.  Whenever [Execute] returns [(result, err)], [err] is the Error
    field of the Result: nil when the last task run succeeded, the last
    attempt's error when the attempts are exhausted, the context's error
    when a wait was cancelled ([final_error] reads it from the events).
    Hence the error [ExecuteSimple] returns is the one in the Result. *)
Theorem Execute_error_is_Result_Error {T W : Type} `{ZeroValue T}
    (fuel : nat) (ex : Executor W) (ctx : Ctx W) (task : Task T W) (w : W)
    (r : Result T) (err : option error) (w' : W) (tr : list (event T)) :
  Execute fuel ex ctx task w = ((Some (r, err), w'), tr) ->
  err = Error r /\
  Error r = final_error None tr /\
  exists v, ExecuteSimple fuel ex ctx task w = ((Some (v, Error r), w'), tr).
Proof.
  intros Hrun.
  destruct (Execute_run _ _ _ _ _ _ _ _ _ Hrun) as (n & _ & Hrel).
  destruct (run_error _ _ _ _ _ _ _ _ Hrel) as [Herr Hfinal].
  repeat split; trivial.
  unfold ExecuteSimple, bind. rewrite Hrun. subst err.
  destruct (Error r) eqn:HE; cbn; rewrite app_nil_r; eauto.
Qed.

Lemma Execute_error_is_Result_Error_witness :
  exists (r : Result string) err w' tr,
    Execute 3 (NewExecutor (H := amd64)
                 [WithRetryStrategy (NewFixedDelayStrategy 2 (10 * Millisecond))])
      Background always_fails 0%nat = ((Some (r, err), w'), tr) /\
    err = Some (errors_New "persistent failure") /\
    err = Error r /\
    Error r = final_error None tr /\
    exists v, ExecuteSimple 3 (NewExecutor (H := amd64)
                 [WithRetryStrategy (NewFixedDelayStrategy 2 (10 * Millisecond))])
      Background always_fails 0%nat = ((Some (v, Error r), w'), tr).
Proof.
  eexists _, _, _, _. split; [vm_compute; reflexivity|]. split; [reflexivity|].
  apply (Execute_error_is_Result_Error (T := string) 3
           (NewExecutor (H := amd64)
              [WithRetryStrategy (NewFixedDelayStrategy 2 (10 * Millisecond))])
           Background always_fails 0%nat).
  reflexivity.
Defined.

(** C10.  When an [onTimeout] callback is set, [Execute] calls it once per
    attempt, for the attempts 1, 2, ... in this order, each call right
    before the task run of that attempt; the number of calls is the Attempt
    field of the Result returned.  The calls are the effects, not only the
    events: the world returned is reached by carrying out the events in
    their order, each [onTimeout] event being the call of the callback on
    the attempt and timeout it records; and an observer of the callback,
    for which every call adds its attempt to what it has seen and that the
    task, the context and [onRetry] leave alone, has seen the attempts 1,
    ..., Attempt at the end.  (The loop variable is a machine integer;
    [fuel] bounds the iterations of the loop, and the statement is for the
    runs of at most 2^63 - 1 iterations, in which its increment does not
    wrap.) *)
Theorem onTimeout_once_per_attempt {T W : Type} `{ZeroValue T}
    (fuel : nat) (ex : Executor W) (ctx : Ctx W) (task : Task T W) (w : W)
    (r : Result T) (err : option error) (w' : W) (tr : list (event T))
    (callback : GoInt -> Duration -> W -> W) :
  onTimeout ex = Some callback ->
  Z.of_nat fuel <= I64.max_int ->
  Execute fuel ex ctx task w = ((Some (r, err), w'), tr) ->
  timeline tr
  = flat_map (fun i => [CallOnTimeout i; RunTask i]) (attempts_upto (Attempt r)) /\
  onTimeout_calls tr = attempts_upto (Attempt r) /\
  Z.of_nat (length (onTimeout_calls tr)) = Attempt r /\
  performs ex ctx task w tr w' /\
  (forall seen : W -> list GoInt,
      (forall a t w0, seen (callback a t w0) = seen w0 ++ [a]) ->
      (forall t w0, seen (snd (task ctx t w0)) = seen w0) ->
      (forall d w0, seen (snd (select_Done ctx d w0)) = seen w0) ->
      (forall onRetry_callback, onRetry ex = Some onRetry_callback ->
         forall a e d w0, seen (onRetry_callback a e d w0) = seen w0) ->
      seen w' = seen w ++ attempts_upto (Attempt r)).
Proof.
  intros Hcb Hfuel Hrun.
  pose proof (Execute_performs _ _ _ _ _ _ _ _ Hrun) as Hdone.
  apply Execute_run in Hrun as (n & Hn & Hrun).
  destruct (run_onTimeout ex _ callback _ _ _ _ _ _ Hcb Hrun) as (k & Htl & Hcalls & Hatt).
  - unfold I64.min_int. lia.
  - lia.
  - reflexivity.
  - unfold attempts_upto.
    replace (Z.to_nat (Attempt r)) with k by lia.
    rewrite Hcalls, length_attempt_range. repeat split; trivial; [lia|].
    intros seen Hcall Htask Hsel Hretry. rewrite <- Hcalls.
    apply (performs_onTimeout_seen seen ex ctx task); trivial.
    intros callback' Hcb'. rewrite Hcb in Hcb'. now injection Hcb' as <-.
Qed.

Lemma onTimeout_once_per_attempt_witness :
  Execute 3 journal_executor journal_Background (journal_task 2) []
  = ((Some ({| Value := 42; Error := None; Attempt := 2 |}, None), journal_end),
     journal_events) /\
  timeline journal_events = [CallOnTimeout 1; RunTask 1; CallOnTimeout 2; RunTask 2] /\
  onTimeout_calls journal_events = [1; 2] /\
  Z.of_nat (length (onTimeout_calls journal_events)) = 2 /\
  performs journal_executor journal_Background (journal_task 2) [] journal_events
    journal_end /\
  journal_onTimeout_seen journal_end = [1; 2].
Proof.
  split; [reflexivity|].
  destruct (onTimeout_once_per_attempt 3 journal_executor journal_Background
              (journal_task 2) []
              {| Value := 42; Error := None; Attempt := 2 |} None journal_end
              journal_events journal_onTimeout)
    as (Htimeline & Hcalls & Hcount & Hdone & Hseen).
  - reflexivity.
  - unfold I64.max_int. simpl. lia.
  - reflexivity.
  - split; [exact Htimeline|]. split; [exact Hcalls|]. split; [exact Hcount|].
    split; [exact Hdone|].
    apply (Hseen journal_onTimeout_seen).
    + intros a t w0. unfold journal_onTimeout, journal_onTimeout_seen.
      now rewrite flat_map_app.
    + intros t w0. unfold journal_task, journal_onTimeout_seen.
      destruct (Nat.ltb _ _); cbn [snd]; rewrite flat_map_app; cbn; now rewrite app_nil_r.
    + intros d w0. unfold journal_onTimeout_seen. cbn.
      rewrite flat_map_app. cbn. now rewrite app_nil_r.
    + intros onRetry_callback [= <-] a e d w0.
      unfold journal_onRetry, journal_onTimeout_seen.
      rewrite flat_map_app. cbn. now rewrite app_nil_r.
Defined.

(** C7.  [ExecuteWithRetries(ctx, maxRetries, delay, timeout, task)] is
    [ExecuteSimple] on the executor made of FixedDelayStrategy(maxRetries+1,
    delay) and FixedTimeoutStrategy(timeout) without callbacks: same value,
    same error (and same effects), for every world and every bound on the
    iterations; with maxRetries = 2, delay = 500ms and timeout = 3s that
    executor is the one of Fixed-delay(3, 500ms) and Fixed timeout(3s). *)
Theorem ExecuteWithRetries_fixed_retry {T W : Type} `{Arch} `{ZeroValue T}
    (fuel : nat) (ctx : Ctx W) (maxRetries : GoInt) (delay timeout : Duration)
    (task : Task T W) (w : W) :
  ExecuteWithRetries fuel ctx maxRetries delay timeout task w
  = ExecuteSimple fuel (fixed_retry_executor maxRetries delay timeout) ctx task w /\
  ExecuteWithRetries fuel ctx 2 (500 * Millisecond) (3 * Second) task w
  = ExecuteSimple fuel
      {| retryStrategy := NewFixedDelayStrategy 3 (500 * Millisecond);
         timeoutStrategy := NewFixedTimeoutStrategy (3 * Second);
         onRetry := None;
         onTimeout := None |} ctx task w.
Proof. split; reflexivity. Qed.

(** ** The claims about the strategies *)

(** C3, as the specification states it, fails: the constructors accept any
    [maxAttempts], and a fixed-delay strategy built with 0 reports 0. *)
Lemma GetMaxAttempts_can_be_zero :
  ~ 1 <= GetMaxAttempts (NewFixedDelayStrategy 0 (10 * Millisecond)).
Proof. simpl. lia. Qed.

(** C3, amended.  For every retry strategy variant, [GetMaxAttempts()]
    returns the [maxAttempts] argument its constructor was given, whatever
    that is (so it is at least 1 exactly when the argument is); the no-retry
    variant returns exactly 1. *)
Theorem GetMaxAttempts_of_constructors `{Arch} :
  (forall (maxAttempts : GoInt) (baseDelay : Duration) (multiplier : float),
      GetMaxAttempts (NewExponentialBackoffStrategy maxAttempts baseDelay multiplier)
      = maxAttempts) /\
  (forall (maxAttempts : GoInt) (baseDelay increment : Duration),
      GetMaxAttempts (NewLinearBackoffStrategy maxAttempts baseDelay increment)
      = maxAttempts) /\
  (forall (maxAttempts : GoInt) (delay : Duration),
      GetMaxAttempts (NewFixedDelayStrategy maxAttempts delay) = maxAttempts) /\
  GetMaxAttempts NewNoRetryStrategy = 1 /\
  (forall (maxAttempts : GoInt) (baseDelay : Duration)
          (shouldRetryFn : option (GoInt -> option error -> bool))
          (getDelayFn : option (GoInt -> Duration)),
      GetMaxAttempts (NewConditionalRetryStrategy maxAttempts baseDelay shouldRetryFn getDelayFn)
      = maxAttempts).
Proof. repeat split. Qed.

(** C4, as the specification states it, fails: after [s.WithMaxDelay(5s)]
    on a strategy [s] fresh from its constructor, [s.maxDelay] is 5s and no
    longer the 30s it was built with. *)
Lemma WithMaxDelay_changes_receiver :
  let '(s, h) := Ref.NewExponentialBackoffStrategy 3 Second 2 ∅ in
  exists h',
    Ref.WithMaxDelay s (5 * Second) h = Some (s, h') /\
    Ref.maxDelay s h = Some (30 * Second) /\
    Ref.maxDelay s h' = Some (5 * Second) /\
    Ref.maxDelay s h' <> Ref.maxDelay s h.
Proof.
  unfold Ref.NewExponentialBackoffStrategy, Ref.WithMaxDelay, Ref.maxDelay.
  rewrite lookup_insert_eq. eexists. split; [reflexivity|].
  rewrite !lookup_insert_eq. cbn. repeat split. discriminate.
Qed.

(** C4, amended.  [WithMaxDelay] does not copy: [e.WithMaxDelay(d)] stores
    [d] in the [maxDelay] field of the struct [e] points to and returns [e]
    itself.  Afterwards [e.maxDelay] is [d]; the other fields of that struct
    and every other strategy in the heap are as before. *)
Theorem WithMaxDelay_updates_receiver (h : Ref.heap) (e : Ref.ptr)
    (s : ExponentialBackoffStrategy.t) (d : Duration) :
  h !! e = Some s ->
  exists (h' : Ref.heap) (s' : ExponentialBackoffStrategy.t),
    Ref.WithMaxDelay e d h = Some (e, h') /\
    h' !! e = Some s' /\
    Ref.maxDelay e h' = Some d /\
    ExponentialBackoffStrategy.maxAttempts s' = ExponentialBackoffStrategy.maxAttempts s /\
    ExponentialBackoffStrategy.baseDelay s' = ExponentialBackoffStrategy.baseDelay s /\
    ExponentialBackoffStrategy.multiplier s' = ExponentialBackoffStrategy.multiplier s /\
    forall p : Ref.ptr, p <> e -> h' !! p = h !! p.
Proof.
  intros Hs. unfold Ref.WithMaxDelay, Ref.maxDelay. rewrite Hs.
  eexists _, _. split; [reflexivity|].
  rewrite lookup_insert_eq. repeat split.
  intros p Hp. now rewrite lookup_insert_ne.
Qed.

Lemma WithMaxDelay_updates_receiver_witness :
  exists (h' : Ref.heap) (s' : ExponentialBackoffStrategy.t),
    Ref.WithMaxDelay 1%positive (5 * Second)
      (<[1%positive := NewExponentialBackoffStrategy 3 Second 2]> ∅) = Some (1%positive, h') /\
    h' !! 1%positive = Some s' /\
    Ref.maxDelay 1%positive h' = Some (5 * Second) /\
    ExponentialBackoffStrategy.maxAttempts s' = 3 /\
    ExponentialBackoffStrategy.baseDelay s' = Second /\
    ExponentialBackoffStrategy.multiplier s' = 2%float /\
    forall p : Ref.ptr, p <> 1%positive ->
      h' !! p = (<[1%positive := NewExponentialBackoffStrategy 3 Second 2]> ∅ : Ref.heap) !! p.
Proof.
  apply (WithMaxDelay_updates_receiver
           (<[1%positive := NewExponentialBackoffStrategy 3 Second 2]> ∅) 1%positive
           (NewExponentialBackoffStrategy 3 Second 2) (5 * Second)).
  reflexivity.
Defined.



(** ** Further facts about the delay of exponential backoff *)

(** For the default base delay and multiplier the float64 computation is
    exact as long as the product fits in an int64: the specification's
    formula holds for the attempts 1 to 34, cap included. *)
Lemma default_backoff_exact :
  Forall (GetDelay_exact (H := amd64) (NewExponentialBackoffStrategy 3 Second 2))
    (attempt_range 1 34).
Proof.
  cbn [attempt_range].
  repeat (constructor;
          [eexists; split; [vm_compute; reflexivity|vm_compute; reflexivity]|]).
  constructor.
Qed.

(** From attempt 35 on the product 10^9 × 2^(attempt-1) exceeds the int64
    range. *)
Lemma default_backoff_out_of_range :
  F64.trunc (F64.of_int Second * F64.Pow 2 (I64.sub 35 1))%float = Some (10 ^ 9 * 2 ^ 34) /\
  I64.in_range (10 ^ 9 * 2 ^ 34) = false.
Proof. split; vm_compute; reflexivity. Qed.

(** A base delay that float64 cannot hold exactly is rounded: integers only,
    and still not the specification's minimum. *)
Lemma GetDelay_rounds_large_base :
  ExponentialBackoffStrategy.GetDelay (H := amd64)
    (ExponentialBackoffStrategy.set_maxDelay I64.max_int
       (NewExponentialBackoffStrategy 3 (2 ^ 53 + 1) 1)) 1
  = 2 ^ 53.
Proof. vm_compute. reflexivity. Qed.

(** When the product leaves the range of int64 the conversion is the
    platform's: on amd64 the delay is the least int64, which the cap does
    not catch. *)
Lemma GetDelay_out_of_range_amd64 :
  ExponentialBackoffStrategy.GetDelay (H := amd64)
    (NewExponentialBackoffStrategy 100 Second 10) 12
  = I64.min_int.
Proof. vm_compute. reflexivity. Qed.

(** ** The repository's tests, replayed on the model *)

(** TestProgressiveTimeoutStrategy *)
Example progressive_timeouts :
  map (GetTimeout (ProgressiveTimeoutStrategy.iface (H := amd64)
                     (NewProgressiveTimeoutStrategy Second 2 (10 * Second))))
      [1; 2; 3; 4; 5]
  = [Second; 2 * Second; 4 * Second; 8 * Second; 10 * Second].
Proof. vm_compute. reflexivity. Qed.

(** TestConditionalRetryStrategy *)
Example conditional_retry :
  let shouldRetry := fun (_ : GoInt) (err : option error) =>
    match err with
    | Some (errors_New text) => String.eqb text "retryable"
    | _ => false
    end in
  let strategy := NewConditionalRetryStrategy 3 Millisecond (Some shouldRetry) None in
  ShouldRetry strategy 1 (Some (errors_New "retryable")) = true /\
  ShouldRetry strategy 1 (Some (errors_New "non-retryable")) = false.
Proof. split; reflexivity. Qed.

(** TestExecutorWithRetries *)
Example retries_until_success :
  fst (Execute 4 (NewExecutor (H := amd64)
                    [WithRetryStrategy (NewFixedDelayStrategy 3 (10 * Millisecond))])
         Background (succeeds_at 3) 0%nat)
  = (Some ({| Value := 42; Error := None; Attempt := 3 |}, None), 3%nat).
Proof. vm_compute. reflexivity. Qed.

(** TestExecutorMaxRetriesExceeded *)
Example retries_exhausted :
  fst (Execute 3 (NewExecutor (H := amd64)
                    [WithRetryStrategy (NewFixedDelayStrategy 2 (10 * Millisecond))])
         Background always_fails 0%nat)
  = (Some ({| Value := EmptyString;
              Error := Some (errors_New "persistent failure");
              Attempt := 2 |},
           Some (errors_New "persistent failure")), 2%nat).
Proof. vm_compute. reflexivity. Qed.

(** [maxRetries + 1] is machine addition: at the greatest int it wraps to
    the least one, and no attempt is made. *)
Example ExecuteWithRetries_at_max_int :
  ExecuteWithRetries (H := amd64) 2 Background I64.max_int (500 * Millisecond) (3 * Second)
    always_fails 0%nat
  = ((Some (EmptyString, None), 0%nat), []).
Proof. vm_compute. reflexivity. Qed.

(** A failing task under the no-retry strategy runs once. *)
Example no_retry_runs_once :
  fst (ExecuteWithTimeout (H := amd64) 2 Background (50 * Millisecond) always_fails 0%nat)
  = (Some (EmptyString, Some (errors_New "persistent failure")), 1%nat).
Proof. vm_compute. reflexivity. Qed.

(** * Properties beyond the claims *)

(** ** The attempt loop *)

Section MoreRunFacts.

Context {T W : Type}.
Variable ex : Executor W.
Variable maxA : GoInt.

Ltac callbacks :=
  unfold failed_attempt, onTimeout_events, onRetry_events in *;
  destruct (onTimeout ex); destruct (onRetry ex).

Lemma task_attempts_app (tr1 tr2 : list (event T)) :
  task_attempts (tr1 ++ tr2) = task_attempts tr1 ++ task_attempts tr2.
Proof. unfold task_attempts. now rewrite task_runs_app, map_app. Qed.

Lemma run_task_attempts n a lastR r err tr :
  run (T := T) ex maxA n a lastR r err tr ->
  I64.min_int <= a ->
  a + Z.of_nat n <= I64.max_int + 1 ->
  Attempt lastR = a - 1 ->
  exists k : nat,
    task_attempts tr = attempt_range a k /\
    Attempt r = a - 1 + Z.of_nat k /\
    Z.of_nat k <= Z.max 0 (maxA - a + 1).
Proof.
  induction 1 as [a lastR Hgt | a lastR v Hle | a lastR v e Hle _ | a lastR v e ctxErr Hlt _
                 | n a lastR v e r err tr Hlt _ Hrec IH | n a lastR v e r err tr Heq _ Hrec IH];
    intros Hlo Hshort Hlast.
  - exists 0%nat. cbn. repeat split; lia.
  - exists 1%nat. rewrite task_attempts_app. unfold task_attempts at 1.
    rewrite task_runs_onTimeout. cbn. repeat split; lia.
  - exists 1%nat. rewrite task_attempts_app. unfold task_attempts at 1.
    rewrite task_runs_onTimeout. cbn. repeat split; lia.
  - exists 1%nat. unfold task_attempts.
    rewrite !task_runs_app, task_runs_failed_attempt, task_runs_onRetry.
    cbn. repeat split; lia.
  - apply run_positive in Hrec.
    rewrite add_1_no_wrap in IH by lia.
    destruct IH as (k & Hatt & Hres & Hk); [lia|lia|cbn; lia|].
    exists (S k). unfold task_attempts in *.
    change (EvWait a (GetDelay (retryStrategy ex) a) None :: tr)
      with ([EvWait a (GetDelay (retryStrategy ex) a) None] ++ tr).
    rewrite !task_runs_app, task_runs_failed_attempt, task_runs_onRetry.
    cbn [app task_runs flat_map map fst]. rewrite Hatt.
    cbn. repeat split; lia.
  - apply run_positive in Hrec.
    rewrite add_1_no_wrap in IH by lia.
    destruct IH as (k & Hatt & Hres & Hk); [lia|lia|cbn; lia|].
    exists (S k). unfold task_attempts in *.
    rewrite !task_runs_app, task_runs_failed_attempt.
    cbn [app map fst]. rewrite Hatt.
    cbn. repeat split; lia.
Qed.

Lemma run_follows_strategies n a lastR r err tr :
  maxA = GetMaxAttempts (retryStrategy ex) ->
  run (T := T) ex maxA n a lastR r err tr ->
  Forall (follows_strategies ex) tr.
Proof.
  intros HmaxA.
  induction 1 as [a lastR Hgt | a lastR v Hle | a lastR v e Hle Hsr | a lastR v e ctxErr Hlt Hsr
                 | n a lastR v e r err tr Hlt Hsr Hrec IH | n a lastR v e r err tr Heq Hsr Hrec IH].
  - constructor.
  - callbacks; repeat constructor; cbn; lia.
  - callbacks; repeat constructor; cbn; try lia; now rewrite Hsr.
  - callbacks; repeat constructor; cbn; try lia; now rewrite Hsr.
  - callbacks; cbn [app]; repeat (constructor; [cbn; try lia; try (now rewrite Hsr); try (split; [reflexivity|lia])|]); exact IH.
  - callbacks; cbn [app]; repeat (constructor; [cbn; try lia; try (now rewrite Hsr); try (split; [reflexivity|lia])|]); exact IH.
Qed.

Lemma no_success_in_failed_attempt a v e a' t v' :
  ~ In (EvTask a' t v' None) (failed_attempt (T := T) ex a v e).
Proof. callbacks; cbn; intuition discriminate. Qed.

Lemma no_success_in_onRetry a e a' t v' :
  ~ In (EvTask a' t v' None) (onRetry_events (T := T) ex a e).
Proof. callbacks; cbn; intuition discriminate. Qed.

Lemma no_success_in_onTimeout a a' t v' :
  ~ In (EvTask a' t v' None) (onTimeout_events (T := T) ex a).
Proof. callbacks; cbn; intuition discriminate. Qed.

Lemma run_success_is_final n a lastR r err tr :
  run (T := T) ex maxA n a lastR r err tr ->
  forall pre a' t v post,
    tr = pre ++ EvTask a' t v None :: post ->
    post = [] /\ r = mkResult v None a' /\ err = None.
Proof.
  induction 1 as [a lastR _ | a lastR v _ | a lastR v e _ _ | a lastR v e ctxErr _ _
                 | n a lastR v e r err tr _ _ _ IH | n a lastR v e r err tr _ _ _ IH];
    intros pre a' t v' post Heq.
  - now destruct pre.
  - apply split_after_prefix in Heq as (pre' & _ & Heq);
      [|apply no_success_in_onTimeout].
    destruct pre' as [|? [|? ?]]; try discriminate.
    now injection Heq as <- <- <- <-.
  - exfalso.
    apply split_after_prefix in Heq as (pre' & _ & Heq);
      [|apply no_success_in_onTimeout].
    destruct pre' as [|? [|? [|? ?]]]; discriminate.
  - exfalso.
    apply split_after_prefix in Heq as (pre1 & _ & Heq);
      [|apply no_success_in_failed_attempt].
    apply split_after_prefix in Heq as (pre2 & _ & Heq);
      [|apply no_success_in_onRetry].
    destruct pre2 as [|? [|? ?]]; discriminate.
  - apply split_after_prefix in Heq as (pre1 & _ & Heq);
      [|apply no_success_in_failed_attempt].
    apply split_after_prefix in Heq as (pre2 & _ & Heq);
      [|apply no_success_in_onRetry].
    destruct pre2 as [|x pre2]; [discriminate|].
    injection Heq as _ Heq. exact (IH _ _ _ _ _ Heq).
  - apply split_after_prefix in Heq as (pre1 & _ & Heq);
      [|apply no_success_in_failed_attempt].
    exact (IH _ _ _ _ _ Heq).
Qed.

Lemma run_waits_announced callback n a lastR r err tr :
  onRetry ex = Some callback ->
  run (T := T) ex maxA n a lastR r err tr ->
  (forall prev, each_after wait_after_onRetry prev tr) /\
  onRetry_calls tr = waits tr.
Proof.
  intros Hcb. unfold onRetry_calls, waits.
  induction 1 as [a lastR _ | a lastR v _ | a lastR v e _ _ | a lastR v e ctxErr _ _
                 | n a lastR v e r err tr _ _ _ [IHa IHc] | n a lastR v e r err tr _ _ _ [IHa IHc]].
  - repeat split.
  - unfold onTimeout_events. destruct (onTimeout ex); cbn; repeat split.
  - unfold onTimeout_events. destruct (onTimeout ex); cbn; repeat split.
  - unfold failed_attempt, onTimeout_events, onRetry_events. rewrite Hcb.
    destruct (onTimeout ex); cbn; repeat split; eauto.
  - unfold failed_attempt, onTimeout_events, onRetry_events. rewrite Hcb.
    destruct (onTimeout ex); cbn; rewrite IHc; repeat split; eauto.
  - unfold failed_attempt, onTimeout_events.
    destruct (onTimeout ex); cbn; rewrite IHc; repeat split; eauto.
Qed.

End MoreRunFacts.

Section MoreLoopFacts.

Context {T W : Type}.
Implicit Types (ex : Executor W) (ctx : Ctx W) (task : Task T W).

Lemma from_task_onTimeout ex ctx task a :
  Forall (from_task ctx task) (onTimeout_events (T := T) ex a).
Proof. unfold onTimeout_events. destruct (onTimeout ex); repeat constructor. Qed.

Lemma from_task_onRetry ex ctx task a e :
  Forall (from_task ctx task) (onRetry_events (T := T) ex a e).
Proof. unfold onRetry_events. destruct (onRetry ex); repeat constructor. Qed.

Ltac all_from_task :=
  repeat first
    [ apply from_task_onTimeout
    | apply from_task_onRetry
    | assumption
    | apply List.Forall_nil
    | apply List.Forall_app; split
    | apply List.Forall_cons; [first [assumption | exact I]|] ].

(** The task runs a trace records are calls of the task. *)
Lemma attempts_from_task ex ctx task maxA fuel :
  forall a lastR w out w' tr,
    attempts ex ctx task maxA fuel a lastR w = ((out, w'), tr) ->
    Forall (from_task ctx task) tr.
Proof.
  induction fuel as [|fuel IH]; intros a lastR w out w' tr; cbn [attempts].
  - unfold ret. intros [= <- <- <-]. constructor.
  - destruct (a <=? maxA).
    2:{ unfold ret. intros [= <- <- <-]. constructor. }
    unfold bind.
    destruct (notify_timeout ex a _ w) as [[u w1] tr1] eqn:Hnt.
    apply notify_timeout_events in Hnt as ->.
    unfold run_task.
    destruct (task ctx _ w1) as [[v e] w2] eqn:Htask.
    assert (Hrun : from_task ctx task (EvTask a (GetTimeout (timeoutStrategy ex) a) v e))
      by (cbn; eauto).
    destruct e as [e|].
    2:{ unfold ret. intros [= <- <- <-]. all_from_task. }
    unfold should_retry.
    destruct (ShouldRetry (retryStrategy ex) a (Some e)); cbn [negb].
    2:{ unfold ret. intros [= <- <- <-]. all_from_task. }
    destruct (a <? maxA).
    + destruct (notify_retry ex a _ _ w2) as [[u' w3] tr3] eqn:Hnr.
      apply notify_retry_events in Hnr as ->.
      unfold wait.
      destruct (select_Done ctx _ w3) as [[ctxErr|] w4].
      * unfold ret. intros [= <- <- <-]. all_from_task.
      * destruct (attempts ex ctx task maxA fuel (I64.add a 1) _ w4)
          as [[out' w5] tr5] eqn:Hrec.
        apply IH in Hrec. intros [= <- <- <-]. all_from_task.
    + destruct (attempts ex ctx task maxA fuel (I64.add a 1) _ w2)
        as [[out' w5] tr5] eqn:Hrec.
      apply IH in Hrec. intros [= <- <- <-]. all_from_task.
Qed.

(** A task that always fails, under a strategy that retries every failure
    below the ceiling and a context that is never done, is run until the
    ceiling, with a wait of [GetDelay(attempt)] after every attempt but the
    last; the error returned is one of the task's ([P] holds of it when it
    holds of every error of the task). *)
Lemma attempts_exhaust_with (P : error -> Prop) ex ctx task maxA :
  (forall a e, ShouldRetry (retryStrategy ex) a (Some e) = (a <? maxA)) ->
  (forall ctx timeout w,
      match snd (fst (task ctx timeout w)) with Some e => P e | None => False end) ->
  never_done ctx ->
  maxA <= I64.max_int ->
  forall n a lastR w,
    I64.min_int <= a ->
    a + Z.of_nat n = maxA ->
    exists r e w' tr,
      attempts ex ctx task maxA (S n) a lastR w = ((Some (r, Some e), w'), tr) /\
      Attempt r = maxA /\
      Error r = Some e /\
      P e /\
      task_attempts tr = attempt_range a (S n) /\
      waits tr = map (fun a => (a, GetDelay (retryStrategy ex) a)) (attempt_range a n).
Proof.
  intros Hrule Hfails Hnever Hmax.
  induction n as [|n IH]; intros a lastR w Hlo Hn.
  - cbn [attempts]. destruct (Z.leb_spec a maxA); [|lia].
    unfold bind.
    destruct (notify_timeout ex a _ w) as [[u w1] tr1] eqn:Hnt.
    apply notify_timeout_events in Hnt as ->.
    unfold run_task.
    pose proof (Hfails ctx (GetTimeout (timeoutStrategy ex) a) w1) as Hf.
    destruct (task ctx _ w1) as [[v [e|]] w2]; [|now cbn in Hf].
    cbn in Hf.
    unfold should_retry. rewrite Hrule.
    destruct (Z.ltb_spec a maxA); [lia|]. cbn [negb]. unfold ret.
    eexists _, _, _, _. split; [reflexivity|].
    cbn [Attempt Error]. split; [lia|]. split; [reflexivity|]. split; [exact Hf|]. split.
    + unfold task_attempts. rewrite !task_runs_app, task_runs_onTimeout. reflexivity.
    + unfold waits. rewrite !flat_map_app. unfold onTimeout_events.
      destruct (onTimeout ex); reflexivity.
  - remember (S n) as m eqn:Hm. cbn [attempts]. subst m.
    destruct (Z.leb_spec a maxA); [|lia].
    unfold bind.
    destruct (notify_timeout ex a _ w) as [[u w1] tr1] eqn:Hnt.
    apply notify_timeout_events in Hnt as ->.
    unfold run_task.
    pose proof (Hfails ctx (GetTimeout (timeoutStrategy ex) a) w1) as Hf.
    destruct (task ctx _ w1) as [[v [e|]] w2]; [|now cbn in Hf].
    unfold should_retry. rewrite Hrule.
    destruct (Z.ltb_spec a maxA); [|lia]. cbn [negb].
    destruct (notify_retry ex a _ _ w2) as [[u' w3] tr3] eqn:Hnr.
    apply notify_retry_events in Hnr as ->.
    unfold wait.
    pose proof (Hnever (GetDelay (retryStrategy ex) a) w3) as Hd.
    destruct (select_Done ctx _ w3) as [[ctxErr|] w4]; [discriminate|].
    assert (Hnext : I64.add a 1 = a + 1) by (apply add_1_no_wrap; lia).
    destruct (IH (I64.add a 1) {| Value := v; Error := Some e; Attempt := a |} w4)
      as (r & e' & w' & tr & -> & Hatt & Herr & HP & Hruns & Hwaits).
    + apply wrap_range.
    + rewrite Hnext; lia.
    + rewrite Hnext in Hruns, Hwaits.
      eexists _, _, _, _. split; [reflexivity|].
      split; [exact Hatt|]. split; [exact Herr|]. split; [exact HP|]. split.
      * unfold task_attempts in *.
        rewrite !task_runs_app, task_runs_onTimeout, task_runs_onRetry.
        cbn [app]. cbn [task_runs flat_map app map fst] in *.
        change (flat_map _ tr) with (task_runs tr). rewrite Hruns. reflexivity.
      * unfold waits in *. rewrite !flat_map_app.
        unfold onTimeout_events, onRetry_events.
        destruct (onTimeout ex), (onRetry ex); cbn; now rewrite Hwaits.
Qed.

Lemma attempts_exhaust ex ctx task maxA :
  (forall a e, ShouldRetry (retryStrategy ex) a (Some e) = (a <? maxA)) ->
  fails_always task ->
  never_done ctx ->
  maxA <= I64.max_int ->
  forall n a lastR w,
    I64.min_int <= a ->
    a + Z.of_nat n = maxA ->
    exists r e w' tr,
      attempts ex ctx task maxA (S n) a lastR w = ((Some (r, Some e), w'), tr) /\
      Attempt r = maxA /\
      Error r = Some e /\
      task_attempts tr = attempt_range a (S n) /\
      waits tr = map (fun a => (a, GetDelay (retryStrategy ex) a)) (attempt_range a n).
Proof.
  intros Hrule Hfails Hnever Hmax n a lastR w Hlo Hn.
  destruct (attempts_exhaust_with (fun _ => True) ex ctx task maxA Hrule) with
    (n := n) (a := a) (lastR := lastR) (w := w)
    as (r & e & w' & tr & Hrun & Hatt & Herr & _ & Hruns & Hwaits); trivial.
  - intros c t w0. specialize (Hfails c t w0).
    now destruct (snd (fst (task c t w0))).
  - eauto 10.
Qed.

End MoreLoopFacts.

(** ** What a caller of [Execute] can rely on *)

(** X1.  The task is never run more often than [GetMaxAttempts()] says,
    whatever [ShouldRetry] answers: the task runs of an invocation are the
    attempts 1, 2, ..., k, where k is the Attempt field of the Result and
    0 <= k <= max(0, GetMaxAttempts()).  (For runs of at most 2^63 - 1
    iterations, in which the loop variable does not wrap.) *)
Theorem Execute_attempt_ceiling {T W : Type} `{ZeroValue T}
    (fuel : nat) (ex : Executor W) (ctx : Ctx W) (task : Task T W) (w : W)
    (r : Result T) (err : option error) (w' : W) (tr : list (event T)) :
  Z.of_nat fuel <= I64.max_int ->
  Execute fuel ex ctx task w = ((Some (r, err), w'), tr) ->
  task_attempts tr = attempts_upto (Attempt r) /\
  Z.of_nat (length (task_runs tr)) = Attempt r /\
  0 <= Attempt r <= Z.max 0 (GetMaxAttempts (retryStrategy ex)).
Proof.
  intros Hfuel Hrun. apply Execute_run in Hrun as (n & Hn & Hrun).
  destruct (run_task_attempts ex _ _ _ _ _ _ _ Hrun) as (k & Hatt & Hres & Hk).
  - unfold I64.min_int. lia.
  - lia.
  - reflexivity.
  - unfold attempts_upto. replace (Z.to_nat (Attempt r)) with k by lia.
    split; [exact Hatt|].
    assert (Hlen : length (task_runs tr) = k).
    { unfold task_attempts in Hatt.
      rewrite <- (length_map (fun run => fst (fst run))), Hatt.
      apply length_attempt_range. }
    rewrite Hlen. lia.
Qed.

Lemma Execute_attempt_ceiling_witness :
  Z.of_nat 3 <= I64.max_int /\
  Execute 3 (NewExecutor (H := amd64)
               [WithRetryStrategy (NewFixedDelayStrategy 2 (10 * Millisecond))])
    Background always_fails 0%nat
  = ((Some ({| Value := EmptyString;
               Error := Some (errors_New "persistent failure");
               Attempt := 2 |},
            Some (errors_New "persistent failure")), 2%nat),
     [EvTask 1 (30 * Second) EmptyString (Some (errors_New "persistent failure"));
      EvShouldRetry 1 (Some (errors_New "persistent failure")) true;
      EvWait 1 (10 * Millisecond) None;
      EvTask 2 (30 * Second) EmptyString (Some (errors_New "persistent failure"));
      EvShouldRetry 2 (Some (errors_New "persistent failure")) false]) /\
  task_attempts
    [EvTask 1 (30 * Second) EmptyString (Some (errors_New "persistent failure"));
     EvShouldRetry 1 (Some (errors_New "persistent failure")) true;
     EvWait 1 (10 * Millisecond) None;
     EvTask 2 (30 * Second) EmptyString (Some (errors_New "persistent failure"));
     EvShouldRetry 2 (Some (errors_New "persistent failure")) false]
  = [1; 2] /\
  Z.of_nat
    (length
       (task_runs
          [EvTask 1 (30 * Second) EmptyString (Some (errors_New "persistent failure"));
           EvShouldRetry 1 (Some (errors_New "persistent failure")) true;
           EvWait 1 (10 * Millisecond) None;
           EvTask 2 (30 * Second) EmptyString (Some (errors_New "persistent failure"));
           EvShouldRetry 2 (Some (errors_New "persistent failure")) false]))
  = 2 /\
  0 <= 2 <= Z.max 0 2.
Proof.
  split; [unfold I64.max_int; simpl; lia|]. split; [reflexivity|].
  apply (Execute_attempt_ceiling (T := string) 3
           (NewExecutor (H := amd64)
              [WithRetryStrategy (NewFixedDelayStrategy 2 (10 * Millisecond))])
           Background always_fails 0%nat
           {| Value := EmptyString;
              Error := Some (errors_New "persistent failure");
              Attempt := 2 |}
           (Some (errors_New "persistent failure")) 2%nat).
  - unfold I64.max_int. simpl. lia.
  - reflexivity.
Defined.

(** X2.  Every event of an invocation uses what the strategies give for its
    attempt: a task runs, and [onTimeout] is called, with
    [GetTimeout(attempt)] and only for attempts up to [GetMaxAttempts()];
    a wait lasts, and [onRetry] is told, [GetDelay(attempt)], and only for
    attempts below [GetMaxAttempts()] (no delay follows the last attempt
    allowed); the answer recorded for [ShouldRetry] is the strategy's.  And
    the events are what was done: the world returned is reached by carrying
    them out in their order, an [onTimeout] or [onRetry] event being the
    call of the executor's callback on the arguments it records, a task
    event the call of the task under the timeout it records. *)
Theorem Execute_follows_strategies {T W : Type} `{ZeroValue T}
    (fuel : nat) (ex : Executor W) (ctx : Ctx W) (task : Task T W) (w : W)
    (r : Result T) (err : option error) (w' : W) (tr : list (event T)) :
  Execute fuel ex ctx task w = ((Some (r, err), w'), tr) ->
  Forall (follows_strategies ex) tr /\
  performs ex ctx task w tr w'.
Proof.
  intros Hrun. split.
  - apply Execute_run in Hrun as (n & _ & Hrun).
    exact (run_follows_strategies ex _ _ _ _ _ _ _ eq_refl Hrun).
  - exact (Execute_performs _ _ _ _ _ _ _ _ Hrun).
Qed.

Lemma Execute_follows_strategies_witness :
  Execute 3 journal_executor journal_Background (journal_task 2) []
  = ((Some ({| Value := 42; Error := None; Attempt := 2 |}, None), journal_end),
     journal_events) /\
  Forall (follows_strategies journal_executor) journal_events /\
  performs journal_executor journal_Background (journal_task 2) [] journal_events
    journal_end.
Proof.
  split; [reflexivity|].
  apply (Execute_follows_strategies 3 journal_executor journal_Background
           (journal_task 2) []
           {| Value := 42; Error := None; Attempt := 2 |} None journal_end
           journal_events).
  reflexivity.
Defined.

(** X3.  A task run that returns a nil error ends the invocation at once:
    it is the last event (no [ShouldRetry], no callback, no wait, no further
    attempt), and the Result is that run's value with a nil error and its
    attempt number. *)
Theorem Execute_success_is_final {T W : Type} `{ZeroValue T}
    (fuel : nat) (ex : Executor W) (ctx : Ctx W) (task : Task T W) (w : W)
    (r : Result T) (err : option error) (w' : W) (tr : list (event T))
    (pre post : list (event T)) (attempt : GoInt) (timeout : Duration) (v : T) :
  Execute fuel ex ctx task w = ((Some (r, err), w'), tr) ->
  tr = pre ++ EvTask attempt timeout v None :: post ->
  post = [] /\ r = {| Value := v; Error := None; Attempt := attempt |} /\ err = None.
Proof.
  intros Hrun Htr. apply Execute_run in Hrun as (n & _ & Hrun).
  exact (run_success_is_final ex _ _ _ _ _ _ _ Hrun _ _ _ _ _ Htr).
Qed.

Lemma Execute_success_is_final_witness :
  Execute 3 (NewExecutor (H := amd64)
               [WithRetryStrategy (NewFixedDelayStrategy 3 (10 * Millisecond))])
    Background (succeeds_at 2) 0%nat
  = ((Some ({| Value := 42; Error := None; Attempt := 2 |}, None), 2%nat),
     [EvTask 1 (30 * Second) 0 (Some (errors_New "temporary failure"));
      EvShouldRetry 1 (Some (errors_New "temporary failure")) true;
      EvWait 1 (10 * Millisecond) None]
     ++ EvTask 2 (30 * Second) 42 None :: []) /\
  @nil (event Z) = [] /\
  {| Value := 42; Error := None; Attempt := 2 |}
  = {| Value := 42; Error := None; Attempt := 2 |} /\
  @None error = None.
Proof.
  split; [reflexivity|].
  apply (Execute_success_is_final 3
           (NewExecutor (H := amd64)
              [WithRetryStrategy (NewFixedDelayStrategy 3 (10 * Millisecond))])
           Background (succeeds_at 2) 0%nat
           {| Value := 42; Error := None; Attempt := 2 |} None 2%nat
           ([EvTask 1 (30 * Second) 0 (Some (errors_New "temporary failure"));
             EvShouldRetry 1 (Some (errors_New "temporary failure")) true;
             EvWait 1 (10 * Millisecond) None]
            ++ EvTask 2 (30 * Second) 42 None :: [])
           [EvTask 1 (30 * Second) 0 (Some (errors_New "temporary failure"));
            EvShouldRetry 1 (Some (errors_New "temporary failure")) true;
            EvWait 1 (10 * Millisecond) None]
           [] 2 (30 * Second) 42).
  - reflexivity.
  - reflexivity.
Defined.

(** X4.  With an [onRetry] callback set, every wait is announced: right
    before it [onRetry] is called with the same attempt and delay and with
    the error of the attempt that failed, that call coming right after the
    [ShouldRetry] call that answered true; there are as many [onRetry] calls
    as waits.  The calls are the effects, not only the events: the world
    returned is reached by carrying out the events in their order, each
    [onRetry] event being the call of the callback on the attempt, error and
    delay it records; and an observer of the callback, for which every call
    adds its attempt and delay to what it has seen and that the task, the
    context and [onTimeout] leave alone, has seen the attempt and delay of
    every wait, in their order, at the end. *)
Theorem onRetry_before_each_wait {T W : Type} `{ZeroValue T}
    (fuel : nat) (ex : Executor W) (ctx : Ctx W) (task : Task T W) (w : W)
    (r : Result T) (err : option error) (w' : W) (tr : list (event T))
    (callback : GoInt -> option error -> Duration -> W -> W) :
  onRetry ex = Some callback ->
  Execute fuel ex ctx task w = ((Some (r, err), w'), tr) ->
  onRetry_calls tr = waits tr /\
  (forall (pre post : list (event T)) (attempt : GoInt) (delay : Duration)
          (done : option error),
     tr = pre ++ EvWait attempt delay done :: post ->
     exists pre' e,
       pre = pre' ++ [EvShouldRetry attempt (Some e) true;
                      EvOnRetry attempt (Some e) delay]) /\
  performs ex ctx task w tr w' /\
  (forall seen : W -> list (GoInt * Duration),
      (forall a e d w0, seen (callback a e d w0) = seen w0 ++ [(a, d)]) ->
      (forall t w0, seen (snd (task ctx t w0)) = seen w0) ->
      (forall d w0, seen (snd (select_Done ctx d w0)) = seen w0) ->
      (forall onTimeout_callback, onTimeout ex = Some onTimeout_callback ->
         forall a t w0, seen (onTimeout_callback a t w0) = seen w0) ->
      seen w' = seen w ++ waits tr).
Proof.
  intros Hcb Hrun.
  pose proof (Execute_performs _ _ _ _ _ _ _ _ Hrun) as Hdone.
  apply Execute_run in Hrun as (n & _ & Hrun).
  destruct (run_waits_announced ex _ callback _ _ _ _ _ _ Hcb Hrun) as [Hall Hcalls].
  split; [exact Hcalls|]. split; [|split; [exact Hdone|]].
  - intros pre post attempt delay done Htr.
    pose proof (Hall None) as Hwait. rewrite Htr in Hwait.
    apply each_after_at in Hwait. destruct Hwait as [e Hprev].
    destruct (last pre) as [x|] eqn:Hlast; [|discriminate].
    injection Hprev as ->.
    apply last_Some in Hlast as [pre1 ->].
    pose proof (Hall None) as Hcall. rewrite Htr, <- app_assoc in Hcall.
    cbn [app] in Hcall. apply each_after_at in Hcall. cbn in Hcall.
    destruct (last pre1) as [y|] eqn:Hlast1; [|discriminate].
    injection Hcall as ->.
    apply last_Some in Hlast1 as [pre2 ->].
    exists pre2, e. now rewrite <- app_assoc.
  - intros seen Hcall Htask Hsel Htimeout. rewrite <- Hcalls.
    apply (performs_onRetry_seen seen ex ctx task); trivial.
    intros callback' Hcb'. rewrite Hcb in Hcb'. now injection Hcb' as <-.
Qed.

Lemma onRetry_before_each_wait_witness :
  Execute 3 journal_executor journal_Background (journal_task 2) []
  = ((Some ({| Value := 42; Error := None; Attempt := 2 |}, None), journal_end),
     journal_events) /\
  onRetry_calls journal_events = waits journal_events /\
  (forall (pre post : list (event Z)) (attempt : GoInt) (delay : Duration)
          (done : option error),
     journal_events = pre ++ EvWait attempt delay done :: post ->
     exists pre' e,
       pre = pre' ++ [EvShouldRetry attempt (Some e) true;
                      EvOnRetry attempt (Some e) delay]) /\
  performs journal_executor journal_Background (journal_task 2) [] journal_events
    journal_end /\
  journal_onRetry_seen journal_end = [(1, Millisecond)].
Proof.
  split; [reflexivity|].
  destruct (onRetry_before_each_wait 3 journal_executor journal_Background
              (journal_task 2) []
              {| Value := 42; Error := None; Attempt := 2 |} None journal_end
              journal_events journal_onRetry)
    as (Hcalls & Hbefore & Hdone & Hseen).
  - reflexivity.
  - reflexivity.
  - split; [exact Hcalls|]. split; [exact Hbefore|]. split; [exact Hdone|].
    apply (Hseen journal_onRetry_seen).
    + intros a e d w0. unfold journal_onRetry, journal_onRetry_seen.
      now rewrite flat_map_app.
    + intros t w0. unfold journal_task, journal_onRetry_seen.
      destruct (Nat.ltb _ _); cbn [snd]; rewrite flat_map_app; cbn; now rewrite app_nil_r.
    + intros d w0. unfold journal_onRetry_seen. cbn.
      rewrite flat_map_app. cbn. now rewrite app_nil_r.
    + intros onTimeout_callback [= <-] a t w0.
      unfold journal_onTimeout, journal_onRetry_seen.
      rewrite flat_map_app. cbn. now rewrite app_nil_r.
Defined.

Section NilError.

Context {T W : Type}.
Variable ex : Executor W.
Variable maxA : GoInt.

(** A run that returns a nil error either made no attempt or ended with a
    task run that succeeded, whose value is the result's. *)
Lemma run_nil_error n a lastR r err tr :
  run (T := T) ex maxA n a lastR r err tr ->
  err = None ->
  (tr = [] /\ r = lastR /\ maxA < a) \/
  (exists pre a' t v, tr = pre ++ [EvTask a' t v None] /\ r = mkResult v None a').
Proof.
  induction 1 as [a lastR Hgt | a lastR v _ | a lastR v e _ _ | a lastR v e ctxErr _ _
                 | n a lastR v e r err tr _ _ Hsub IH | n a lastR v e r err tr _ _ Hsub IH];
    intros Herr; try discriminate.
  - left. auto.
  - right. eexists _, _, _, _. split; reflexivity.
  - right. destruct (IH Herr) as [(-> & -> & _) | (pre & a' & t & v' & -> & ->)].
    + apply run_error in Hsub as [He _]. subst err. discriminate.
    + exists (failed_attempt ex a v e ++ onRetry_events ex a (Some e) ++
              EvWait a (GetDelay (retryStrategy ex) a) None :: pre), a', t, v'.
      split; [|reflexivity]. now rewrite <- !app_assoc.
  - right. destruct (IH Herr) as [(-> & -> & _) | (pre & a' & t & v' & -> & ->)].
    + apply run_error in Hsub as [He _]. subst err. discriminate.
    + exists (failed_attempt ex a v e ++ pre), a', t, v'.
      split; [|reflexivity]. now rewrite <- !app_assoc.
Qed.

End NilError.

Section LoopForever.

Context {T W : Type}.
Implicit Types (ex : Executor W) (ctx : Ctx W) (task : Task T W).

(** With the ceiling at the largest int the loop condition always holds. *)
Lemma attempts_forever ex ctx task :
  (forall a e, ShouldRetry (retryStrategy ex) a (Some e) = true) ->
  fails_always task ->
  never_done ctx ->
  forall fuel a lastR w,
    a <= I64.max_int ->
    exists w' tr,
      attempts ex ctx task I64.max_int fuel a lastR w = ((None, w'), tr) /\
      length (task_runs tr) = fuel.
Proof.
  intros Hrule Hfails Hnever.
  induction fuel as [|fuel IH]; intros a lastR w Hhi; cbn [attempts].
  - unfold ret. eauto.
  - destruct (Z.leb_spec a I64.max_int); [|lia].
    unfold bind.
    destruct (notify_timeout ex a _ w) as [[u w1] tr1] eqn:Hnt.
    apply notify_timeout_events in Hnt as ->.
    unfold run_task.
    pose proof (Hfails ctx (GetTimeout (timeoutStrategy ex) a) w1) as Hf.
    destruct (task ctx _ w1) as [[v [e|]] w2]; [|now cbn in Hf].
    unfold should_retry. rewrite Hrule. cbn [negb].
    destruct (a <? I64.max_int).
    + destruct (notify_retry ex a _ _ w2) as [[u' w3] tr3] eqn:Hnr.
      apply notify_retry_events in Hnr as ->.
      unfold wait.
      pose proof (Hnever (GetDelay (retryStrategy ex) a) w3) as Hd.
      destruct (select_Done ctx _ w3) as [[ctxErr|] w4]; [discriminate|].
      destruct (IH (I64.add a 1) {| Value := v; Error := Some e; Attempt := a |} w4)
        as (w' & tr & -> & Hruns); [apply wrap_range|].
      eexists _, _. split; [reflexivity|].
      rewrite !task_runs_app, task_runs_onTimeout, task_runs_onRetry.
      cbn. now rewrite Hruns.
    + destruct (IH (I64.add a 1) {| Value := v; Error := Some e; Attempt := a |} w2)
        as (w' & tr & -> & Hruns); [apply wrap_range|].
      eexists _, _. split; [reflexivity|].
      rewrite !task_runs_app, task_runs_onTimeout.
      cbn. now rewrite Hruns.
Qed.

End LoopForever.

Section Options.

Context {W : Type}.

Lemma fold_options_keep_retryStrategy (options : list (ExecutorOption (W := W))) :
  Forall keeps_retryStrategy options ->
  forall e, retryStrategy (fold_left (fun executor option => option executor) options e)
            = retryStrategy e.
Proof.
  induction 1 as [|o options Ho _ IH]; intros e; cbn [fold_left]; [reflexivity|].
  now rewrite IH, Ho.
Qed.

End Options.

Section SimpleFacts.

Context {T W : Type} `{ZeroValue T}.
Implicit Types (ex : Executor W) (ctx : Ctx W) (task : Task T W).

(** A result is reached within [GetMaxAttempts() + 1] iterations, whatever
    bound was given. *)
Lemma Execute_run_bounded fuel ex ctx task w r err w' tr :
  GetMaxAttempts (retryStrategy ex) < I64.max_int ->
  Execute fuel ex ctx task w = ((Some (r, err), w'), tr) ->
  exists n, (n <= S (Z.to_nat (GetMaxAttempts (retryStrategy ex))))%nat /\
    run ex (GetMaxAttempts (retryStrategy ex)) n 1
      {| Value := zero_value; Error := None; Attempt := 0 |} r err tr.
Proof.
  intros Hmax Hrun.
  destruct (Execute_total ex ctx task w Hmax) as (r0 & err0 & w0 & tr0 & Hrun0).
  set (fuel0 := S (Z.to_nat (GetMaxAttempts (retryStrategy ex)))) in *.
  assert (Hsame : ((Some (r0, err0), w0), tr0) = ((Some (r, err), w'), tr)).
  { unfold Execute in *.
    rewrite <- (attempts_fuel_mono _ _ _ _ _ (Nat.max fuel fuel0) _ _ _ _ _ _
                  (Nat.le_max_r fuel fuel0) Hrun0).
    apply (attempts_fuel_mono _ _ _ _ _ (Nat.max fuel fuel0) _ _ _ _ _ _
             (Nat.le_max_l fuel fuel0) Hrun). }
  rewrite Hsame in Hrun0. now apply Execute_run in Hrun0.
Qed.

(** [ExecuteSimple] in terms of [Execute]. *)
Lemma ExecuteSimple_Execute fuel ex ctx task w v err w' tr :
  ExecuteSimple fuel ex ctx task w = ((Some (v, err), w'), tr) ->
  exists r,
    Execute fuel ex ctx task w = ((Some (r, err), w'), tr) /\
    v = match err with Some _ => zero_value | None => Value r end.
Proof.
  unfold ExecuteSimple, bind.
  destruct (Execute fuel ex ctx task w) as [[[[r e]|] w1] tr1] eqn:HE.
  2:{ unfold ret. discriminate. }
  pose proof HE as Hrun. apply Execute_run in Hrun as (n & _ & Hrun).
  destruct (run_error _ _ _ _ _ _ _ _ Hrun) as [He _].
  destruct e as [e|]; unfold ret; intros [= <- <- <- <-]; rewrite app_nil_r.
  - exists r. auto.
  - exists r. rewrite <- He. auto.
Qed.

(** A nil error comes from a task run that succeeded, the last event,
    unless no attempt was allowed. *)
Lemma Execute_nil_error fuel ex ctx task w r w' tr :
  Execute fuel ex ctx task w = ((Some (r, None), w'), tr) ->
  (GetMaxAttempts (retryStrategy ex) < 1 /\ tr = [] /\
   r = {| Value := zero_value; Error := None; Attempt := 0 |}) \/
  (exists pre attempt timeout w0 w1,
      tr = pre ++ [EvTask attempt timeout (Value r) None] /\
      task ctx timeout w0 = ((Value r, None), w1)).
Proof.
  intros HE.
  pose proof HE as Hfrom. unfold Execute in Hfrom. apply attempts_from_task in Hfrom.
  apply Execute_run in HE as (n & _ & Hrun).
  destruct (run_nil_error _ _ _ _ _ _ _ _ Hrun eq_refl)
    as [(-> & -> & Hlt) | (pre & a' & t & v' & -> & ->)].
  - left. auto.
  - right. cbn [Value].
    apply List.Forall_app in Hfrom as [_ Hlast].
    apply List.Forall_cons_iff in Hlast as [(w0 & w2 & Htask) _].
    exists pre, a', t, w0, w2. auto.
Qed.

(** An executor call whose strategies are known: at most [GetMaxAttempts()]
    task runs, each a call of the task under the strategy's timeout. *)
Lemma ExecuteSimple_task_runs fuel ex ctx task w v err w' tr :
  GetMaxAttempts (retryStrategy ex) < I64.max_int ->
  ExecuteSimple fuel ex ctx task w = ((Some (v, err), w'), tr) ->
  Z.of_nat (length (task_runs tr)) <= Z.max 0 (GetMaxAttempts (retryStrategy ex)) /\
  Forall (follows_strategies ex) tr /\
  Forall (from_task ctx task) tr.
Proof.
  intros Hmax HS. apply ExecuteSimple_Execute in HS as (r & HE & _).
  pose proof HE as Hfrom. unfold Execute in Hfrom. apply attempts_from_task in Hfrom.
  apply Execute_run_bounded in HE as (n & Hn & Hrun); [|exact Hmax].
  repeat split; trivial.
  - destruct (run_task_attempts ex _ _ _ _ _ _ _ Hrun) as (k & Hatt & _ & Hk).
    + unfold I64.min_int. lia.
    + unfold I64.max_int in *. lia.
    + reflexivity.
    + unfold task_attempts in Hatt.
      rewrite <- (length_map (fun run => fst (fst run))), Hatt, length_attempt_range. lia.
  - exact (run_follows_strategies ex _ _ _ _ _ _ _ eq_refl Hrun).
Qed.

End SimpleFacts.

(** X5.  What [ExecuteSimple] hands back.  With a non-nil error the value is
    the zero value of its type, whatever the task returned beside its error.
    With a nil error the value is the one the last task run returned with a
    nil error, that run being the last event; unless [GetMaxAttempts()] is
    below 1, when nothing was run and the value is the zero value. *)
Theorem ExecuteSimple_value {T W : Type} `{ZeroValue T}
    (fuel : nat) (ex : Executor W) (ctx : Ctx W) (task : Task T W) (w : W)
    (v : T) (err : option error) (w' : W) (tr : list (event T)) :
  ExecuteSimple fuel ex ctx task w = ((Some (v, err), w'), tr) ->
  match err with
  | Some _ => v = zero_value
  | None =>
      (GetMaxAttempts (retryStrategy ex) < 1 /\ tr = [] /\ v = zero_value) \/
      (exists pre attempt timeout w0 w1,
          tr = pre ++ [EvTask attempt timeout v None] /\
          task ctx timeout w0 = ((v, None), w1))
  end.
Proof.
  intros HS. apply ExecuteSimple_Execute in HS as (r & HE & ->).
  destruct err as [e|]; [reflexivity|].
  destruct (Execute_nil_error _ _ _ _ _ _ _ _ HE) as [(Hlt & -> & ->) | Hrun].
  - left. auto.
  - right. exact Hrun.
Qed.

Lemma ExecuteSimple_value_witness :
  exists pre attempt timeout w0 w1,
    [EvTask 1 (30 * Second) 0 (Some (errors_New "temporary failure"));
     EvShouldRetry 1 (Some (errors_New "temporary failure")) true;
     EvWait 1 (10 * Millisecond) None;
     EvTask 2 (30 * Second) 42 None]
    = pre ++ [EvTask attempt timeout 42 None] /\
    succeeds_at 2 Background timeout w0 = ((42, None), w1).
Proof.
  pose proof (ExecuteSimple_value 3
           (NewExecutor (H := amd64)
              [WithRetryStrategy (NewFixedDelayStrategy 3 (10 * Millisecond))])
           Background (succeeds_at 2) 0%nat 42 None 2%nat
           [EvTask 1 (30 * Second) 0 (Some (errors_New "temporary failure"));
            EvShouldRetry 1 (Some (errors_New "temporary failure")) true;
            EvWait 1 (10 * Millisecond) None;
            EvTask 2 (30 * Second) 42 None] eq_refl) as [(Hlt & _) | Hrun].
  - exfalso. cbn in Hlt. lia.
  - exact Hrun.
Defined.

(** X6.  Retries are exhausted exactly at the ceiling: under a strategy that
    retries every failure below [GetMaxAttempts()] (as the built-in backoff
    strategies do) and a context that is never done, a task that fails at
    every run is run [GetMaxAttempts()] times with [GetMaxAttempts() - 1]
    waits between the runs, and the call returns the last failure with
    Attempt = [GetMaxAttempts()]; this with any bound on the iterations of
    at least [GetMaxAttempts()], also at the largest int. *)
Theorem Execute_exhausts_retries {T W : Type} `{ZeroValue T}
    (fuel : nat) (ex : Executor W) (ctx : Ctx W) (task : Task T W) (w : W) :
  retries_below_ceiling (retryStrategy ex) ->
  fails_always task ->
  never_done ctx ->
  1 <= GetMaxAttempts (retryStrategy ex) <= I64.max_int ->
  GetMaxAttempts (retryStrategy ex) <= Z.of_nat fuel ->
  exists r e w' tr,
    Execute fuel ex ctx task w = ((Some (r, Some e), w'), tr) /\
    Attempt r = GetMaxAttempts (retryStrategy ex) /\
    Error r = Some e /\
    Z.of_nat (length (task_runs tr)) = GetMaxAttempts (retryStrategy ex) /\
    Z.of_nat (length (waits tr)) = GetMaxAttempts (retryStrategy ex) - 1.
Proof.
  intros Hrule Hfails Hnever [Hone Hmax] Hfuel.
  set (maxA := GetMaxAttempts (retryStrategy ex)) in *.
  destruct (attempts_exhaust ex ctx task maxA Hrule Hfails Hnever Hmax
              (Z.to_nat (maxA - 1)) 1
              {| Value := zero_value; Error := None; Attempt := 0 |} w)
    as (r & e & w' & tr & Hrun & Hatt & Herr & Hruns & Hwaits).
  - unfold I64.min_int. lia.
  - lia.
  - apply (f_equal (@length _)) in Hruns, Hwaits.
    unfold task_attempts in Hruns.
    rewrite length_map, !length_attempt_range in *.
    exists r, e, w', tr. repeat split; trivial; [|lia|lia].
    unfold Execute. fold maxA.
    apply (attempts_fuel_mono ex ctx task maxA (S (Z.to_nat (maxA - 1)))); [lia|exact Hrun].
Qed.

Lemma Execute_exhausts_retries_witness :
  exists r e w' tr,
    Execute 5 (NewExecutor (H := amd64)
                 [WithRetryStrategy (NewLinearBackoffStrategy 3 Millisecond Millisecond)])
      Background always_fails 0%nat
    = ((Some (r, Some e), w'), tr) /\
    Attempt r = 3 /\
    Error r = Some e /\
    Z.of_nat (length (task_runs tr)) = 3 /\
    Z.of_nat (length (waits tr)) = 3 - 1.
Proof.
  apply (Execute_exhausts_retries (T := string) 5
           (NewExecutor (H := amd64)
              [WithRetryStrategy (NewLinearBackoffStrategy 3 Millisecond Millisecond)])
           Background always_fails 0%nat).
  - intros attempt e. cbn. unfold LinearBackoffStrategy.ShouldRetry. cbn.
    destruct (Z.geb_spec attempt 3), (Z.ltb_spec attempt 3); trivial; lia.
  - intros ctx timeout w. cbn. discriminate.
  - intros delay w. reflexivity.
  - cbn. unfold I64.max_int. lia.
  - cbn. lia.
Defined.

(** X7.  [Execute] returns: when [GetMaxAttempts()] is below the largest
    int, the loop ends within [GetMaxAttempts() + 1] evaluations of its
    condition (one, when that is negative), for every task, context,
    strategy answers and world, and the outcome is the same for every
    larger bound. *)
Theorem Execute_returns {T W : Type} `{ZeroValue T}
    (ex : Executor W) (ctx : Ctx W) (task : Task T W) (w : W) :
  GetMaxAttempts (retryStrategy ex) < I64.max_int ->
  exists r err w' tr,
    forall fuel : nat,
      (S (Z.to_nat (GetMaxAttempts (retryStrategy ex))) <= fuel)%nat ->
      Execute fuel ex ctx task w = ((Some (r, err), w'), tr).
Proof.
  intros Hmax.
  destruct (Execute_total ex ctx task w Hmax) as (r & err & w' & tr & Hrun).
  exists r, err, w', tr. intros fuel Hfuel.
  unfold Execute in *. now apply (attempts_fuel_mono _ _ _ _ _ _ _ _ _ _ _ _ Hfuel).
Qed.

Lemma Execute_returns_witness :
  exists r err w' tr,
    forall fuel : nat,
      (S (Z.to_nat 3) <= fuel)%nat ->
      Execute fuel (NewExecutor (H := amd64) []) Background always_fails 0%nat
      = ((Some (r, err), w'), tr).
Proof.
  apply (Execute_returns (T := string) (NewExecutor (H := amd64) [])
           Background always_fails 0%nat).
  cbn. unfold I64.max_int. lia.
Defined.

(** X8.  The bound in X7 is needed: a strategy of the caller's own whose
    [GetMaxAttempts()] is the largest int and whose [ShouldRetry] accepts
    every failure keeps a task that always fails running for ever (under a
    context that is never done): the loop condition [attempt <= maxAttempts]
    then holds for every int, the increment wrapping around, so that no
    bound on the iterations is enough, and each iteration runs the task. *)
Theorem Execute_need_not_return {T W : Type} `{ZeroValue T}
    (fuel : nat) (ex : Executor W) (ctx : Ctx W) (task : Task T W) (w : W) :
  GetMaxAttempts (retryStrategy ex) = I64.max_int ->
  (forall attempt e, ShouldRetry (retryStrategy ex) attempt (Some e) = true) ->
  fails_always task ->
  never_done ctx ->
  exists w' tr,
    Execute fuel ex ctx task w = ((None, w'), tr) /\
    length (task_runs tr) = fuel.
Proof.
  intros Hmax Hrule Hfails Hnever. unfold Execute. rewrite Hmax.
  apply attempts_forever; trivial. unfold I64.max_int. lia.
Qed.

Lemma Execute_need_not_return_witness :
  exists w' tr,
    Execute 4
      (NewExecutor (H := amd64)
         [WithRetryStrategy (Build_RetryStrategy (fun _ _ => true) (fun _ => 0) I64.max_int)])
      Background always_fails 0%nat
    = ((None, w'), tr) /\
    length (task_runs tr) = 4%nat.
Proof.
  apply (Execute_need_not_return (T := string) 4
           (NewExecutor (H := amd64)
              [WithRetryStrategy
                 (Build_RetryStrategy (fun _ _ => true) (fun _ => 0) I64.max_int)])
           Background always_fails 0%nat).
  - reflexivity.
  - intros attempt e. reflexivity.
  - intros ctx timeout w. cbn. discriminate.
  - intros delay w. reflexivity.
Defined.

(** X9.  [ExecuteWithTimeout] runs the task exactly once, under the given
    timeout, and never waits.  A nil error hands the task's value back; a
    failure is passed to [ShouldRetry], which refuses, and comes back with
    the zero value in place of the task's. *)
Theorem ExecuteWithTimeout_runs_once {T W : Type} `{Arch} `{ZeroValue T}
    (fuel : nat) (ctx : Ctx W) (timeout : Duration) (task : Task T W) (w : W) :
  ExecuteWithTimeout (S fuel) ctx timeout task w
  = let '((v, err), w1) := task ctx timeout w in
    match err with
    | None => ((Some (v, None), w1), [EvTask 1 timeout v None])
    | Some e =>
        ((Some (zero_value, Some e), w1),
         [EvTask 1 timeout v (Some e); EvShouldRetry 1 (Some e) false])
    end.
Proof.
  unfold ExecuteWithTimeout, ExecuteSimple, Execute, bind. cbn.
  unfold bind, notify_timeout, run_task. cbn.
  destruct (task ctx timeout w) as [[v [e|]] w1]; reflexivity.
Qed.

(** X10.  With [maxRetries] = 0, [ExecuteWithRetries] is
    [ExecuteWithTimeout]: same value, error, world and events, whatever the
    delay. *)
Theorem ExecuteWithRetries_without_retries {T W : Type} `{Arch} `{ZeroValue T}
    (fuel : nat) (ctx : Ctx W) (delay timeout : Duration) (task : Task T W) (w : W) :
  ExecuteWithRetries fuel ctx 0 delay timeout task w
  = ExecuteWithTimeout fuel ctx timeout task w.
Proof.
  destruct fuel as [|fuel]; [reflexivity|].
  unfold ExecuteWithRetries, ExecuteWithTimeout.
  replace (I64.add 0 1) with 1 by (vm_compute; reflexivity).
  unfold ExecuteSimple, Execute, bind. cbn.
  unfold bind, notify_timeout, run_task. cbn.
  destruct (task ctx timeout w) as [[v [e|]] w1]; reflexivity.
Qed.

(** X11.  [ExecuteWithRetries] with a negative [maxRetries], or with the
    largest int (for which [maxRetries+1] wraps around to the smallest),
    does not run the task at all: it returns the zero value and a nil
    error, leaving the world as it was. *)
Theorem ExecuteWithRetries_never_runs {T W : Type} `{Arch} `{ZeroValue T}
    (fuel : nat) (ctx : Ctx W) (maxRetries : GoInt) (delay timeout : Duration)
    (task : Task T W) (w : W) :
  I64.min_int <= maxRetries <= I64.max_int ->
  maxRetries < 0 \/ maxRetries = I64.max_int ->
  ExecuteWithRetries (S fuel) ctx maxRetries delay timeout task w
  = ((Some (zero_value, None), w), []).
Proof.
  intros Hrange Hneg.
  unfold ExecuteWithRetries, ExecuteSimple, Execute, bind. cbn [NewExecutor fold_left
    WithRetryStrategy WithTimeoutStrategy retryStrategy timeoutStrategy GetMaxAttempts
    FixedDelayStrategy.iface FixedDelayStrategy.GetMaxAttempts NewFixedDelayStrategy
    FixedDelayStrategy.maxAttempts attempts].
  assert (Hle : I64.add maxRetries 1 < 1).
  { destruct Hneg as [Hneg | ->].
    - unfold I64.add. rewrite wrap_in_range; unfold I64.min_int, I64.max_int in *; lia.
    - vm_compute. reflexivity. }
  destruct (Z.leb_spec 1 (I64.add maxRetries 1)); [lia|].
  reflexivity.
Qed.

Lemma ExecuteWithRetries_never_runs_witness :
  ExecuteWithRetries (H := amd64) 1 Background (-1) Second Second always_fails 0%nat
  = ((Some (EmptyString, None), 0%nat), []).
Proof.
  apply (ExecuteWithRetries_never_runs (H := amd64) (T := string) 0 Background (-1)
           Second Second always_fails 0%nat).
  - unfold I64.min_int, I64.max_int. lia.
  - left. lia.
Defined.

(** X12.  Options are applied in order, the last one of a kind winning:
    the executor's retry strategy is the one of the last [WithRetryStrategy]
    among the options, when the options after it leave the retry strategy
    alone, as [WithTimeoutStrategy] and the two callback options do. *)
Theorem NewExecutor_last_retry_strategy {W : Type} `{Arch}
    (pre post : list (ExecutorOption (W := W))) (strategy : RetryStrategy) :
  Forall keeps_retryStrategy post ->
  retryStrategy (NewExecutor (pre ++ WithRetryStrategy strategy :: post)) = strategy.
Proof.
  intros Hpost. unfold NewExecutor.
  rewrite fold_left_app. cbn [fold_left].
  exact (fold_options_keep_retryStrategy post Hpost _).
Qed.

Lemma NewExecutor_last_retry_strategy_witness :
  retryStrategy
    (NewExecutor (H := amd64) (W := nat)
       ([WithRetryStrategy NewNoRetryStrategy; WithRetryCallback (Some quiet_onRetry)]
        ++ WithRetryStrategy (NewFixedDelayStrategy 5 Second)
        :: [WithTimeoutStrategy (NewFixedTimeoutStrategy Second);
            WithTimeoutCallback (Some quiet_onTimeout);
            WithRetryCallback None]))
  = NewFixedDelayStrategy 5 Second.
Proof.
  apply (NewExecutor_last_retry_strategy (H := amd64) (W := nat)).
  repeat constructor.
Defined.

(** ** The built-in strategies *)

(** X13.  No built-in strategy asks for a retry at or beyond its ceiling:
    [ShouldRetry(attempt, err)] is true only for [attempt] below
    [GetMaxAttempts()]; [NoRetryStrategy] never asks.  The three backoff
    strategies ask exactly for the non-nil errors below the ceiling, so each
    of them retries every failure below the ceiling; a conditional strategy
    consults its function only below the ceiling. *)
Theorem ShouldRetry_only_below_ceiling `{Arch} :
  (forall (e : ExponentialBackoffStrategy.t) attempt err,
      ShouldRetry e attempt err = (attempt <? GetMaxAttempts e) && notNil err) /\
  (forall (l : LinearBackoffStrategy.t) attempt err,
      ShouldRetry l attempt err = (attempt <? GetMaxAttempts l) && notNil err) /\
  (forall (f : FixedDelayStrategy.t) attempt err,
      ShouldRetry f attempt err = (attempt <? GetMaxAttempts f) && notNil err) /\
  (forall (n : NoRetryStrategy.t) attempt err, ShouldRetry n attempt err = false) /\
  (forall (c : ConditionalRetryStrategy.t) attempt err,
      ShouldRetry c attempt err = true -> attempt < GetMaxAttempts c) /\
  (forall (e : ExponentialBackoffStrategy.t), retries_below_ceiling e) /\
  (forall (l : LinearBackoffStrategy.t), retries_below_ceiling l) /\
  (forall (f : FixedDelayStrategy.t), retries_below_ceiling f).
Proof.
  repeat split.
  - intros e attempt err. cbn. unfold ExponentialBackoffStrategy.ShouldRetry,
      ExponentialBackoffStrategy.GetMaxAttempts.
    destruct (Z.geb_spec attempt (ExponentialBackoffStrategy.maxAttempts e)),
      (Z.ltb_spec attempt (ExponentialBackoffStrategy.maxAttempts e)); trivial; lia.
  - intros l attempt err. cbn. unfold LinearBackoffStrategy.ShouldRetry,
      LinearBackoffStrategy.GetMaxAttempts.
    destruct (Z.geb_spec attempt (LinearBackoffStrategy.maxAttempts l)),
      (Z.ltb_spec attempt (LinearBackoffStrategy.maxAttempts l)); trivial; lia.
  - intros f attempt err. cbn. unfold FixedDelayStrategy.ShouldRetry,
      FixedDelayStrategy.GetMaxAttempts.
    destruct (Z.geb_spec attempt (FixedDelayStrategy.maxAttempts f)),
      (Z.ltb_spec attempt (FixedDelayStrategy.maxAttempts f)); trivial; lia.
  - intros c attempt err. cbn. unfold ConditionalRetryStrategy.ShouldRetry,
      ConditionalRetryStrategy.GetMaxAttempts.
    destruct (Z.geb_spec attempt (ConditionalRetryStrategy.maxAttempts c));
      [discriminate|lia].
  - intros e attempt err. cbn. unfold ExponentialBackoffStrategy.ShouldRetry,
      ExponentialBackoffStrategy.GetMaxAttempts.
    destruct (Z.geb_spec attempt (ExponentialBackoffStrategy.maxAttempts e)),
      (Z.ltb_spec attempt (ExponentialBackoffStrategy.maxAttempts e)); trivial; lia.
  - intros l attempt err. cbn. unfold LinearBackoffStrategy.ShouldRetry,
      LinearBackoffStrategy.GetMaxAttempts.
    destruct (Z.geb_spec attempt (LinearBackoffStrategy.maxAttempts l)),
      (Z.ltb_spec attempt (LinearBackoffStrategy.maxAttempts l)); trivial; lia.
  - intros f attempt err. cbn. unfold FixedDelayStrategy.ShouldRetry,
      FixedDelayStrategy.GetMaxAttempts.
    destruct (Z.geb_spec attempt (FixedDelayStrategy.maxAttempts f)),
      (Z.ltb_spec attempt (FixedDelayStrategy.maxAttempts f)); trivial; lia.
Qed.

(** X14.  The caps hold whatever the arithmetic before them gives
    (overflow, NaN or an out-of-range conversion included): an exponential
    delay never exceeds [maxDelay], a progressive or linear timeout never
    exceeds [maxTimeout]. *)
Theorem capped_strategies_stay_below_cap `{Arch} :
  (forall (e : ExponentialBackoffStrategy.t) attempt,
      GetDelay e attempt <= ExponentialBackoffStrategy.maxDelay e) /\
  (forall (p : ProgressiveTimeoutStrategy.t) attempt,
      GetTimeout p attempt <= ProgressiveTimeoutStrategy.maxTimeout p) /\
  (forall (l : LinearTimeoutStrategy.t) attempt,
      GetTimeout l attempt <= LinearTimeoutStrategy.maxTimeout l).
Proof.
  repeat split.
  - intros e attempt. cbn. unfold ExponentialBackoffStrategy.GetDelay. cbv zeta.
    match goal with |- context [?x >? ?y] => destruct (Z.gtb_spec x y) end; lia.
  - intros p attempt. cbn. unfold ProgressiveTimeoutStrategy.GetTimeout. cbv zeta.
    match goal with |- context [?x >? ?y] => destruct (Z.gtb_spec x y) end; lia.
  - intros l attempt. cbn. unfold LinearTimeoutStrategy.GetTimeout. cbv zeta.
    match goal with |- context [?x >? ?y] => destruct (Z.gtb_spec x y) end; lia.
Qed.

(** X15.  Linear backoff and linear timeouts follow their formulas as long
    as the sum stays within an int64: for a non-negative base and increment
    and an attempt from 1 on with [base + (attempt-1)*increment <= MaxInt64],
    the delay is exactly that sum and the timeout is the smaller of that sum
    and [maxTimeout]. *)
Theorem linear_strategies_exact (base increment cap : Duration) (maxAttempts attempt : GoInt) :
  0 <= base ->
  0 <= increment ->
  1 <= attempt <= I64.max_int ->
  base + (attempt - 1) * increment <= I64.max_int ->
  GetDelay (NewLinearBackoffStrategy maxAttempts base increment) attempt
  = base + (attempt - 1) * increment /\
  GetTimeout (NewLinearTimeoutStrategy base increment cap) attempt
  = Z.min (base + (attempt - 1) * increment) cap.
Proof.
  intros Hbase Hinc Hatt Hsum.
  assert (Hprod : 0 <= (attempt - 1) * increment) by nia.
  assert (Hlin : I64.add base (I64.mul (I64.sub attempt 1) increment)
                 = base + (attempt - 1) * increment).
  { unfold I64.add, I64.mul, I64.sub.
    rewrite (wrap_in_range (attempt - 1)) by (unfold I64.min_int, I64.max_int in *; lia).
    rewrite (wrap_in_range ((attempt - 1) * increment))
      by (unfold I64.min_int, I64.max_int in *; lia).
    apply wrap_in_range. unfold I64.min_int, I64.max_int in *. lia. }
  split.
  - cbn. unfold LinearBackoffStrategy.GetDelay. cbn. exact Hlin.
  - cbn. unfold LinearTimeoutStrategy.GetTimeout. cbn. rewrite Hlin.
    destruct (Z.gtb_spec (base + (attempt - 1) * increment) cap); lia.
Qed.

Lemma linear_strategies_exact_witness :
  GetDelay (NewLinearBackoffStrategy 5 (100 * Millisecond) (50 * Millisecond)) 3
  = 100 * Millisecond + (3 - 1) * (50 * Millisecond) /\
  GetTimeout (NewLinearTimeoutStrategy (100 * Millisecond) (50 * Millisecond)
                (150 * Millisecond)) 3
  = Z.min (100 * Millisecond + (3 - 1) * (50 * Millisecond)) (150 * Millisecond).
Proof.
  apply (linear_strategies_exact (100 * Millisecond) (50 * Millisecond)
           (150 * Millisecond) 5 3).
  - unfold Millisecond. lia.
  - unfold Millisecond. lia.
  - unfold I64.max_int. lia.
  - unfold Millisecond, I64.max_int. lia.
Defined.

(** ** Configuration *)

Section ConfigFacts.

Context `{config.Library}.

Lemma eqb_empty (s : string) : String.eqb s EmptyString = false <-> s <> EmptyString.
Proof. destruct (String.eqb_spec s EmptyString); split; congruence. Qed.

(** What [Validate] accepts. *)
Lemma Validate_None (c : config.Config.t) :
  config.Validate c = None <->
  c.(config.Config.DDNS).(config.DDNSConfig.Domain) <> EmptyString /\
  c.(config.Config.DDNS).(config.DDNSConfig.APIKey) <> EmptyString /\
  1 <= c.(config.Config.Server).(config.ServerConfig.Port) <= 65535 /\
  0 <= c.(config.Config.HTTP).(config.HTTPConfig.MaxRetries).
Proof.
  unfold config.Validate.
  destruct (String.eqb_spec (config.DDNSConfig.Domain (config.Config.DDNS c)) EmptyString)
    as [Hd|Hd]; [split; [discriminate|tauto]|].
  destruct (String.eqb_spec (config.DDNSConfig.APIKey (config.Config.DDNS c)) EmptyString)
    as [Hk|Hk]; [split; [discriminate|tauto]|].
  destruct (Z.ltb_spec (config.ServerConfig.Port (config.Config.Server c)) 1);
    cbn [orb]; [split; [discriminate|lia]|].
  destruct (Z.gtb_spec (config.ServerConfig.Port (config.Config.Server c)) 65535);
    [split; [discriminate|lia]|].
  destruct (Z.ltb_spec (config.HTTPConfig.MaxRetries (config.Config.HTTP c)) 0);
    [split; [discriminate|lia]|].
  split; [intros _; repeat split; trivial; lia|reflexivity].
Qed.

(** [Load] reads the environment through [os.Getenv] only. *)
Lemma Load_Getenv (env env' : os.Env) :
  (forall key, os.Getenv env' key = os.Getenv env key) ->
  config.Load env' = config.Load env.
Proof.
  intros Hget.
  unfold config.Load, config.loadFromJSON, config.getConfigPath,
    config.loadFromEnvironment, config.getEnv, config.getEnvAsInt, config.getEnvAsDuration.
  now rewrite !Hget.
Qed.

(** After a failed read or parse of the file, the outcome is that of the
    environment. *)
Lemma Load_fallback (env : os.Env) :
  snd (config.loadFromJSON env config.Config.zero) <> None ->
  config.Load env
  = match config.Validate (config.loadFromEnvironment env config.Config.zero) with
    | Some err => inr (Errorf_w "config validation failed: " err)
    | None => inl (config.loadFromEnvironment env config.Config.zero)
    end.
Proof.
  unfold config.Load.
  destruct (config.loadFromJSON env config.Config.zero) as [c [e|]]; cbn [snd];
    [reflexivity|congruence].
Qed.

End ConfigFacts.

(** X16.  What [Load] returns has passed [Validate], so that the second
    validation in [loadAndValidateConfig] never fails: that function ends
    the process only with the message of a failed load.  And a failed load
    always reports a failed validation: an unreadable or malformed file is
    never reported, the environment being used in its place. *)
Theorem loadAndValidateConfig_validates_once `{config.Library} (env : os.Env) :
  main.loadAndValidateConfig env
  = match config.Load env with
    | inl cfg => main.Returns cfg
    | inr err => main.Fatal ("Failed to load configuration: " +:+ Error_text err)
    end /\
  (forall cfg, config.Load env = inl cfg -> config.Validate cfg = None) /\
  (forall err, config.Load env = inr err ->
     exists cause, err = Errorf_w "config validation failed: " cause).
Proof.
  assert (Hvalid : forall cfg, config.Load env = inl cfg -> config.Validate cfg = None).
  { unfold config.Load. intros cfg.
    destruct (config.loadFromJSON env config.Config.zero) as [c [e|]].
    - destruct (config.Validate (config.loadFromEnvironment env c)) eqn:Hv;
        [discriminate|]. now intros [= <-].
    - destruct (config.Validate c) eqn:Hv; [discriminate|]. now intros [= <-]. }
  repeat split; trivial.
  - unfold main.loadAndValidateConfig.
    destruct (config.Load env) as [cfg|err] eqn:Hload; [|reflexivity].
    now rewrite (Hvalid cfg eq_refl).
  - unfold config.Load. intros err.
    destruct (config.loadFromJSON env config.Config.zero) as [c [e|]].
    + destruct (config.Validate (config.loadFromEnvironment env c)) eqn:Hv;
        [|discriminate]. intros [= <-]. eauto.
    + destruct (config.Validate c) eqn:Hv; [|discriminate]. intros [= <-]. eauto.
Qed.

(** X17.  The defaults.  When the file cannot be loaded, the domain and the
    API key are set, and every other variable is unset, empty or (for the
    numbers and durations) unparsable, [Load] succeeds with port 8080, host
    localhost, timeouts of 30s, provider duckdns, an interval of 5 minutes,
    3 retries 1s apart and the user agent ddns-client/1.0: a value that does
    not parse is replaced by its default without any report. *)
Theorem Load_defaults `{config.Library} (env : os.Env) (domain apiKey : string) :
  snd (config.loadFromJSON env config.Config.zero) <> None ->
  os.Getenv env "DDNS_DOMAIN" = domain -> domain <> EmptyString ->
  os.Getenv env "DDNS_API_KEY" = apiKey -> apiKey <> EmptyString ->
  (forall key, In key ["SERVER_HOST"; "DDNS_PROVIDER"; "HTTP_USER_AGENT"]%string ->
     os.Getenv env key = EmptyString) ->
  (forall key, In key ["SERVER_PORT"; "HTTP_MAX_RETRIES"]%string ->
     os.Getenv env key = EmptyString \/ config.Atoi (os.Getenv env key) = None) ->
  (forall key, In key ["SERVER_READ_TIMEOUT"; "SERVER_WRITE_TIMEOUT"; "DDNS_UPDATE_INTERVAL";
                       "HTTP_TIMEOUT"; "HTTP_RETRY_DELAY"]%string ->
     os.Getenv env key = EmptyString \/ config.ParseDuration (os.Getenv env key) = None) ->
  config.Load env
  = inl {| config.Config.Server :=
             {| config.ServerConfig.Port := 8080;
                config.ServerConfig.Host := "localhost";
                config.ServerConfig.ReadTimeout := 30 * Second;
                config.ServerConfig.WriteTimeout := 30 * Second |};
           config.Config.DDNS :=
             {| config.DDNSConfig.Provider := "duckdns";
                config.DDNSConfig.Domain := domain;
                config.DDNSConfig.APIKey := apiKey;
                config.DDNSConfig.UpdateInterval := 5 * Minute |};
           config.Config.HTTP :=
             {| config.HTTPConfig.Timeout := 30 * Second;
                config.HTTPConfig.MaxRetries := 3;
                config.HTTPConfig.RetryDelay := 1 * Second;
                config.HTTPConfig.UserAgent := "ddns-client/1.0" |} |}.
Proof.
  intros Hjson Hdom Hdom' Hkey Hkey' Hstr Hint Hdur.
  assert (Hs : forall key fallback,
             In key ["SERVER_HOST"; "DDNS_PROVIDER"; "HTTP_USER_AGENT"]%string ->
             config.getEnv env key fallback = fallback).
  { intros key fallback Hin. unfold config.getEnv. now rewrite (Hstr key Hin). }
  assert (Hi : forall key fallback,
             In key ["SERVER_PORT"; "HTTP_MAX_RETRIES"]%string ->
             config.getEnvAsInt env key fallback = fallback).
  { intros key fallback Hin. unfold config.getEnvAsInt.
    destruct (Hint key Hin) as [-> | ->]; [reflexivity|].
    now destruct (negb _). }
  assert (Hd : forall key fallback,
             In key ["SERVER_READ_TIMEOUT"; "SERVER_WRITE_TIMEOUT"; "DDNS_UPDATE_INTERVAL";
                     "HTTP_TIMEOUT"; "HTTP_RETRY_DELAY"]%string ->
             config.getEnvAsDuration env key fallback = fallback).
  { intros key fallback Hin. unfold config.getEnvAsDuration.
    destruct (Hdur key Hin) as [-> | ->]; [reflexivity|].
    now destruct (negb _). }
  assert (Hcfg : config.loadFromEnvironment env config.Config.zero
                 = {| config.Config.Server :=
                        {| config.ServerConfig.Port := 8080;
                           config.ServerConfig.Host := "localhost";
                           config.ServerConfig.ReadTimeout := 30 * Second;
                           config.ServerConfig.WriteTimeout := 30 * Second |};
                      config.Config.DDNS :=
                        {| config.DDNSConfig.Provider := "duckdns";
                           config.DDNSConfig.Domain := domain;
                           config.DDNSConfig.APIKey := apiKey;
                           config.DDNSConfig.UpdateInterval := 5 * Minute |};
                      config.Config.HTTP :=
                        {| config.HTTPConfig.Timeout := 30 * Second;
                           config.HTTPConfig.MaxRetries := 3;
                           config.HTTPConfig.RetryDelay := 1 * Second;
                           config.HTTPConfig.UserAgent := "ddns-client/1.0" |} |}).
  { unfold config.loadFromEnvironment.
    rewrite (Hs "SERVER_HOST"%string), (Hs "DDNS_PROVIDER"%string),
      (Hs "HTTP_USER_AGENT"%string), !Hi, !Hd by (cbn; tauto).
    unfold config.getEnv. rewrite Hdom, Hkey.
    apply eqb_empty in Hdom', Hkey'. now rewrite Hdom', Hkey'. }
  rewrite (Load_fallback env Hjson), Hcfg.
  match goal with |- context [config.Validate ?c] =>
    assert (Hv : config.Validate c = None) end.
  { apply Validate_None. cbn. repeat split; trivial; lia. }
  now rewrite Hv.
Qed.

Lemma Load_defaults_witness :
  config.Load (H := no_config_file)
    (<["DDNS_DOMAIN" := "home.example.org"]>
       (<["DDNS_API_KEY" := "secret"]> (<["SERVER_PORT" := "http"]> ∅)))%string
  = inl {| config.Config.Server :=
             {| config.ServerConfig.Port := 8080;
                config.ServerConfig.Host := "localhost";
                config.ServerConfig.ReadTimeout := 30 * Second;
                config.ServerConfig.WriteTimeout := 30 * Second |};
           config.Config.DDNS :=
             {| config.DDNSConfig.Provider := "duckdns";
                config.DDNSConfig.Domain := "home.example.org";
                config.DDNSConfig.APIKey := "secret";
                config.DDNSConfig.UpdateInterval := 5 * Minute |};
           config.Config.HTTP :=
             {| config.HTTPConfig.Timeout := 30 * Second;
                config.HTTPConfig.MaxRetries := 3;
                config.HTTPConfig.RetryDelay := 1 * Second;
                config.HTTPConfig.UserAgent := "ddns-client/1.0" |} |}.
Proof.
  apply (Load_defaults (H := no_config_file)).
  - vm_compute. discriminate.
  - reflexivity.
  - discriminate.
  - reflexivity.
  - discriminate.
  - intros key [<-|[<-|[<-|[]]]]; reflexivity.
  - intros key [<-|[<-|[]]]; [right|left]; reflexivity.
  - intros key [<-|[<-|[<-|[<-|[<-|[]]]]]]; left; reflexivity.
Defined.

(** X18.  The fallback is all or nothing: once the file has been read and
    parsed, no environment variable but CONFIG_PATH has any effect, also
    for the fields the file leaves out, and also when the outcome is a
    failed validation. *)
Theorem Load_from_file_ignores_environment `{config.Library} (env env' : os.Env) :
  snd (config.loadFromJSON env config.Config.zero) = None ->
  os.Getenv env' "CONFIG_PATH" = os.Getenv env "CONFIG_PATH" ->
  config.Load env' = config.Load env.
Proof.
  intros Hjson Hpath.
  assert (HJ : config.loadFromJSON env' config.Config.zero
               = config.loadFromJSON env config.Config.zero).
  { unfold config.loadFromJSON, config.getConfigPath. now rewrite Hpath. }
  unfold config.Load. rewrite HJ.
  destruct (config.loadFromJSON env config.Config.zero) as [c [e|]]; cbn [snd] in Hjson;
    [discriminate|reflexivity].
Qed.

Lemma Load_from_file_ignores_environment_witness :
  config.Load (H := empty_config_file)
    (<["DDNS_DOMAIN" := "home.example.org"]> (<["DDNS_API_KEY" := "secret"]> ∅))%string
  = config.Load (H := empty_config_file) ∅.
Proof.
  apply (Load_from_file_ignores_environment (H := empty_config_file)); reflexivity.
Defined.

(** X19.  A variable set to the empty string counts as unset, CONFIG_PATH
    included: setting any variable to the empty string gives what removing
    it gives. *)
Theorem Load_empty_variable_is_unset `{config.Library} (env : os.Env) (key : string) :
  config.Load (<[key := EmptyString]> env) = config.Load (delete key env).
Proof.
  apply Load_Getenv. intros k. unfold os.Getenv.
  destruct (decide (key = k)) as [->|Hne].
  - now rewrite lookup_insert_eq, lookup_delete_eq.
  - now rewrite lookup_insert_ne, lookup_delete_ne.
Qed.

(** X20.  From the environment, [Load] succeeds exactly when the domain and
    the API key are not empty, the port (parsed, or 8080) lies in 1..65535
    and the retries (parsed, or 3) are not negative; so that a port that
    parses but is out of range is rejected where one that does not parse is
    replaced, and no duration, host, provider or user agent is ever
    rejected. *)
Theorem Load_from_environment_succeeds `{config.Library} (env : os.Env) :
  snd (config.loadFromJSON env config.Config.zero) <> None ->
  ((exists cfg, config.Load env = inl cfg) <->
   os.Getenv env "DDNS_DOMAIN" <> EmptyString /\
   os.Getenv env "DDNS_API_KEY" <> EmptyString /\
   1 <= config.getEnvAsInt env "SERVER_PORT" 8080 <= 65535 /\
   0 <= config.getEnvAsInt env "HTTP_MAX_RETRIES" 3).
Proof.
  intros Hjson. rewrite (Load_fallback env Hjson).
  assert (Hget : forall key, config.getEnv env key EmptyString = os.Getenv env key).
  { intros key. unfold config.getEnv.
    destruct (String.eqb_spec (os.Getenv env key) EmptyString) as [->|]; reflexivity. }
  pose proof (Validate_None (config.loadFromEnvironment env config.Config.zero)) as Hv.
  cbn in Hv. rewrite !Hget in Hv. rewrite <- Hv.
  destruct (config.Validate (config.loadFromEnvironment env config.Config.zero)).
  - split; [intros [cfg Hcfg]; discriminate|discriminate].
  - split; eauto.
Qed.

Lemma Load_from_environment_succeeds_witness :
  (exists cfg,
      config.Load (H := no_config_file)
        (<["DDNS_DOMAIN" := "home.example.org"]>
           (<["DDNS_API_KEY" := "secret"]> (<["SERVER_PORT" := "70000"]> ∅)))%string
      = inl cfg) <->
  os.Getenv (<["DDNS_DOMAIN" := "home.example.org"]>
               (<["DDNS_API_KEY" := "secret"]> (<["SERVER_PORT" := "70000"]> ∅)))%string
    "DDNS_DOMAIN" <> EmptyString /\
  os.Getenv (<["DDNS_DOMAIN" := "home.example.org"]>
               (<["DDNS_API_KEY" := "secret"]> (<["SERVER_PORT" := "70000"]> ∅)))%string
    "DDNS_API_KEY" <> EmptyString /\
  1 <= config.getEnvAsInt (H := no_config_file)
         (<["DDNS_DOMAIN" := "home.example.org"]>
            (<["DDNS_API_KEY" := "secret"]> (<["SERVER_PORT" := "70000"]> ∅)))%string
         "SERVER_PORT" 8080 <= 65535 /\
  0 <= config.getEnvAsInt (H := no_config_file)
         (<["DDNS_DOMAIN" := "home.example.org"]>
            (<["DDNS_API_KEY" := "secret"]> (<["SERVER_PORT" := "70000"]> ∅)))%string
         "HTTP_MAX_RETRIES" 3.
Proof.
  apply (Load_from_environment_succeeds (H := no_config_file)).
  vm_compute. discriminate.
Defined.

(** ** The provider factory *)

(** X21.  [ValidateProviderConfig] and [CreateProvider] agree: the one
    accepts a configuration exactly when the other creates a provider, and
    they report the same error otherwise.  The error is the one for an
    unsupported provider exactly for the names that
    [GetSupportedProviders] does not list. *)
Theorem ValidateProviderConfig_agrees_with_CreateProvider {W : Type} `{Arch}
    (config : ddns.Config.t) :
  providers.ValidateProviderConfig config
  = match providers.CreateProvider (W := W) config with
    | inl _ => None
    | inr err => Some err
    end /\
  (providers.ValidateProviderConfig config
   = Some (errors_New ("unsupported DDNS provider: " +:+ config.(ddns.Config.Provider)))
   <-> ~ In config.(ddns.Config.Provider) providers.GetSupportedProviders).
Proof.
  unfold providers.ValidateProviderConfig, providers.CreateProvider,
    providers.GetSupportedProviders.
  destruct (String.eqb_spec (ddns.Config.Provider config) "duckdns") as [->|Hd].
  - split.
    + now destruct (String.eqb (ddns.Config.APIKey config) EmptyString).
    + split; [|cbn; tauto].
      destruct (String.eqb (ddns.Config.APIKey config) EmptyString); discriminate.
  - destruct (String.eqb_spec (ddns.Config.Provider config) "mock") as [->|Hm].
    + split; [reflexivity|]. split; [discriminate|cbn; tauto].
    + split; [reflexivity|]. split; [|reflexivity].
      intros _ [Heq|[Heq|[]]]; congruence.
Qed.

(** X22.  After [Validate], creating the provider in [setupDDNSService] can
    fail for one reason only, a provider name that is not supported: the
    API key has been checked, and is the token the DuckDNS provider gets,
    with an executor of three attempts.  No check before this one looks at
    the provider name. *)
Theorem createProvider_after_Validate {W : Type} `{Arch} `{config.Library}
    (cfg : config.Config.t) :
  config.Validate cfg = None ->
  main.createProvider (W := W) cfg
  = let name := cfg.(config.Config.DDNS).(config.DDNSConfig.Provider) in
    if String.eqb name "duckdns" then
      main.Returns
        (providers.OfDuckDNS
           {| providers.DuckDNSProvider.token :=
                cfg.(config.Config.DDNS).(config.DDNSConfig.APIKey);
              providers.DuckDNSProvider.executor :=
                NewExecutor [WithRetryStrategy (NewExponentialBackoffStrategy 3 Second 2);
                             WithTimeoutStrategy (NewFixedTimeoutStrategy (30 * Second))] |})
    else if String.eqb name "mock" then
      main.Returns (providers.OfMock (providers.NewMockProvider "test"))
    else main.Fatal ("Failed to create provider: unsupported DDNS provider: " +:+ name).
Proof.
  intros Hvalid. apply Validate_None in Hvalid as (_ & Hkey & _).
  apply eqb_empty in Hkey.
  unfold main.createProvider, providers.CreateProvider, main.ddnsConfig.
  cbn [ddns.Config.Provider ddns.Config.APIKey]. cbv zeta.
  destruct (String.eqb _ "duckdns"); [now rewrite Hkey|].
  now destruct (String.eqb _ "mock").
Qed.

Lemma createProvider_after_Validate_witness :
  main.createProvider (W := nat) (H := amd64)
    {| config.Config.Server := config.ServerConfig.mk 8080 "localhost" 0 0;
       config.Config.DDNS := config.DDNSConfig.mk "route53" "home.example.org" "secret" 0;
       config.Config.HTTP := config.HTTPConfig.mk 0 3 0 EmptyString |}
  = main.Fatal "Failed to create provider: unsupported DDNS provider: route53".
Proof.
  apply (createProvider_after_Validate (W := nat) (H := amd64) (H0 := no_config_file)
           {| config.Config.Server := config.ServerConfig.mk 8080 "localhost" 0 0;
              config.Config.DDNS :=
                config.DDNSConfig.mk "route53" "home.example.org" "secret" 0;
              config.Config.HTTP := config.HTTPConfig.mk 0 3 0 EmptyString |}).
  reflexivity.
Defined.

(** ** The mock provider *)

Section MockFacts.

Context {W : Type} `{Clock W}.

Lemma load_after_two_readings (p : Pointer W providers.MockProvider.t) w :
  sound_pointer p ->
  load p (snd (Now (snd (Now w)))) = load p w.
Proof. intros [_ Hclock]. now rewrite !Hclock. Qed.

(** What a successful [UpdateRecord] does. *)
Lemma Mock_UpdateRecord_ok (p : Pointer W providers.MockProvider.t) ctx req w :
  sound_pointer p ->
  providers.MockProvider.shouldFail (load p w) = false ->
  exists resp w',
    providers.MockProvider.UpdateRecord p ctx req w = Some ((Some resp, None), w') /\
    ddns.UpdateResponse.Success resp = true /\
    load p w'
    = providers.MockProvider.set_records
        (<[providers.MockProvider.key req.(ddns.UpdateRequest.Domain)
             req.(ddns.UpdateRequest.RecordType) := req.(ddns.UpdateRequest.Value)]>
           (providers.MockProvider.records (load p w)))
        (load p w).
Proof.
  intros Hp Hok. unfold providers.MockProvider.UpdateRecord. rewrite Hok.
  match goal with |- context [Now ?w0] => set (w1 := w0) end.
  pose proof (load_after_two_readings p w1 Hp) as Hload.
  destruct (Now w1) as [now1 w2]. cbn [snd] in Hload.
  destruct (Now w2) as [now2 w3]. cbn [snd] in Hload.
  eexists _, _. split; [reflexivity|]. split; [reflexivity|].
  rewrite Hload. subst w1. now destruct Hp as [-> _].
Qed.

End MockFacts.

(** X23.  The mock provider keeps what it is given: after a successful
    [UpdateRecord], [GetCurrentRecord] returns the request's value for its
    domain and record type, and what it returned before for every other key.
    Records are told apart by the text "domain:recordType" alone, so that
    two pairs with the same text share a record. *)
Theorem MockProvider_UpdateRecord_GetCurrentRecord {W : Type} `{Clock W}
    (p : Pointer W providers.MockProvider.t) (ctx : Ctx W) (req : ddns.UpdateRequest.t)
    (w : W) :
  sound_pointer p ->
  providers.MockProvider.shouldFail (load p w) = false ->
  exists resp w',
    providers.MockProvider.UpdateRecord p ctx req w = Some ((Some resp, None), w') /\
    forall domain recordType,
      providers.MockProvider.GetCurrentRecord (load p w') domain recordType
      = if String.eqb (providers.MockProvider.key domain recordType)
             (providers.MockProvider.key req.(ddns.UpdateRequest.Domain)
                req.(ddns.UpdateRequest.RecordType))
        then (req.(ddns.UpdateRequest.Value), None)
        else providers.MockProvider.GetCurrentRecord (load p w) domain recordType.
Proof.
  intros Hp Hok.
  destruct (Mock_UpdateRecord_ok p ctx req w Hp Hok) as (resp & w' & Hrun & _ & Hload).
  exists resp, w'. split; [exact Hrun|].
  intros domain recordType. rewrite Hload.
  unfold providers.MockProvider.GetCurrentRecord. cbn. rewrite Hok.
  destruct (String.eqb_spec (providers.MockProvider.key domain recordType)
              (providers.MockProvider.key (ddns.UpdateRequest.Domain req)
                 (ddns.UpdateRequest.RecordType req))) as [->|Hne].
  - now rewrite lookup_insert_eq.
  - now rewrite lookup_insert_ne.
Qed.

Lemma MockProvider_UpdateRecord_GetCurrentRecord_witness :
  exists resp w',
    providers.MockProvider.UpdateRecord mock_pointer Background_mock
      (ddns.UpdateRequest.mk "a:b" "c" "192.0.2.1" 300)
      (providers.NewMockProvider "test", 0%nat)
    = Some ((Some resp, None), w') /\
    forall domain recordType,
      providers.MockProvider.GetCurrentRecord (load mock_pointer w') domain recordType
      = if String.eqb (providers.MockProvider.key domain recordType)
             (providers.MockProvider.key "a:b" "c")
        then ("192.0.2.1"%string, None)
        else providers.MockProvider.GetCurrentRecord
               (load mock_pointer (providers.NewMockProvider "test", 0%nat))
               domain recordType.
Proof.
  apply (MockProvider_UpdateRecord_GetCurrentRecord mock_pointer Background_mock
           (ddns.UpdateRequest.mk "a:b" "c" "192.0.2.1" 300)
           (providers.NewMockProvider "test", 0%nat)).
  - split; intros; reflexivity.
  - reflexivity.
Defined.

(** X24.  A mock provider configured to fail fails every operation and
    changes nothing: [UpdateRecord] returns its error without assigning a
    record or reading the clock, [GetCurrentRecord] returns its error also
    for a record that is there, and [ValidateCredentials] returns an error,
    the configured validation error coming first. *)
Theorem MockProvider_configured_to_fail {W : Type} `{Clock W}
    (p : Pointer W providers.MockProvider.t) (ctx : Ctx W) (req : ddns.UpdateRequest.t)
    (domain recordType : string) (w : W) :
  providers.MockProvider.shouldFail (load p w) = true ->
  providers.MockProvider.UpdateRecord p ctx req w
  = Some ((None, Some (errors_New "mock provider configured to fail")), w) /\
  providers.MockProvider.GetCurrentRecord (load p w) domain recordType
  = (EmptyString, Some (errors_New "mock provider configured to fail")) /\
  providers.MockProvider.ValidateCredentials (load p w)
  = match providers.MockProvider.validateResult (load p w) with
    | Some err => Some err
    | None => Some (errors_New "mock validation failed")
    end.
Proof.
  intros Hfail.
  unfold providers.MockProvider.UpdateRecord, providers.MockProvider.GetCurrentRecord,
    providers.MockProvider.ValidateCredentials.
  now rewrite Hfail.
Qed.

Lemma MockProvider_configured_to_fail_witness :
  providers.MockProvider.UpdateRecord mock_pointer Background_mock
    (ddns.UpdateRequest.mk "home.example.org" "A" "192.0.2.1" 300)
    (providers.MockProvider.WithFailure mock_pointer true
       (providers.NewMockProvider "test", 0%nat))
  = Some ((None, Some (errors_New "mock provider configured to fail")),
          providers.MockProvider.WithFailure mock_pointer true
            (providers.NewMockProvider "test", 0%nat)) /\
  providers.MockProvider.GetCurrentRecord
    (load mock_pointer
       (providers.MockProvider.WithFailure mock_pointer true
          (providers.NewMockProvider "test", 0%nat)))
    "home.example.org" "A"
  = (EmptyString, Some (errors_New "mock provider configured to fail")) /\
  providers.MockProvider.ValidateCredentials
    (load mock_pointer
       (providers.MockProvider.WithFailure mock_pointer true
          (providers.NewMockProvider "test", 0%nat)))
  = match providers.MockProvider.validateResult
            (load mock_pointer
               (providers.MockProvider.WithFailure mock_pointer true
                  (providers.NewMockProvider "test", 0%nat))) with
    | Some err => Some err
    | None => Some (errors_New "mock validation failed")
    end.
Proof.
  apply (MockProvider_configured_to_fail mock_pointer Background_mock
           (ddns.UpdateRequest.mk "home.example.org" "A" "192.0.2.1" 300)
           "home.example.org" "A"
           (providers.MockProvider.WithFailure mock_pointer true
              (providers.NewMockProvider "test", 0%nat))).
  reflexivity.
Defined.

(** ** The update service *)

(** X25.  With the DuckDNS provider the service never skips an update:
    [GetCurrentRecord] fails without a request, the failure is not
    reported, and every detected address is sent to [UpdateRecord], whose
    outcome is the service's; the request carries the configured domain,
    record type and TTL. *)
Theorem UpdateIP_with_DuckDNS_always_updates {W : Type} `{Net W} `{Clock W}
    (fuel : nat) (d : providers.DuckDNSProvider.t W) (config : ddns.Config.t)
    (detector : ddns.IPDetector W) (ctx : Ctx W) (ip : string) (w w1 : W) :
  ddns.GetPublicIP detector ctx w = Some ((ip, None), w1) ->
  ddns.UpdateIP
    (ddns.NewServiceWithIPDetector (providers.DuckDNSProvider.iface fuel d) config detector)
    ctx w
  = ddns.returned
      (providers.DuckDNSProvider.UpdateRecord fuel d ctx
         {| ddns.UpdateRequest.Domain := config.(ddns.Config.Domain);
            ddns.UpdateRequest.RecordType := config.(ddns.Config.RecordType);
            ddns.UpdateRequest.Value := ip;
            ddns.UpdateRequest.TTL := config.(ddns.Config.TTL) |}) w1.
Proof.
  intros Hip. unfold ddns.UpdateIP. cbn. now rewrite Hip.
Qed.

Lemma UpdateIP_with_DuckDNS_always_updates_witness :
  ddns.UpdateIP (H1 := ticking_clock)
    (ddns.NewServiceWithIPDetector
       (providers.DuckDNSProvider.iface (H := answers "OK") 4
          (providers.NewDuckDNSProvider (H := amd64) (providers.DuckDNSConfig.mk "secret")))
       (ddns.Config.mk "duckdns" "secret" "home" 300 "A" 0)
       (ddns.mkIPDetector (fun _ w => Some (("192.0.2.1"%string, None), w))))
    Background 0%nat
  = ddns.returned
      (providers.DuckDNSProvider.UpdateRecord (H := answers "OK") 4
         (providers.NewDuckDNSProvider (H := amd64) (providers.DuckDNSConfig.mk "secret"))
         Background
         {| ddns.UpdateRequest.Domain := "home";
            ddns.UpdateRequest.RecordType := "A";
            ddns.UpdateRequest.Value := "192.0.2.1";
            ddns.UpdateRequest.TTL := 300 |}) 0%nat.
Proof.
  apply (UpdateIP_with_DuckDNS_always_updates (H := answers "OK")
           (H0 := ticking_clock) 4
           (providers.NewDuckDNSProvider (H := amd64) (providers.DuckDNSConfig.mk "secret"))
           (ddns.Config.mk "duckdns" "secret" "home" 300 "A" 0)
           (ddns.mkIPDetector (fun _ w => Some (("192.0.2.1"%string, None), w)))
           Background "192.0.2.1" 0%nat 0%nat).
  reflexivity.
Defined.

(** X26.  With the mock provider the service is idempotent: an update
    succeeds and leaves the detected address in the record of the
    configured domain and record type; a second update that detects the
    same address answers that the record is up to date and leaves the
    provider as it is. *)
Theorem UpdateIP_with_Mock_is_idempotent {W : Type} `{Clock W}
    (p : Pointer W providers.MockProvider.t) (config : ddns.Config.t)
    (detector : ddns.IPDetector W) (ctx : Ctx W) (ip : string) (w : W) :
  sound_pointer p ->
  detects detector ctx ip p ->
  providers.MockProvider.shouldFail (load p w) = false ->
  exists resp1 w1 resp2 w2,
    ddns.UpdateIP
      (ddns.NewServiceWithIPDetector (providers.MockProvider.iface p) config detector) ctx w
    = Some ((Some resp1, None), w1) /\
    providers.MockProvider.GetCurrentRecord (load p w1)
      config.(ddns.Config.Domain) config.(ddns.Config.RecordType) = (ip, None) /\
    ddns.UpdateIP
      (ddns.NewServiceWithIPDetector (providers.MockProvider.iface p) config detector) ctx w1
    = Some ((Some resp2, None), w2) /\
    ddns.UpdateResponse.Message resp2 = "Record already up to date"%string /\
    load p w2 = load p w1.
Proof.
  intros Hp Hdet Hok.
  assert (Hskip : forall w0,
             providers.MockProvider.GetCurrentRecord (load p w0)
               config.(ddns.Config.Domain) config.(ddns.Config.RecordType) = (ip, None) ->
             exists resp w',
               ddns.UpdateIP
                 (ddns.NewServiceWithIPDetector (providers.MockProvider.iface p) config
                    detector) ctx w0
               = Some ((Some resp, None), w') /\
               ddns.UpdateResponse.Message resp = "Record already up to date"%string /\
               load p w' = load p w0).
  { intros w0 Hrec. destruct (Hdet w0) as (w0' & Hip & Hload).
    unfold ddns.UpdateIP. cbn. rewrite Hip, Hload, Hrec. cbn.
    rewrite String.eqb_refl.
    destruct Hp as [_ Hclock]. specialize (Hclock w0').
    destruct (Now w0') as [now w0'']. cbn [snd] in Hclock.
    eexists _, _. split; [reflexivity|]. split; [reflexivity|]. congruence. }
  assert (Hfirst : exists resp1 w1,
             ddns.UpdateIP
               (ddns.NewServiceWithIPDetector (providers.MockProvider.iface p) config
                  detector) ctx w
             = Some ((Some resp1, None), w1) /\
             providers.MockProvider.GetCurrentRecord (load p w1)
               config.(ddns.Config.Domain) config.(ddns.Config.RecordType) = (ip, None)).
  { destruct (providers.MockProvider.GetCurrentRecord (load p w)
                config.(ddns.Config.Domain) config.(ddns.Config.RecordType))
      as [existing err] eqn:Hrec.
    destruct (negb (notNil err) && String.eqb existing ip) eqn:Hsame.
    - apply andb_prop in Hsame as [Hnil Heq].
      destruct err; [discriminate|]. apply String.eqb_eq in Heq. subst existing.
      destruct (Hskip w Hrec) as (resp & w' & Hrun & _ & Hload).
      exists resp, w'. split; [exact Hrun|]. now rewrite Hload.
    - destruct (Hdet w) as (w0 & Hip & Hload).
      assert (Hok0 : providers.MockProvider.shouldFail (load p w0) = false)
        by now rewrite Hload.
      destruct (Mock_UpdateRecord_ok p ctx
                  {| ddns.UpdateRequest.Domain := config.(ddns.Config.Domain);
                     ddns.UpdateRequest.RecordType := config.(ddns.Config.RecordType);
                     ddns.UpdateRequest.Value := ip;
                     ddns.UpdateRequest.TTL := config.(ddns.Config.TTL) |} w0 Hp Hok0)
        as (resp & w' & Hrun & _ & Hload').
      exists resp, w'. split.
      + unfold ddns.UpdateIP. cbn. rewrite Hip, Hload, Hrec, Hsame. exact Hrun.
      + rewrite Hload'. unfold providers.MockProvider.GetCurrentRecord. cbn.
        rewrite Hok0. now rewrite lookup_insert_eq. }
  destruct Hfirst as (resp1 & w1 & Hrun1 & Hrec1).
  destruct (Hskip w1 Hrec1) as (resp2 & w2 & Hrun2 & Hmsg & Hload2).
  exists resp1, w1, resp2, w2. auto.
Qed.

Lemma UpdateIP_with_Mock_is_idempotent_witness :
  exists resp1 w1 resp2 w2,
    ddns.UpdateIP (H1 := mock_clock)
      (ddns.NewServiceWithIPDetector (providers.MockProvider.iface mock_pointer)
         (ddns.Config.mk "mock" EmptyString "home.example.org" 300 "A" 0)
         (ddns.mkIPDetector (fun _ w => Some (("192.0.2.1"%string, None), w))))
      Background_mock (providers.NewMockProvider "test", 0%nat)
    = Some ((Some resp1, None), w1) /\
    providers.MockProvider.GetCurrentRecord (load mock_pointer w1) "home.example.org" "A"
    = ("192.0.2.1"%string, None) /\
    ddns.UpdateIP (H1 := mock_clock)
      (ddns.NewServiceWithIPDetector (providers.MockProvider.iface mock_pointer)
         (ddns.Config.mk "mock" EmptyString "home.example.org" 300 "A" 0)
         (ddns.mkIPDetector (fun _ w => Some (("192.0.2.1"%string, None), w))))
      Background_mock w1
    = Some ((Some resp2, None), w2) /\
    ddns.UpdateResponse.Message resp2 = "Record already up to date"%string /\
    load mock_pointer w2 = load mock_pointer w1.
Proof.
  apply (UpdateIP_with_Mock_is_idempotent (H := mock_clock)
           mock_pointer (ddns.Config.mk "mock" EmptyString "home.example.org" 300 "A" 0)
           (ddns.mkIPDetector (fun _ w => Some (("192.0.2.1"%string, None), w)))
           Background_mock "192.0.2.1" (providers.NewMockProvider "test", 0%nat)).
  - split; intros; reflexivity.
  - intros w. exists w. split; reflexivity.
  - reflexivity.
Defined.

(** ** The callers of the executor *)

Section CallerFacts.

Context {T W : Type} `{ZeroValue T}.

Lemma task_timeouts_fixed (ex : Executor W) (tr : list (event T)) (d : Duration) :
  (forall attempt, GetTimeout (timeoutStrategy ex) attempt = d) ->
  Forall (follows_strategies ex) tr ->
  Forall (eq d) (task_timeouts tr).
Proof.
  intros Hd. induction 1 as [|ev tr Hev _ IH]; [constructor|].
  destruct ev; cbn; trivial.
  constructor; [|exact IH]. destruct Hev as [-> _]. now rewrite Hd.
Qed.

(** A call under an executor of three attempts and a fixed timeout. *)
Lemma ExecuteSimple_three_attempts (ex : Executor W) (ctx : Ctx W) (task : Task T W)
    (d : Duration) fuel w v err w' tr :
  GetMaxAttempts (retryStrategy ex) = 3 ->
  (forall attempt, GetTimeout (timeoutStrategy ex) attempt = d) ->
  ExecuteSimple fuel ex ctx task w = ((Some (v, err), w'), tr) ->
  (1 <= length (task_runs tr) <= 3)%nat /\
  Forall (eq d) (task_timeouts tr) /\
  match err with
  | None => exists timeout w0 w1, task ctx timeout w0 = ((v, None), w1)
  | Some _ => v = zero_value
  end.
Proof.
  intros Hmax Hd HS.
  assert (Hlt : GetMaxAttempts (retryStrategy ex) < I64.max_int)
    by (rewrite Hmax; unfold I64.max_int; lia).
  destruct (ExecuteSimple_task_runs _ _ _ _ _ _ _ _ _ Hlt HS) as (Hlen & Hfollow & _).
  rewrite Hmax in Hlen.
  apply ExecuteSimple_Execute in HS as (r & HE & ->).
  split; [|split].
  - split; [|lia].
    pose proof HE as Hrun. apply Execute_run in Hrun as (n & _ & Hrun).
    pose proof (run_Result_invariant _ _ _ _ _ _ _ _ Hrun []) as Hinv.
    cbn [app] in Hinv. unfold Result_invariant, last_task_run in Hinv.
    assert (Hsome : exists x, last (task_runs tr) = Some x).
    { destruct (Error r); [destruct Hinv as (v0 & e0 & ->)| rewrite Hinv]; eauto; lia. }
    destruct Hsome as [x Hx]. destruct (task_runs tr); [discriminate|cbn; lia].
  - now apply (task_timeouts_fixed ex).
  - destruct err as [e|]; [reflexivity|].
    destruct (Execute_nil_error _ _ _ _ _ _ _ _ HE)
      as [(Hno & _) | (pre & a & t & w0 & w1 & _ & Htask)]; [lia|eauto].
Qed.

End CallerFacts.

Section DuckDNSFacts.

Context {W : Type} `{Net W} `{Clock W}.


(** Against a server that answers KO the task always fails, with the same
    error. *)
Lemma UpdateRecord_task_KO (d : providers.DuckDNSProvider.t W) req body taskCtx timeout w :
  server_answers body ->
  TrimSpace body = "KO"%string ->
  snd (fst (providers.DuckDNSProvider.UpdateRecord_task d req taskCtx timeout w))
  = Some (errors_New "DuckDNS update failed: invalid token or domain").
Proof.
  intros [Hreq Hdo] Hko.
  unfold providers.DuckDNSProvider.UpdateRecord_task. cbv zeta.
  match goal with |- context [NewRequestWithContext ?m ?u] =>
    destruct (Hreq m u) as [httpReq ->] end.
  match goal with |- context [Do ?c ?t ?r ?w0] =>
    destruct (Hdo c t r w0) as (resp & w1 & -> & Hread) end.
  destruct (Hread w1) as [w2 ->]. rewrite Hko. reflexivity.
Qed.

End DuckDNSFacts.



(** X28.  An answer KO, which DuckDNS gives for an invalid token or domain,
    is retried like a failure of the network: against a server that answers
    every request with KO, and under a context that is never done,
    [UpdateRecord] makes three requests, waits 1s and then 2s between them,
    and returns the error of the rejected update with a nil response. *)
Theorem DuckDNS_KO_is_retried {W : Type} `{Arch} `{Net W} `{Clock W}
    (fuel : nat) (config : providers.DuckDNSConfig.t) (ctx : Ctx W)
    (req : ddns.UpdateRequest.t) (body : string) (w : W) :
  server_answers body ->
  TrimSpace body = "KO"%string ->
  never_done ctx ->
  (3 <= fuel)%nat ->
  exists w' tr,
    providers.DuckDNSProvider.UpdateRecord fuel (providers.NewDuckDNSProvider config) ctx req w
    = ((Some (None, Some (errors_New "DuckDNS update failed: invalid token or domain")), w'),
       tr) /\
    length (task_runs tr) = 3%nat /\
    waits tr = [(1, Second); (2, 2 * Second)].
Proof.
  intros Hserver Hko Hnever Hfuel.
  set (d := providers.NewDuckDNSProvider config).
  destruct (attempts_exhaust_with
              (fun e => e = errors_New "DuckDNS update failed: invalid token or domain")
              (providers.DuckDNSProvider.executor d) ctx
              (providers.DuckDNSProvider.UpdateRecord_task d req) 3)
    with (n := 2%nat) (a := 1) (w := w)
         (lastR := {| Value := @zero_value (option ddns.UpdateResponse.t) _;
                      Error := None; Attempt := 0 |})
    as (r & e & w' & tr & Hrun & _ & _ & -> & Hruns & Hwaits).
  - intros a e. cbn. unfold ExponentialBackoffStrategy.ShouldRetry. cbn.
    destruct (Z.geb_spec a 3), (Z.ltb_spec a 3); trivial; lia.
  - intros c t w0. now rewrite (UpdateRecord_task_KO d req body c t w0 Hserver Hko).
  - exact Hnever.
  - unfold I64.max_int. lia.
  - unfold I64.min_int. lia.
  - reflexivity.
  - exists w', tr. split; [|split].
    + apply (attempts_fuel_mono _ _ _ _ _ fuel) in Hrun; [|exact Hfuel].
      unfold providers.DuckDNSProvider.UpdateRecord, ExecuteSimple, Execute, bind.
      change (GetMaxAttempts (retryStrategy (providers.DuckDNSProvider.executor d))) with 3.
      rewrite Hrun. unfold ret. now rewrite app_nil_r.
    + apply (f_equal (@length _)) in Hruns. unfold task_attempts in Hruns.
      now rewrite length_map, length_attempt_range in Hruns.
    + rewrite Hwaits. cbn [attempt_range map].
      repeat f_equal; vm_compute; reflexivity.
Qed.

Lemma DuckDNS_KO_is_retried_witness :
  exists w' tr,
    providers.DuckDNSProvider.UpdateRecord (H := answers "KO") (H0 := ticking_clock) 3
      (providers.NewDuckDNSProvider (H := amd64) (providers.DuckDNSConfig.mk "wrong"))
      Background (ddns.UpdateRequest.mk "home" "A" "192.0.2.1" 300) 0%nat
    = ((Some (None, Some (errors_New "DuckDNS update failed: invalid token or domain")), w'),
       tr) /\
    length (task_runs tr) = 3%nat /\
    waits tr = [(1, Second); (2, 2 * Second)].
Proof.
  apply (DuckDNS_KO_is_retried (H := amd64) (H0 := answers "KO") (H1 := ticking_clock) 3
           (providers.DuckDNSConfig.mk "wrong") Background
           (ddns.UpdateRequest.mk "home" "A" "192.0.2.1" 300) "KO" 0%nat).
  - split.
    + intros method url. eexists. reflexivity.
    + intros taskCtx timeout req w. eexists _, _. split; [reflexivity|].
      intros w2. eexists. reflexivity.
  - reflexivity.
  - intros delay w. reflexivity.
  - lia.
Defined.

(** X29.  [ValidateCredentials] of the DuckDNS provider checks that the
    service answers, not the token: when the first request is answered with
    the status 200, it returns nil after that one request, without reading
    the body, in which DuckDNS says KO for a token it does not know.  The
    request is a GET with the user agent ddns-client/1.0, made under the
    timeout of 30s; the world returned is the one [client.Do] left, with
    the body closed and nothing else done to it. *)
Theorem ValidateCredentials_accepts_status_200 {W : Type} `{Arch} `{Net W}
    (fuel : nat) (config : providers.DuckDNSConfig.t) (ctx : Ctx W) (w : W) :
  (forall method url, exists req, NewRequestWithContext method url = inl req) ->
  (forall req, exists resp w1,
      Do ctx (30 * Second) req w = (inl resp, w1) /\
      resp.(http.StatusCode) = http.StatusOK) ->
  exists req resp w1,
    NewRequestWithContext "GET"
      ("https://www.duckdns.org/update?"
       +:+ Encode (<["verbose" := ["true"%string]]>
                     (<["token" := [config.(providers.DuckDNSConfig.Token)]]>
                        (<["domains" := ["test"%string]]> ∅))))
    = inl req /\
    Do ctx (30 * Second) (http.set_UserAgent "ddns-client/1.0" req) w = (inl resp, w1) /\
    resp.(http.StatusCode) = http.StatusOK /\
    providers.DuckDNSProvider.ValidateCredentials (S fuel)
      (providers.NewDuckDNSProvider config) ctx w
    = ((Some None, Close resp.(http.Body) w1), [EvTask 1 (30 * Second) tt None]).
Proof.
  intros Hreq Hdo.
  unfold providers.DuckDNSProvider.ValidateCredentials, ExecuteSimple, Execute, bind.
  cbn. unfold bind, notify_timeout, run_task. cbn.
  unfold providers.DuckDNSProvider.ValidateCredentials_task. cbv zeta.
  match goal with |- context [NewRequestWithContext ?m ?u] =>
    destruct (Hreq m u) as [req Hnew] end.
  destruct (Hdo (http.set_UserAgent "ddns-client/1.0" req)) as (resp & w1 & Hresp & Hstatus).
  exists req, resp, w1.
  split; [exact Hnew|]. split; [exact Hresp|]. split; [exact Hstatus|].
  match goal with |- context [NewRequestWithContext ?m ?u] =>
    replace (NewRequestWithContext m u) with (@inl http.Request error req)
      by (symmetry; exact Hnew) end.
  rewrite Hresp, Hstatus. reflexivity.
Qed.

Lemma ValidateCredentials_accepts_status_200_witness :
  providers.DuckDNSProvider.ValidateCredentials (H := journal_net "KO") 1
    (providers.NewDuckDNSProvider (H := amd64) (providers.DuckDNSConfig.mk "wrong"))
    journal_net_Background []
  = ((Some None, [Requested "https://www.duckdns.org/update?"; ClosedBody]),
     [EvTask 1 (30 * Second) tt None]) /\
  exists req resp w1,
    NewRequestWithContext (Net := journal_net "KO") "GET"
      ("https://www.duckdns.org/update?"
       +:+ Encode (Net := journal_net "KO")
             (<["verbose" := ["true"%string]]>
                (<["token" := ["wrong"%string]]> (<["domains" := ["test"%string]]> ∅))))
    = inl req /\
    Do (Net := journal_net "KO") journal_net_Background (30 * Second)
      (http.set_UserAgent "ddns-client/1.0" req) [] = (inl resp, w1) /\
    resp.(http.StatusCode) = http.StatusOK /\
    providers.DuckDNSProvider.ValidateCredentials (H := journal_net "KO") 1
      (providers.NewDuckDNSProvider (H := amd64) (providers.DuckDNSConfig.mk "wrong"))
      journal_net_Background []
    = ((Some None, Close (Net := journal_net "KO") resp.(http.Body) w1),
       [EvTask 1 (30 * Second) tt None]).
Proof.
  split; [reflexivity|].
  apply (ValidateCredentials_accepts_status_200 (H := amd64) (H0 := journal_net "KO") 0
           (providers.DuckDNSConfig.mk "wrong") journal_net_Background []).
  - intros method url. eexists. reflexivity.
  - intros req. eexists _, _. split; reflexivity.
Defined.

Section IPFacts.

Context {W : Type} `{Net W}.

(** The task of [getIPFromHTTPBin] succeeds only with a non-empty address
    that the body of a response with status 200 parsed to. *)
Lemma ipTask_ok taskCtx timeout w ip w1 :
  ddns.ipTask taskCtx timeout w = ((ip, None), w1) ->
  ip <> EmptyString /\
  exists req resp w2 w3 body,
    Do taskCtx timeout req w = (inl resp, w2) /\
    resp.(http.StatusCode) = http.StatusOK /\
    ReadAll resp.(http.Body) w2 = (inl body, w3) /\
    Unmarshal_IPResponse body = (ip, None).
Proof.
  unfold ddns.ipTask.
  destruct (NewRequestWithContext _ _) as [req|err]; [|discriminate].
  destruct (Do _ _ _ _) as [[resp|err] w2] eqn:Hdo; [|discriminate].
  destruct (Z.eqb_spec (http.StatusCode resp) http.StatusOK) as [Hstatus|];
    cbn [negb]; [|discriminate].
  destruct (ReadAll _ _) as [[body|err] w3] eqn:Hread; [|discriminate].
  destruct (Unmarshal_IPResponse body) as [Origin [err|]] eqn:Hjson; [discriminate|].
  destruct (String.eqb_spec Origin EmptyString) as [|Hne]; [discriminate|].
  intros [= <- _]. split; [exact Hne|]. eauto 10.
Qed.

End IPFacts.

(** X30.  What the detection of the public address returns: after one to
    three requests to httpbin, each under a timeout of 10s, either a nil
    error with a non-empty address, the origin that the body of a response
    with status 200 parsed to, or an error with the empty string; and on an
    error the service built by [NewService] returns that error without
    calling its provider. *)
Theorem getIPFromHTTPBin_outcome {W : Type} `{Arch} `{Net W} `{Clock W}
    (fuel : nat) (ctx : Ctx W) (w : W) (ip : string) (err : option error) (w' : W)
    (tr : list (event string)) :
  ddns.getIPFromHTTPBin fuel ctx w = ((Some (ip, err), w'), tr) ->
  (1 <= length (task_runs tr) <= 3)%nat /\
  Forall (eq (10 * Second)) (task_timeouts tr) /\
  match err with
  | None =>
      ip <> EmptyString /\
      exists taskCtx req resp w0 w1 w2 body,
        Do taskCtx (10 * Second) req w0 = (inl resp, w1) /\
        resp.(http.StatusCode) = http.StatusOK /\
        ReadAll resp.(http.Body) w1 = (inl body, w2) /\
        Unmarshal_IPResponse body = (ip, None)
  | Some e =>
      ip = EmptyString /\
      forall (provider : ddns.Provider W) (config : ddns.Config.t),
        ddns.UpdateIP (ddns.NewService fuel provider config) ctx w = Some ((None, Some e), w')
  end.
Proof.
  intros HS. pose proof HS as Hrun. unfold ddns.getIPFromHTTPBin in HS.
  pose proof HS as Hfollow.
  apply ExecuteSimple_task_runs in Hfollow as (_ & _ & Hfrom);
    [|cbn; unfold I64.max_int; lia].
  pose proof HS as HE. apply ExecuteSimple_Execute in HE as (r & HE & _).
  apply (ExecuteSimple_three_attempts _ _ _ (10 * Second)) in HS as (Hlen & Htime & Hv);
    [|reflexivity|reflexivity].
  split; [exact Hlen|]. split; [exact Htime|].
  destruct err as [e|].
  - split; [exact Hv|]. intros provider config.
    unfold ddns.UpdateIP, ddns.NewService, ddns.NewServiceWithIPDetector. cbn.
    unfold ddns.returned, ddns.getCurrentPublicIPFromService. now rewrite Hrun.
  - destruct (Execute_nil_error _ _ _ _ _ _ _ _ HE)
      as [(Hno & _) | (pre & a & t & w0 & w1 & Htr & Htask)]; [cbn in Hno; lia|].
    assert (Hip : Value r = ip).
    { destruct Hv as (t' & w0' & w1' & Htask').
      apply ExecuteSimple_Execute in Hrun as (r' & HE' & Hval).
      unfold ddns.getIPFromHTTPBin in *. rewrite HE in HE'. now injection HE' as <-. }
    rewrite Hip in *. subst tr.
    unfold task_timeouts in Htime. rewrite flat_map_app in Htime.
    apply List.Forall_app in Htime as [_ Hlast]. cbn in Hlast.
    apply List.Forall_cons_iff in Hlast as [<- _].
    apply ipTask_ok in Htask as (Hne & req & resp & w2 & w3 & body & Hdo & Hst & Hread & Hjs).
    split; [exact Hne|]. eauto 12.
Qed.

Lemma getIPFromHTTPBin_outcome_witness :
  (1 <= length (task_runs [EvTask 1%Z (10 * Second)%Z "192.0.2.1"%string None]) <= 3)%nat /\
  Forall (eq (10 * Second))
    (task_timeouts [EvTask 1 (10 * Second) "192.0.2.1"%string None]) /\
  "192.0.2.1"%string <> EmptyString /\
  exists taskCtx req resp w0 w1 w2 body,
    Do (Net := answers "192.0.2.1") taskCtx (10 * Second) req w0 = (inl resp, w1) /\
    resp.(http.StatusCode) = http.StatusOK /\
    ReadAll (Net := answers "192.0.2.1") resp.(http.Body) w1 = (inl body, w2) /\
    Unmarshal_IPResponse (Net := answers "192.0.2.1") body = ("192.0.2.1"%string, None).
Proof.
  apply (getIPFromHTTPBin_outcome (H := amd64) (H0 := answers "192.0.2.1")
           (H1 := ticking_clock) 4 Background 0%nat "192.0.2.1" None 1%nat
           [EvTask 1 (10 * Second) "192.0.2.1"%string None]).
  reflexivity.
Defined.
